(** * Template rendering of the order-printing tool

    A shallow embedding of the template engine shared by [app.js]
    (orders list and print path) and [designer.js] (template designer
    and live preview), with the properties of its specification; and, in
    the last part, of the code around it: the filters, the selection, the
    printing and the order dialog of [app.js], the stored template of
    [designer.js], the join of orders and line items in [api/orders.js],
    and the reading of [.env.local] in [server.js].

    Modelling conventions.
    - A JavaScript string is the list of its UTF-16 code units, each a
      number of type [N].  The regular expressions of the source carry no
      [u] flag, and [trim] and [slice] count code units, so this is the
      level at which the code works.
    - JavaScript values are the JSON values an order can hold, plus
      [undefined] (what reading a missing property gives) and the built-in
      functions that every object inherits.  A number is given by its
      display string, which is all the code looks at: two finite numbers
      are the same exactly when they are written the same, and only zero,
      written [0], counts as false.  [JNum z] is the number of a whole [z]
      that a number holds exactly, written in decimal digits.
    - An object is the list of its own properties in [Object.keys] order,
      with distinct keys.  Reading a property goes on to what a plain
      object inherits from [Object.prototype] ([constructor], [toString],
      [valueOf], ...) when the object has no property of that name.
    - [toString] is the display string of a value that has one.  [String]
      throws on an object that has a property [toString] of its own (in a
      value read from JSON it is no function), and on an array that holds
      one: [displayable] tells the values that have a display string, and
      [String_] is the conversion with its exception.  The renderers are
      written with [toString], so they describe the code on orders whose
      values are displayable.
    - A thrown [TypeError] (reading a property of [null] or [undefined],
      calling what is no function) is the [TypeError] case of [result].
    - [new Date().toLocaleDateString()] is the argument [today], and
      [String.prototype.toLowerCase], which follows the Unicode tables, is
      the argument [toLowerCase] of the filter.
    - [applyFilters] in [App] is the filter and the pruning of the
      selection, the first two steps of the function of that name; the
      sorting and the drawing of the list that follow are not part of it.
    - The state a function reads or writes is passed to it and returned
      by it: [allOrders] and [filteredOrders] are lists of objects,
      [selectedIds] is the list of the members of the [Set] in insertion
      order, [localStorage] is the list of its names with their strings,
      the filter controls are a record of their values.  What a function
      does to the page beyond that (classes, texts of buttons, focus
      traps) is not modelled. *)

From Stdlib Require Import String Ascii DecimalString ZArith NArith Bool Arith Lia List.
From Stdlib Require Import Permutation Sorted.
From Stdlib Require DecimalPos DecimalFacts.
Import ListNotations.

Set Implicit Arguments.
Set Warnings "-register-all".

(* ================================================================= *)
(** ** Strings *)

Definition jsstring := list N.

(** An ASCII literal as a JavaScript string. *)
Definition lit (s : string) : jsstring :=
  map N_of_ascii (list_ascii_of_string s).

(** A literal of the source file, which is UTF-8 encoded, as the UTF-16
    string the JavaScript engine holds. *)
Fixpoint utf16_of_utf8 (bs : list N) : jsstring :=
  match bs with
  | [] => []
  | b0 :: t0 =>
    if (b0 <? 128)%N then b0 :: utf16_of_utf8 t0
    else
      match t0 with
      | [] => [65533%N]
      | b1 :: t1 =>
        if (b0 <? 224)%N
        then ((b0 mod 32) * 64 + b1 mod 64)%N :: utf16_of_utf8 t1
        else
          match t1 with
          | [] => [65533%N]
          | b2 :: t2 =>
            if (b0 <? 240)%N
            then ((b0 mod 16) * 4096 + (b1 mod 64) * 64 + b2 mod 64)%N
                   :: utf16_of_utf8 t2
            else
              match t2 with
              | [] => [65533%N]
              | b3 :: t3 =>
                let cp := ((b0 mod 8) * 262144 + (b1 mod 64) * 4096
                           + (b2 mod 64) * 64 + b3 mod 64 - 65536)%N in
                (55296 + cp / 1024)%N :: (56320 + cp mod 1024)%N
                  :: utf16_of_utf8 t3
              end
          end
      end
  end.

Definition text (s : string) : jsstring := utf16_of_utf8 (lit s).

Definition LBRACE : N := 123.
Definition RBRACE : N := 125.
Definition HASH : N := 35.
Definition SLASH : N := 47.
Definition AMP : N := 38.
Definition LT : N := 60.
Definition GT : N := 62.
Definition QUOT : N := 34.
Definition APOS : N := 39.
Definition NEWLINE : N := 10.

(** [dq s] is the literal [s] between two double quotes. *)
Definition dq (s : string) : jsstring := QUOT :: lit s ++ [QUOT].

Fixpoint str_eqb (a b : jsstring) : bool :=
  match a, b with
  | [], [] => true
  | x :: a', y :: b' => (x =? y)%N && str_eqb a' b'
  | _, _ => false
  end.

Definition isEmpty (s : jsstring) : bool :=
  match s with [] => true | _ :: _ => false end.

(** [Array.prototype.join] on strings. *)
Fixpoint joinWith (sep : jsstring) (l : list jsstring) : jsstring :=
  match l with
  | [] => []
  | [s] => s
  | s :: l' => s ++ sep ++ joinWith sep l'
  end.

(** The lines of a multi-line template literal. *)
Definition lines (l : list jsstring) : jsstring := joinWith [NEWLINE] l.

(** White space and line terminators, the code units [trim] strips. *)
Definition isWhiteSpace (c : N) : bool :=
  ((c =? 9) || (c =? 10) || (c =? 11) || (c =? 12) || (c =? 13)
   || (c =? 32) || (c =? 160) || (c =? 5760)
   || ((8192 <=? c) && (c <=? 8202))
   || (c =? 8232) || (c =? 8233) || (c =? 8239) || (c =? 8287)
   || (c =? 12288) || (c =? 65279))%N.

Fixpoint trimStart (s : jsstring) : jsstring :=
  match s with
  | [] => []
  | c :: s' => if isWhiteSpace c then trimStart s' else s
  end.

Definition trimEnd (s : jsstring) : jsstring := rev (trimStart (rev s)).

(** [String.prototype.trim]. *)
Definition trim (s : jsstring) : jsstring := trimEnd (trimStart s).

(** [s.slice(0, n)]. *)
Definition slice0 (n : nat) (s : jsstring) : jsstring := firstn n s.

(** [stripPrefix p s] is what follows [p] in [s] when [s] starts with [p]. *)
Fixpoint stripPrefix (p s : jsstring) : option jsstring :=
  match p, s with
  | [], _ => Some s
  | x :: p', y :: s' => if (x =? y)%N then stripPrefix p' s' else None
  | _ :: _, [] => None
  end.

(** The longest prefix of [s] free of the code unit [c], and the rest. *)
Fixpoint spanNot (c : N) (s : jsstring) : jsstring * jsstring :=
  match s with
  | [] => ([], [])
  | x :: s' =>
    if (x =? c)%N then ([], s)
    else let (run, rest) := spanNot c s' in (x :: run, rest)
  end.

(** The first occurrence of [needle] in [hay]: what precedes it and what
    follows it. *)
Fixpoint findFirst (needle hay : jsstring) : option (jsstring * jsstring) :=
  match stripPrefix needle hay with
  | Some rest => Some ([], rest)
  | None =>
    match hay with
    | [] => None
    | c :: hay' =>
      match findFirst needle hay' with
      | Some (before, rest) => Some (c :: before, rest)
      | None => None
      end
    end
  end.

Definition includes (needle hay : jsstring) : bool :=
  match findFirst needle hay with Some _ => true | None => false end.

(** [s.replace(/c/g, by)] for a single code unit [c]. *)
Definition replaceChar (c : N) (by_ : jsstring) (s : jsstring) : jsstring :=
  flat_map (fun x => if (x =? c)%N then by_ else [x]) s.

(* ================================================================= *)
(** ** Values *)

Inductive jsval : Type :=
| JUndefined
| JNull
| JBool (b : bool)
| JNumber (display : jsstring)
| JStr (s : jsstring)
| JArr (elems : list jsval)
| JObj (fields : list (jsstring * jsval))
| JFun (source : jsstring).

Definition obj := list (jsstring * jsval).

(** The decimal notation of an integer: [String(z)] for an integer [z]
    that a number holds exactly and that is below [1e21] in magnitude
    (from there on JavaScript writes an exponent). *)
Definition numberToString (z : Z) : jsstring :=
  lit (NilZero.string_of_int (Z.to_int z)).

(** The number [z]. *)
Definition JNum (z : Z) : jsval := JNumber (numberToString z).

(** [String(v)] for a value that has a display string: see [displayable]
    for the values that have one, and [String_] for the conversion with
    its exception. *)
Fixpoint toString (v : jsval) : jsstring :=
  match v with
  | JUndefined => lit "undefined"
  | JNull => lit "null"
  | JBool true => lit "true"
  | JBool false => lit "false"
  | JNumber display => display
  | JStr s => s
  | JArr elems =>
    joinWith (lit ",")
      (map (fun e => match e with
                     | JUndefined | JNull => []
                     | _ => toString e
                     end) elems)
  | JObj _ => lit "[object Object]"
  | JFun source => source
  end.

(** [v] has a display string.  [String] asks an object for its member
    [toString]: the inherited one answers [[object Object]], but a
    property [toString] of the object itself, which in a value read from
    JSON is no function, leaves the conversion without a method, and it
    throws a [TypeError].  An array converts its elements, except [null]
    and [undefined], in the same way. *)
Fixpoint displayable (v : jsval) : bool :=
  match v with
  | JArr elems => forallb displayable elems
  | JObj fields =>
    negb (existsb (fun kv => str_eqb (fst kv) (lit "toString")) fields)
  | _ => true
  end.

(** The truth value of [v] in a condition.  Among the finite numbers
    only [0] and [-0] are false, and both are written [0]. *)
Definition truthy (v : jsval) : bool :=
  match v with
  | JUndefined | JNull => false
  | JBool b => b
  | JNumber display => negb (str_eqb display (lit "0"))
  | JStr s => negb (isEmpty s)
  | JArr _ | JObj _ | JFun _ => true
  end.

(** [a || b]. *)
Definition jsOr (a b : jsval) : jsval := if truthy a then a else b.

(** [a && s] for a string [s]. *)
Definition jsAnd (a : jsval) (s : jsstring) : jsval :=
  if truthy a then JStr s else a.

(** [a ?? b]. *)
Definition nullish (a b : jsval) : jsval :=
  match a with
  | JUndefined | JNull => b
  | _ => a
  end.

Definition isNullish (v : jsval) : bool :=
  match v with
  | JUndefined | JNull => true
  | _ => false
  end.

(** The property [k] of [o] itself. *)
Fixpoint getOwn (o : obj) (k : jsstring) : option jsval :=
  match o with
  | [] => None
  | (k', v) :: o' => if str_eqb k' k then Some v else getOwn o' k
  end.

(** [String(f)] for a built-in function, as V8 writes it. *)
Definition nativeFunction (name : string) : jsval :=
  JFun (lit "function " ++ lit name ++ lit "() { [native code] }").

(** What every plain object inherits: the properties of
    [Object.prototype].  Its accessor [__proto__] gives, on a plain
    object, [Object.prototype] itself, an object that has no data field
    and is displayed as [[object Object]]. *)
Definition OBJECT_PROTOTYPE : obj :=
  [ (lit "constructor", nativeFunction "Object");
    (lit "__defineGetter__", nativeFunction "__defineGetter__");
    (lit "__defineSetter__", nativeFunction "__defineSetter__");
    (lit "hasOwnProperty", nativeFunction "hasOwnProperty");
    (lit "__lookupGetter__", nativeFunction "__lookupGetter__");
    (lit "__lookupSetter__", nativeFunction "__lookupSetter__");
    (lit "isPrototypeOf", nativeFunction "isPrototypeOf");
    (lit "propertyIsEnumerable", nativeFunction "propertyIsEnumerable");
    (lit "toString", nativeFunction "toString");
    (lit "valueOf", nativeFunction "valueOf");
    (lit "__proto__", JObj []);
    (lit "toLocaleString", nativeFunction "toLocaleString") ].

(** [k] names a member that a plain object inherits. *)
Definition inherited (k : jsstring) : bool :=
  match getOwn OBJECT_PROTOTYPE k with Some _ => true | None => false end.

(** [o[k]] on a plain object: its own property [k], or else the one it
    inherits, or else [undefined]. *)
Definition get (o : obj) (k : jsstring) : jsval :=
  match getOwn o k with
  | Some v => v
  | None =>
    match getOwn OBJECT_PROTOTYPE k with
    | Some v => v
    | None => JUndefined
    end
  end.

(** [Object.keys(o)]. *)
Definition keys (o : obj) : list jsstring := map fst o.

(* ================================================================= *)
(** ** Exceptions *)

Inductive result (A : Type) : Type :=
| Ok (a : A)
| TypeError.

Arguments Ok {A} a.
Arguments TypeError {A}.

Definition bind {A B : Type} (r : result A) (f : A -> result B) : result B :=
  match r with
  | Ok a => f a
  | TypeError => TypeError
  end.

Definition fmap {A B : Type} (f : A -> B) (r : result A) : result B :=
  bind r (fun a => Ok (f a)).

Notation "x <- r ;; k" := (bind r (fun x => k))
  (at level 61, r at next level, right associativity).

Fixpoint mapM {A B : Type} (f : A -> result B) (l : list A) : result (list B) :=
  match l with
  | [] => Ok []
  | a :: l' => b <- f a ;; bs <- mapM f l' ;; Ok (b :: bs)
  end.

(** [String(v)], with the exception it can throw. *)
Definition String_ (v : jsval) : result jsstring :=
  if displayable v then Ok (toString v) else TypeError.

(** [v[k]] on any value, for a key [k] that names no property of strings,
    numbers, booleans or arrays (the keys read from line items are such). *)
Definition getProp (v : jsval) (k : jsstring) : result jsval :=
  match v with
  | JUndefined | JNull => TypeError
  | JObj fields => Ok (get fields k)
  | _ => Ok JUndefined
  end.

(* ================================================================= *)
(** ** [escHtml] (the same function in both files) *)

Definition escHtml (str : jsval) : jsstring :=
  replaceChar QUOT (lit "&quot;")
    (replaceChar GT (lit "&gt;")
       (replaceChar LT (lit "&lt;")
          (replaceChar AMP (lit "&amp;") (toString str)))).

(* ================================================================= *)
(** ** [String.prototype.replace] with a global pattern and a callback *)

Section Replace.

(** [matchAt s] matches the pattern at the start of [s] and gives the
    captured groups and what follows the match. *)
Variable G : Type.
Variable matchAt : jsstring -> option (G * jsstring).
Variable callback : G -> result jsstring.

(** Matches are taken left to right; after a match the scan resumes
    behind it, and where the pattern does not match the code unit is
    copied.  Every match is at least one code unit long, so [length s]
    steps are enough ([replaceAll_eq] below). *)
Fixpoint replaceLoop (fuel : nat) (s : jsstring) : result jsstring :=
  match s with
  | [] => Ok []
  | c :: s' =>
    match fuel with
    | O => Ok []
    | S fuel' =>
      match matchAt s with
      | Some (g, rest) =>
        r <- callback g ;;
        out <- replaceLoop fuel' rest ;;
        Ok (r ++ out)
      | None =>
        out <- replaceLoop fuel' s' ;;
        Ok (c :: out)
      end
    end
  end.

Definition replaceAll (s : jsstring) : result jsstring :=
  replaceLoop (length s) s.

End Replace.

(* ================================================================= *)
(** ** The two passes of the renderer *)

(** [/\{\{#([^}]+)\}\}([\s\S]*?)\{\{\/\1\}\}/] at the start of [s]: the
    groups [(key, content)] and the rest.  After [{{#] the greedy
    [[^}]+] can only stop at the first [}], since what follows it must be
    [}}]; the lazy [[\s\S]*?] stops at the first occurrence of the closing
    tag that repeats the key. *)
Definition matchConditional (s : jsstring)
  : option ((jsstring * jsstring) * jsstring) :=
  match stripPrefix (lit "{{#") s with
  | None => None
  | Some s1 =>
    let (key, s2) := spanNot RBRACE s1 in
    if isEmpty key then None
    else
      match stripPrefix (lit "}}") s2 with
      | None => None
      | Some s3 =>
        match findFirst (lit "{{/" ++ key ++ lit "}}") s3 with
        | None => None
        | Some (content, rest) => Some ((key, content), rest)
        end
      end
  end.

(** [/\{\{([^}]+)\}\}/] at the start of [s]: the group [key] and the rest. *)
Definition matchPlaceholder (s : jsstring) : option (jsstring * jsstring) :=
  match stripPrefix (lit "{{") s with
  | None => None
  | Some s1 =>
    let (key, s2) := spanNot RBRACE s1 in
    if isEmpty key then None
    else
      match stripPrefix (lit "}}") s2 with
      | None => None
      | Some rest => Some (key, rest)
      end
  end.

Definition LINE_ITEMS_TABLE : jsstring := lit "LINE_ITEMS_TABLE".
Definition PRINT_DATE : jsstring := lit "PRINT_DATE".

Section Render.

(** The passes are the same text in [renderOrderForPrint] and
    [renderPreview]; each file calls its own [buildLineItemsTable]. *)
Variable buildLineItemsTable : obj -> result jsstring.
Variable today : jsstring.

(** [(_, key, content) => { const val = order[key.trim()];
      return (val && String(val).trim()) ? content : ''; }] *)
Definition conditionalValue (order : obj) (g : jsstring * jsstring)
  : jsstring :=
  let (key, content) := g in
  let val := get order (trim key) in
  if truthy (jsAnd val (trim (toString val))) then content else [].

Definition resolveConditionals (order : obj) (html : jsstring)
  : result jsstring :=
  replaceAll matchConditional (fun g => Ok (conditionalValue order g)) html.

(** [(_, key) => { const k = key.trim(); ... }] *)
Definition placeholderValue (order : obj) (key : jsstring)
  : result jsstring :=
  let k := trim key in
  if str_eqb k LINE_ITEMS_TABLE then buildLineItemsTable order
  else if str_eqb k PRINT_DATE then Ok today
  else Ok (escHtml (JStr (toString (nullish (get order k) (JStr []))))).

Definition replacePlaceholders (order : obj) (html : jsstring)
  : result jsstring :=
  replaceAll matchPlaceholder (placeholderValue order) html.

(** The variable [html] after both passes. *)
Definition renderTemplate (template : jsstring) (order : obj)
  : result jsstring :=
  html <- resolveConditionals order template ;;
  replacePlaceholders order html.

End Render.

Definition isArray (v : jsval) : bool :=
  match v with JArr _ => true | _ => false end.

Definition elements (v : jsval) : list jsval :=
  match v with JArr l => l | _ => [] end.

(* ================================================================= *)
(** ** The renderer as a computation on the order *)

(** The order is an object of the caller.  A computation on it takes the
    object and gives it back, as it is when the computation ends, with its
    result.  The renderer has one operation on the order, the read of a
    property; the passes and the callbacks below are those of [Render],
    written with the order threaded through them. *)
Definition onOrder (A : Type) : Type := obj -> result (A * obj).

Definition unit_ {A : Type} (a : A) : onOrder A := fun o => Ok (a, o).

Definition bind_ {A B : Type} (m : onOrder A) (f : A -> onOrder B)
  : onOrder B :=
  fun o => match m o with
           | Ok (a, o') => f a o'
           | TypeError => TypeError
           end.

(** A computation that does not touch the order. *)
Definition lift {A : Type} (r : result A) : onOrder A :=
  fun o => fmap (fun a => (a, o)) r.

(** [order[k]]. *)
Definition readProperty (k : jsstring) : onOrder jsval :=
  fun o => Ok (get o k, o).

Section ReplaceOnOrder.

Variable G : Type.
Variable matchAt : jsstring -> option (G * jsstring).
Variable callback : G -> onOrder jsstring.

Fixpoint replaceLoopOnOrder (fuel : nat) (s : jsstring) : onOrder jsstring :=
  match s with
  | [] => unit_ []
  | c :: s' =>
    match fuel with
    | O => unit_ []
    | S fuel' =>
      match matchAt s with
      | Some (g, rest) =>
        bind_ (callback g) (fun r =>
        bind_ (replaceLoopOnOrder fuel' rest) (fun out =>
        unit_ (r ++ out)))
      | None =>
        bind_ (replaceLoopOnOrder fuel' s') (fun out => unit_ (c :: out))
      end
    end
  end.

Definition replaceAllOnOrder (s : jsstring) : onOrder jsstring :=
  replaceLoopOnOrder (length s) s.

End ReplaceOnOrder.

Section RenderOnOrder.

Variable buildLineItemsTable : onOrder jsstring.
Variable today : jsstring.

Definition conditionalValueOnOrder (g : jsstring * jsstring)
  : onOrder jsstring :=
  let (key, content) := g in
  bind_ (readProperty (trim key)) (fun val =>
  unit_ (if truthy (jsAnd val (trim (toString val))) then content else [])).

Definition placeholderValueOnOrder (key : jsstring) : onOrder jsstring :=
  let k := trim key in
  if str_eqb k LINE_ITEMS_TABLE then buildLineItemsTable
  else if str_eqb k PRINT_DATE then unit_ today
  else bind_ (readProperty k) (fun v =>
       unit_ (escHtml (JStr (toString (nullish v (JStr [])))))).

Definition renderTemplateOnOrder (template : jsstring) : onOrder jsstring :=
  bind_ (replaceAllOnOrder matchConditional conditionalValueOnOrder template)
        (fun html =>
           replaceAllOnOrder matchPlaceholder placeholderValueOnOrder html).

End RenderOnOrder.

(* ================================================================= *)
(** ** More of the JavaScript library: comparison, [Set], [localStorage] *)

(** [a < b] on strings: the first differing code unit decides, and a
    proper prefix is smaller. *)
Fixpoint str_ltb (a b : jsstring) : bool :=
  match a, b with
  | _, [] => false
  | [], _ :: _ => true
  | x :: a', y :: b' => (x <? y)%N || ((x =? y)%N && str_ltb a' b')
  end.

(** [a >= b] and [a <= b] on strings. *)
Definition str_geb (a b : jsstring) : bool := negb (str_ltb a b).
Definition str_leb (a b : jsstring) : bool := negb (str_ltb b a).

(** [\d] *)
Definition isDigit (c : N) : bool := ((48 <=? c) && (c <=? 57))%N.

(** The longest prefix of [s] made of digits, and the rest. *)
Fixpoint spanDigits (s : jsstring) : jsstring * jsstring :=
  match s with
  | [] => ([], [])
  | x :: s' =>
    if isDigit x
    then let (run, rest) := spanDigits s' in (x :: run, rest)
    else ([], s)
  end.

(** [s.padStart(2, '0')] *)
Definition padStart2 (s : jsstring) : jsstring :=
  match s with
  | [] => lit "00"
  | [c] => lit "0" ++ [c]
  | _ => s
  end.

(** The number of closing braces in [s]. *)
Definition closers (s : jsstring) : nat := count_occ N.eq_dec s RBRACE.

(** A [Set] of strings: its members in insertion order, each once. *)
Definition idset := list jsstring.

Definition setHas (s : idset) (x : jsstring) : bool :=
  existsb (str_eqb x) s.

Definition setAdd (s : idset) (x : jsstring) : idset :=
  if setHas s x then s else s ++ [x].

Definition setDelete (s : idset) (x : jsstring) : idset :=
  filter (fun y => negb (str_eqb y x)) s.

(** [new Set(l)] *)
Definition setOf (l : list jsstring) : idset := fold_left setAdd l [].

(** [localStorage]: names with the strings stored under them. *)
Definition storage := list (jsstring * jsstring).

Fixpoint getItem (ls : storage) (k : jsstring) : option jsstring :=
  match ls with
  | [] => None
  | (k', v) :: ls' => if str_eqb k' k then Some v else getItem ls' k
  end.

Fixpoint setItem (ls : storage) (k v : jsstring) : storage :=
  match ls with
  | [] => [(k, v)]
  | (k', v') :: ls' =>
    if str_eqb k' k then (k', v) :: ls' else (k', v') :: setItem ls' k v
  end.

Definition removeItem (ls : storage) (k : jsstring) : storage :=
  filter (fun kv => negb (str_eqb (fst kv) k)) ls.

(** [Array.prototype.filter] with a callback that may throw. *)
Fixpoint filterM {A : Type} (p : A -> result bool) (l : list A)
  : result (list A) :=
  match l with
  | [] => Ok []
  | a :: l' =>
    keep <- p a ;;
    rest <- filterM p l' ;;
    Ok (if keep then a :: rest else rest)
  end.

(* ================================================================= *)
(** ** [app.js]: the print path *)

Module App.

Definition DEFAULT_TEMPLATE : jsstring :=
  lines [
    text "<!-- ═══ PACKING SLIP (top half) ═══ -->";
    text "<div class=" ++ dq "slip-half" ++ text ">";
    text "  <div class=" ++ dq "slip-title" ++ text ">Packing Slip</div>";
    text "  <div class=" ++ dq "slip-header" ++ text ">";
    text "    <div>";
    text "      <div class=" ++ dq "slip-order-id" ++ text ">{{OrderID}}</div>";
    text "      <h2 class=" ++ dq "slip-customer" ++ text ">{{Order Name}}</h2>";
    text "    </div>";
    text "    <span class=" ++ dq "slip-count" ++ text ">{{Order Count}}</span>";
    text "  </div>";
    text "  <div class=" ++ dq "slip-meta" ++ text ">";
    text "    <div><strong>Due Date:</strong> {{Due Pickup Date}}</div>";
    text "    <div><strong>Due Time:</strong> {{Due Pickup Time}}</div>";
    text "    <div><strong>Number:</strong> {{PhoneNumber}}</div>";
    text "  </div>";
    text "  {{LINE_ITEMS_TABLE}}";
    text "</div>";
    [];
    text "<hr class=" ++ dq "slip-divider" ++ text ">";
    [];
    text "<!-- ═══ BAKERY SHEET (bottom half) ═══ -->";
    text "<div class=" ++ dq "slip-half" ++ text ">";
    text "  <div class=" ++ dq "slip-title" ++ text ">Bakery Sheet</div>";
    text "  <div class=" ++ dq "slip-header" ++ text ">";
    text "    <div>";
    text "      <div class=" ++ dq "slip-order-id" ++ text ">{{OrderID}}</div>";
    text "      <h2 class=" ++ dq "slip-customer" ++ text ">{{Order Name}}</h2>";
    text "    </div>";
    text "    <span class=" ++ dq "slip-count" ++ text ">{{Order Count}}</span>";
    text "  </div>";
    text "  <div class=" ++ dq "slip-meta" ++ text ">";
    text "    <div><strong>Due Date:</strong> {{Due Pickup Date}}</div>";
    text "    <div><strong>Due Time:</strong> {{Due Pickup Time}}</div>";
    text "    <div><strong>Number:</strong> {{PhoneNumber}}</div>";
    text "  </div>";
    text "  {{LINE_ITEMS_TABLE}}";
    text "</div>" ].

(** [localStorage.getItem('orderPrintTemplate') || DEFAULT_TEMPLATE];
    [stored] is what the storage holds under that name. *)
Definition getTemplate (stored : option jsstring) : jsstring :=
  match stored with
  | Some s => if isEmpty s then DEFAULT_TEMPLATE else s
  | None => DEFAULT_TEMPLATE
  end.

Definition NO_LINE_ITEMS : jsstring :=
  lit "<p style=" ++ dq "color:#666;font-style:italic;font-size:10pt;"
    ++ lit ">No line items.</p>".

(** The returned template literal around [rows]. *)
Definition TABLE_HEAD : jsstring :=
  lines [
    lit "<table class=" ++ dq "slip-items-table" ++ lit ">";
    lit "    <thead>";
    lit "      <tr>";
    lit "        <th class=" ++ dq "slip-check-cell" ++ lit "></th>";
    lit "        <th class=" ++ dq "slip-detail-cell" ++ lit ">Order Details</th>";
    lit "        <th class=" ++ dq "slip-qty-cell" ++ lit ">Qty</th>";
    lit "      </tr>";
    lit "    </thead>";
    lit "    <tbody>" ].

Definition TABLE_TAIL : jsstring :=
  lines [ lit "</tbody>"; lit "  </table>" ].

(** [v ? `<div class="slip-sub">LABEL${escHtml(v)}</div>` : ''] *)
Definition subLine (label : string) (v : jsval) : jsstring :=
  if truthy v
  then lit "<div class=" ++ dq "slip-sub" ++ lit ">" ++ lit label
         ++ escHtml v ++ lit "</div>"
  else [].

Definition rowMarkup (detail qty : jsstring) : jsstring :=
  lines [
    lit "<tr>";
    lit "      <td class=" ++ dq "slip-check-cell" ++ lit "></td>";
    lit "      <td class=" ++ dq "slip-detail-cell" ++ lit ">" ++ detail ++ lit "</td>";
    lit "      <td class=" ++ dq "slip-qty-cell" ++ lit ">" ++ qty ++ lit "</td>";
    lit "    </tr>" ].

(** The callback of [items.map].  Each property of [item] is read once
    here; the source reads the sub-detail ones twice, with the same
    outcome. *)
Definition lineItemRow (item : jsval) : result jsstring :=
  pd <- getProp item (lit "Product Description") ;;
  let product := escHtml (JStr (toString (jsOr pd (JStr [])))) in
  wn <- getProp item (lit "Writing Notes") ;;
  co <- getProp item (lit "Color") ;;
  ao <- getProp item (lit "Add-Ons") ;;
  ln <- getProp item (lit "Line Item Notes") ;;
  let subLines :=
    joinWith [] [ subLine "Writing: " wn; subLine "Color: " co;
                  subLine "Add-Ons: " ao; subLine "Notes: " ln ] in
  cq <- getProp item (lit "CakeQty") ;;
  let qty := escHtml (JStr (toString (jsOr cq (JStr [])))) in
  Ok (rowMarkup (product ++ subLines) qty).

Definition buildLineItemsTable (order : obj) : result jsstring :=
  let items := get order (lit "Line Items") in
  if negb (truthy items) || negb (isArray items)
     || (List.length (elements items) =? 0)
  then Ok NO_LINE_ITEMS
  else
    rows <- mapM lineItemRow (elements items) ;;
    Ok (TABLE_HEAD ++ joinWith [] rows ++ TABLE_TAIL).

Definition renderOrderForPrint (stored : option jsstring) (today : jsstring)
    (order : obj) : result jsstring :=
  html <- renderTemplate buildLineItemsTable today (getTemplate stored) order ;;
  Ok (lit "<div class=" ++ dq "print-order" ++ lit ">" ++ html ++ lit "</div>").

(** The same two functions as computations on the order: the table
    builder reads [order['Line Items']] and works on the value read. *)
Definition buildLineItemsTableOnOrder : onOrder jsstring :=
  bind_ (readProperty (lit "Line Items")) (fun items =>
  if negb (truthy items) || negb (isArray items)
     || (List.length (elements items) =? 0)
  then unit_ NO_LINE_ITEMS
  else
    lift (rows <- mapM lineItemRow (elements items) ;;
          Ok (TABLE_HEAD ++ joinWith [] rows ++ TABLE_TAIL))).

Definition renderOrderForPrintOnOrder (stored : option jsstring)
    (today : jsstring) : onOrder jsstring :=
  bind_ (renderTemplateOnOrder buildLineItemsTableOnOrder today
           (getTemplate stored))
        (fun html =>
           unit_ (lit "<div class=" ++ dq "print-order" ++ lit ">" ++ html
                    ++ lit "</div>")).

(** *** The orders list: dates, filters, selection, printing *)

(** The name under which both pages keep the template. *)
Definition TEMPLATE_KEY : jsstring := lit "orderPrintTemplate".

(** [getTemplate] reading the storage itself. *)
Definition getStoredTemplate (ls : storage) : jsstring :=
  getTemplate (getItem ls TEMPLATE_KEY).

(** [/^(\d{1,2})\/(\d{1,2})\/(\d{4})$/] on [s]: the three groups.  What
    must follow each group is not a digit, so a group is a whole run of
    digits; the pattern has no [m] flag, so [$] is the end of [s]. *)
Definition matchUSDate (s : jsstring)
  : option (jsstring * jsstring * jsstring) :=
  let (m, s1) := spanDigits s in
  if (1 <=? List.length m) && (List.length m <=? 2) then
    match stripPrefix (lit "/") s1 with
    | None => None
    | Some s2 =>
      let (d, s3) := spanDigits s2 in
      if (1 <=? List.length d) && (List.length d <=? 2) then
        match stripPrefix (lit "/") s3 with
        | None => None
        | Some s4 =>
          let (y, s5) := spanDigits s4 in
          if (List.length y =? 4) && isEmpty s5 then Some (m, d, y)
          else None
        end
      else None
    end
  else None.

(** [toISODate(dateStr)].  A value that is not a string and counts as
    true has no [match] method: calling it throws. *)
Definition toISODate (dateStr : jsval) : result jsstring :=
  if negb (truthy dateStr) then Ok []
  else
    match dateStr with
    | JStr s =>
      match matchUSDate s with
      | Some (m, d, y) =>
        Ok (y ++ lit "-" ++ padStart2 m ++ lit "-" ++ padStart2 d)
      | None => Ok s
      end
    | _ => TypeError
    end.

(** The filter controls: the [value] of each input, and whether the
    chip's [dataset.active] is ['true']. *)
Record filters : Type := {
  dateFrom : jsstring;
  dateTo : jsstring;
  orderDateFrom : jsstring;
  orderDateTo : jsstring;
  statusSelect : jsstring;
  orderTypeSelect : jsstring;
  chipLocalDelivery : bool;
  customerSearch : jsstring
}.

Definition LOCAL_DELIVERY_TYPES : list jsstring :=
  [ lit "Delivery"; lit "Local Delivery Order" ].

(** [v === s] for a string [s]. *)
Definition strictEquals (v : jsval) (s : jsstring) : bool :=
  match v with
  | JStr t => str_eqb t s
  | _ => false
  end.

(** [(!from || d >= from) && (!to || d <= to)] *)
Definition dateInRange (from to d : jsstring) : bool :=
  (isEmpty from || str_geb d from) && (isEmpty to || str_leb d to).

(** [String(o._RowNumber)], the id of an order in [selectedIds]. *)
Definition rowId (o : obj) : jsstring := toString (get o (lit "_RowNumber")).

Section Filters.

(** [String.prototype.toLowerCase], which follows the Unicode tables. *)
Variable toLowerCase : jsstring -> jsstring.

(** [v.toLowerCase()]: only a string has the method. *)
Definition lowerCase (v : jsval) : result jsstring :=
  match v with
  | JStr s => Ok (toLowerCase s)
  | _ => TypeError
  end.

(** The callback of [allOrders.filter] in [applyFilters]. *)
Definition orderMatches (f : filters) (order : obj) : result bool :=
  let customerQ := trim (toLowerCase (customerSearch f)) in
  let usePickup := negb (isEmpty (dateFrom f)) || negb (isEmpty (dateTo f)) in
  let useOrder :=
    negb (isEmpty (orderDateFrom f)) || negb (isEmpty (orderDateTo f)) in
  name <- lowerCase (jsOr (jsOr (get order (lit "Order Name"))
                                (get order (lit "Customer Name")))
                          (JStr [])) ;;
  dateMatch <-
    (if usePickup then
       d <- toISODate (jsOr (get order (lit "Due Pickup Date")) (JStr [])) ;;
       Ok (dateInRange (dateFrom f) (dateTo f) d)
     else if useOrder then
       d <- toISODate (jsOr (get order (lit "Order Date")) (JStr [])) ;;
       Ok (dateInRange (orderDateFrom f) (orderDateTo f) d)
     else Ok true) ;;
  let typeMatch :=
    if chipLocalDelivery f
    then existsb (strictEquals (get order (lit "Order Type")))
                 LOCAL_DELIVERY_TYPES
    else if negb (isEmpty (orderTypeSelect f))
    then strictEquals (get order (lit "Order Type")) (orderTypeSelect f)
    else true in
  Ok (dateMatch && typeMatch
      && (isEmpty (statusSelect f)
          || strictEquals (get order (lit "Status")) (statusSelect f))
      && (isEmpty customerQ || includes customerQ name)).

(** The first two steps of [applyFilters]: the new [filteredOrders], as
    it is before [sortOrders] reorders it, and the new [selectedIds].  The
    function goes on to [sortOrders()] and [renderOrders()], which are not
    part of this definition and can throw on their own: [Ok] says that
    these two steps are done, not that the call returns. *)
Definition applyFilters (f : filters) (allOrders : list obj)
    (selectedIds : idset) : result (list obj * idset) :=
  filteredOrders <- filterM (orderMatches f) allOrders ;;
  let filteredIds := setOf (map rowId filteredOrders) in
  Ok (filteredOrders, filter (fun id => setHas filteredIds id) selectedIds).

End Filters.

Definition countActiveFilters (f : filters) : nat :=
  (if isEmpty (dateFrom f) then 0 else 1)
  + (if isEmpty (dateTo f) then 0 else 1)
  + (if isEmpty (orderDateFrom f) then 0 else 1)
  + (if isEmpty (orderDateTo f) then 0 else 1)
  + (if isEmpty (statusSelect f) then 0 else 1)
  + (if isEmpty (orderTypeSelect f) then 0 else 1)
  + (if chipLocalDelivery f then 1 else 0)
  + (if isEmpty (trim (customerSearch f)) then 0 else 1).

(** The controls as [clearFilters] leaves them. *)
Definition clearFilters : filters :=
  {| dateFrom := []; dateTo := []; orderDateFrom := []; orderDateTo := [];
     statusSelect := []; orderTypeSelect := []; chipLocalDelivery := false;
     customerSearch := [] |}.

(** [selectedIds] after [toggleSelect(id)]. *)
Definition toggleSelect (id : jsstring) (selectedIds : idset) : idset :=
  if setHas selectedIds id then setDelete selectedIds id
  else setAdd selectedIds id.

(** [selectedIds] after [selectAll()]. *)
Definition selectAll (filteredOrders : list obj) (selectedIds : idset)
  : idset :=
  if forallb (fun o => setHas selectedIds (rowId o)) filteredOrders
  then fold_left (fun s o => setDelete s (rowId o)) filteredOrders selectedIds
  else fold_left (fun s o => setAdd s (rowId o)) filteredOrders selectedIds.

(** [printSelected]: what is given to [printContainer.innerHTML], or
    [None] when the function returns before touching it. *)
Definition printSelected (ls : storage) (today : jsstring)
    (allOrders : list obj) (selectedIds : idset)
  : result (option jsstring) :=
  let ordersToprint :=
    filter (fun o => setHas selectedIds (rowId o)) allOrders in
  if List.length ordersToprint =? 0 then Ok None
  else
    htmls <- mapM (renderOrderForPrint (getItem ls TEMPLATE_KEY) today)
                  ordersToprint ;;
    Ok (Some (joinWith [] htmls)).

(** The row of one line item on an order card. *)
Definition summaryRow (product notes qty : jsstring) : jsstring :=
  lines [
    lit "<div class=" ++ dq "card-item-row" ++ lit ">";
    lit "      <span class=" ++ dq "card-item-name" ++ lit ">";
    lit "        " ++ product;
    lit "        " ++ notes;
    lit "      </span>";
    lit "      <span class=" ++ dq "card-item-qty" ++ lit ">" ++ text "×"
      ++ qty ++ lit "</span>";
    lit "    </div>" ].

Definition itemSummaryRow (item : jsval) : result jsstring :=
  pd <- getProp item (lit "Product Description") ;;
  let product := jsOr pd (JStr []) in
  cq <- getProp item (lit "CakeQty") ;;
  let qty := jsOr cq (JStr []) in
  wn <- getProp item (lit "Writing Notes") ;;
  co <- getProp item (lit "Color") ;;
  ao <- getProp item (lit "Add-Ons") ;;
  ln <- getProp item (lit "Line Item Notes") ;;
  let notes :=
    joinWith (text " · ") (map toString (filter truthy [wn; co; ao; ln])) in
  Ok (summaryRow
        (escHtml (JStr (toString product)))
        (if isEmpty notes then []
         else lit "<span class=" ++ dq "card-item-notes" ++ lit ">"
                ++ escHtml (JStr notes) ++ lit "</span>")
        (escHtml (JStr (toString qty)))).

Definition buildItemsSummary (order : obj) : result jsstring :=
  let items := get order (lit "Line Items") in
  if negb (truthy items) || negb (isArray items)
     || (List.length (elements items) =? 0)
  then Ok []
  else
    rows <- mapM itemSummaryRow (elements items) ;;
    Ok (lit "<div class=" ++ dq "card-items" ++ lit ">" ++ joinWith [] rows
          ++ lit "</div>").

(** [allOrders.find(o => String(o._RowNumber) === String(id))] *)
Definition findOrder (allOrders : list obj) (id : jsval) : option obj :=
  find (fun o => str_eqb (rowId o) (toString id)) allOrders.

(** The click handler of [modalPrintBtn]: what is given to
    [printContainer.innerHTML], or [None] when the handler returns
    before. *)
Definition modalPrint (ls : storage) (today : jsstring)
    (allOrders : list obj) (modalCurrentId : jsval)
  : result (option jsstring) :=
  if negb (truthy modalCurrentId) then Ok None
  else
    match findOrder allOrders modalCurrentId with
    | None => Ok None
    | Some order =>
      html <- renderOrderForPrint (getItem ls TEMPLATE_KEY) today order ;;
      Ok (Some html)
    end.

(** [closeOrderModal]: the new [modalCurrentId], and the card that takes
    the focus, given the [data-id] of the cards of the list; the card is
    looked up after [modalCurrentId] is set to [null]. *)
Definition closeOrderModal (modalCurrentId : jsval) (cards : list jsstring)
  : jsval * option jsstring :=
  let modalCurrentId := JNull in
  (modalCurrentId, find (str_eqb (toString modalCurrentId)) cards).

(** Membership in a [Set] of values read from different orders: two
    objects or arrays are never the same, a built-in function is the same
    wherever it is read. *)
Definition sameValueZero (a b : jsval) : bool :=
  match a, b with
  | JUndefined, JUndefined => true
  | JNull, JNull => true
  | JBool x, JBool y => Bool.eqb x y
  | JNumber x, JNumber y => str_eqb x y
  | JStr x, JStr y => str_eqb x y
  | JFun x, JFun y => str_eqb x y
  | _, _ => false
  end.

Definition valueSetAdd (s : list jsval) (v : jsval) : list jsval :=
  if existsb (sameValueZero v) s then s else s ++ [v].

(** [Array.prototype.sort] without a comparator: by display string, in
    the order of the code units, values of the same display string
    keeping their order. *)
Fixpoint insertSorted (x : jsval) (l : list jsval) : list jsval :=
  match l with
  | [] => [x]
  | y :: l' =>
    if str_ltb (toString y) (toString x) then y :: insertSorted x l'
    else x :: l
  end.

Definition defaultSort (l : list jsval) : list jsval :=
  fold_right insertSorted [] l.

(** [[...new Set(allOrders.map(o => o[field]).filter(Boolean))].sort()] *)
Definition distinctValues (field : jsstring) (allOrders : list obj)
  : list jsval :=
  defaultSort
    (fold_left valueSetAdd
       (filter truthy (map (fun o => get o field) allOrders)) []).

(** The options that [populateStatusFilter] and
    [populateOrderTypeFilter] add after the first, empty one. *)
Definition populateStatusFilter (allOrders : list obj) : list jsval :=
  distinctValues (lit "Status") allOrders.

Definition populateOrderTypeFilter (allOrders : list obj) : list jsval :=
  distinctValues (lit "Order Type") allOrders.

End App.

(* ================================================================= *)
(** ** [designer.js]: the template designer *)

Module Designer.

Definition DEFAULT_TEMPLATE : jsstring :=
  lines [
    text "<!-- ═══ PACKING SLIP (top half) ═══ -->";
    text "<div class=" ++ dq "slip-half" ++ text ">";
    text "  <div class=" ++ dq "slip-title" ++ text ">Packing Slip</div>";
    text "  <div class=" ++ dq "slip-header" ++ text ">";
    text "    <div>";
    text "      <div class=" ++ dq "slip-order-id" ++ text ">{{OrderID}}</div>";
    text "      <h2 class=" ++ dq "slip-customer" ++ text ">{{Order Name}}</h2>";
    text "    </div>";
    text "    <span class=" ++ dq "slip-count" ++ text ">{{Order Count}}</span>";
    text "  </div>";
    text "  <div class=" ++ dq "slip-meta" ++ text ">";
    text "    <div><strong>Due Date:</strong> {{Due Pickup Date}}</div>";
    text "    <div><strong>Due Time:</strong> {{Due Pickup Time}}</div>";
    text "    <div><strong>Number:</strong> {{PhoneNumber}}</div>";
    text "  </div>";
    text "  {{LINE_ITEMS_TABLE}}";
    text "</div>";
    [];
    text "<hr class=" ++ dq "slip-divider" ++ text ">";
    [];
    text "<!-- ═══ BAKERY SHEET (bottom half) ═══ -->";
    text "<div class=" ++ dq "slip-half" ++ text ">";
    text "  <div class=" ++ dq "slip-title" ++ text ">Bakery Sheet</div>";
    text "  <div class=" ++ dq "slip-header" ++ text ">";
    text "    <div>";
    text "      <div class=" ++ dq "slip-order-id" ++ text ">{{OrderID}}</div>";
    text "      <h2 class=" ++ dq "slip-customer" ++ text ">{{Order Name}}</h2>";
    text "    </div>";
    text "    <span class=" ++ dq "slip-count" ++ text ">{{Order Count}}</span>";
    text "  </div>";
    text "  <div class=" ++ dq "slip-meta" ++ text ">";
    text "    <div><strong>Due Date:</strong> {{Due Pickup Date}}</div>";
    text "    <div><strong>Due Time:</strong> {{Due Pickup Time}}</div>";
    text "    <div><strong>Number:</strong> {{PhoneNumber}}</div>";
    text "  </div>";
    text "  {{LINE_ITEMS_TABLE}}";
    text "</div>" ].

Definition NO_LINE_ITEMS : jsstring :=
  lit "<p style=" ++ dq "color:#666;font-style:italic;font-size:10pt;"
    ++ lit ">No line items.</p>".

(** The returned template literal around [rows]. *)
Definition TABLE_HEAD : jsstring :=
  lines [
    lit "<table class=" ++ dq "slip-items-table" ++ lit ">";
    lit "    <thead>";
    lit "      <tr>";
    lit "        <th class=" ++ dq "slip-check-cell" ++ lit "></th>";
    lit "        <th class=" ++ dq "slip-detail-cell" ++ lit ">Order Details</th>";
    lit "        <th class=" ++ dq "slip-qty-cell" ++ lit ">Qty</th>";
    lit "      </tr>";
    lit "    </thead>";
    lit "    <tbody>" ].

Definition TABLE_TAIL : jsstring :=
  lines [ lit "</tbody>"; lit "  </table>" ].

Definition rowMarkup (detail qty : jsstring) : jsstring :=
  lines [
    lit "<tr>";
    lit "      <td class=" ++ dq "slip-check-cell" ++ lit "></td>";
    lit "      <td class=" ++ dq "slip-detail-cell" ++ lit ">" ++ detail ++ lit "</td>";
    lit "      <td class=" ++ dq "slip-qty-cell" ++ lit ">" ++ qty ++ lit "</td>";
    lit "    </tr>" ].

Definition lineItemRow (item : jsval) : result jsstring :=
  pn <- getProp item (lit "Product Name") ;;
  pr <- getProp item (lit "Product") ;;
  it <- getProp item (lit "Item") ;;
  od <- getProp item (lit "Order Details") ;;
  de <- getProp item (lit "Description") ;;
  let product := jsOr (jsOr (jsOr (jsOr (jsOr pn pr) it) od) de) (JStr []) in
  q1 <- getProp item (lit "Qty") ;;
  q2 <- getProp item (lit "Quantity") ;;
  q3 <- getProp item (lit "QTY") ;;
  let qty := jsOr (jsOr (jsOr q1 q2) q3) (JStr []) in
  Ok (rowMarkup (escHtml (JStr (toString product)))
                (escHtml (JStr (toString qty)))).

Definition buildLineItemsTable (order : obj) : result jsstring :=
  let items := get order (lit "Line Items") in
  if negb (truthy items) || negb (isArray items)
     || (List.length (elements items) =? 0)
  then Ok NO_LINE_ITEMS
  else
    rows <- mapM lineItemRow (elements items) ;;
    Ok (TABLE_HEAD ++ joinWith [] rows ++ TABLE_TAIL).

Definition getSampleOrderFallback : obj :=
  [ (lit "_RowNumber", JNum 1);
    (lit "Order Number", JStr (lit "1001"));
    (lit "Customer Name", JStr (lit "Sample Customer"));
    (lit "Order Date", JStr (lit "2025-03-15"));
    (lit "Status", JStr (lit "Shipped"));
    (lit "Total", JStr (lit "$99.00"));
    (lit "Email", JStr (lit "sample@example.com"));
    (lit "Phone", JStr (lit "555-0100"));
    (lit "Shipping Address", JStr (lit "123 Sample St, Anytown, IL 00000"));
    (lit "Notes", JStr (lit "Sample notes"));
    (lit "Line Items",
     JArr [ JObj [ (lit "Product", JStr (lit "Sample Item"));
                   (lit "Qty", JNum 1);
                   (lit "Unit Price", JStr (lit "$99.00"));
                   (lit "Line Total", JStr (lit "$99.00")) ] ]) ].

(** [sampleOrder || getSampleOrderFallback()] *)
Definition currentOrder (sampleOrder : option obj) : obj :=
  match sampleOrder with
  | Some o => o
  | None => getSampleOrderFallback
  end.

(** The value given to [previewInner.innerHTML]; [template] is
    [editor.getValue()]. *)
Definition renderPreview (template : jsstring) (sampleOrder : option obj)
    (today : jsstring) : result jsstring :=
  html <- renderTemplate buildLineItemsTable today template
            (currentOrder sampleOrder) ;;
  Ok (lit "<div class=" ++ dq "print-order" ++ lit " style="
        ++ dq "padding:0;" ++ lit ">" ++ html ++ lit "</div>").

Record field : Type := { key : jsstring; note : jsstring }.

Definition specialFields : list field :=
  [ {| key := lit "LINE_ITEMS_TABLE";
       note := lit "Renders a table of line items" |};
    {| key := lit "PRINT_DATE";
       note := lit "Today's date at print time" |} ].

Definition orderFields (order : obj) : list field :=
  map (fun k => {| key := k;
                   note := slice0 40
                     (toString (nullish (get order k) (JStr []))) |})
      (filter (fun k => negb (str_eqb k (lit "Line Items"))) (keys order)).

(** The list [allFields] that [populateFieldsList] lays out in the
    fields modal. *)
Definition allFields (order : obj) : list field :=
  orderFields order ++ specialFields.

Definition populateFieldsList (sampleOrder : option obj) : list field :=
  allFields (currentOrder sampleOrder).

(** *** The editor and the stored template *)

Definition TEMPLATE_KEY : jsstring := lit "orderPrintTemplate".

(** The text [initEditor] gives the editor:
    [localStorage.getItem('orderPrintTemplate') || DEFAULT_TEMPLATE]. *)
Definition initEditor (ls : storage) : jsstring :=
  match getItem ls TEMPLATE_KEY with
  | Some saved => if isEmpty saved then DEFAULT_TEMPLATE else saved
  | None => DEFAULT_TEMPLATE
  end.

(** The storage after [saveTemplate]; [editorValue] is
    [editor.getValue()]. *)
Definition saveTemplate (editorValue : jsstring) (ls : storage) : storage :=
  setItem ls TEMPLATE_KEY editorValue.

(** The editor text and the storage after [resetTemplate]; [confirmed]
    is the answer to the [confirm] dialog. *)
Definition resetTemplate (confirmed : bool) (editorValue : jsstring)
    (ls : storage) : jsstring * storage :=
  if confirmed then (DEFAULT_TEMPLATE, removeItem ls TEMPLATE_KEY)
  else (editorValue, ls).

(** The placeholder of a catalog entry, [{{key}}]: what the fields list
    shows for it and what its Insert button stands for. *)
Definition insertedPlaceholder (f : field) : jsstring :=
  lit "{{" ++ key f ++ lit "}}".

End Designer.

(* ================================================================= *)
(** ** [api/orders.js]: the join of orders and line items *)

Module Api.

(** [String(v['OrderID'] || '')] *)
Definition orderKey (v : jsval) : result jsstring :=
  id <- getProp v (lit "OrderID") ;;
  String_ (jsOr id (JStr [])).

(** [itemsByOrder]: the arrays that the loop has created, under their
    keys.  The object is a plain one: under a name for which it holds no
    array it gives what it inherits. *)
Definition groups := list (jsstring * list jsval).

Fixpoint lookupGroup (g : groups) (k : jsstring) : option (list jsval) :=
  match g with
  | [] => None
  | (k', l) :: g' => if str_eqb k' k then Some l else lookupGroup g' k
  end.

(** [itemsByOrder[key]] *)
Definition readGroup (g : groups) (k : jsstring) : jsval :=
  match lookupGroup g k with
  | Some l => JArr l
  | None => get [] k
  end.

(** [itemsByOrder[key] = []] where there is no array yet, then [push]. *)
Fixpoint pushItem (g : groups) (k : jsstring) (item : jsval) : groups :=
  match g with
  | [] => [(k, [item])]
  | (k', l) :: g' =>
    if str_eqb k' k then (k', l ++ [item]) :: g'
    else (k', l) :: pushItem g' k item
  end.

(** [if (!itemsByOrder[key]) itemsByOrder[key] = [];
     itemsByOrder[key].push(item);]
    Under an inherited name the object gives a value that counts as true
    and has no method [push]: no array is created, and the call throws. *)
Definition fileItem (g : groups) (k : jsstring) (item : jsval)
  : result groups :=
  match readGroup g k with
  | JArr _ => Ok (pushItem g k item)
  | v => if truthy v then TypeError else Ok (pushItem g k item)
  end.

(** The body of [lineItems.forEach], from [itemsByOrder = g] on. *)
Fixpoint groupItems (g : groups) (lineItems : list jsval) : result groups :=
  match lineItems with
  | [] => Ok g
  | item :: rest =>
    key <- orderKey item ;;
    if isEmpty key then groupItems g rest
    else g' <- fileItem g key item ;; groupItems g' rest
  end.

(** The own properties of an array, under their indices. *)
Definition indexed (l : list jsval) : obj :=
  combine (map (fun i => numberToString (Z.of_nat i)) (seq 0 (List.length l)))
          l.

(** [{...v}] *)
Definition spread (v : jsval) : obj :=
  match v with
  | JObj fields => fields
  | JArr elems => indexed elems
  | JStr s => indexed (map (fun c => JStr [c]) s)
  | _ => []
  end.

(** [o[k] = v] on an object literal under construction. *)
Fixpoint setField (o : obj) (k : jsstring) (v : jsval) : obj :=
  match o with
  | [] => [(k, v)]
  | (k', v') :: o' =>
    if str_eqb k' k then (k', v) :: o' else (k', v') :: setField o' k v
  end.

(** The array that [itemsByOrder] holds under [k], if any. *)
Definition groupOf (g : groups) (k : jsstring) : list jsval :=
  match lookupGroup g k with
  | Some items => items
  | None => []
  end.

(** The callback of [orders.map]; [Line Items] is
    [itemsByOrder[key] || []]. *)
Definition attachItems (g : groups) (order : jsval) : result obj :=
  key <- orderKey order ;;
  Ok (setField (spread order) (lit "Line Items")
        (jsOr (readGroup g key) (JArr []))).

(** [ordersWithItems] from the two arrays that [appsheetFind] returned. *)
Definition ordersWithItems (orders lineItems : list jsval)
  : result (list obj) :=
  itemsByOrder <- groupItems [] lineItems ;;
  mapM (attachItems itemsByOrder) orders.

End Api.

(* ================================================================= *)
(** ** [server.js]: reading [.env.local] *)

Module Server.

Definition EQUALS : N := 61.

(** The code units that [.] does not match. *)
Definition isLineTerminator (c : N) : bool :=
  ((c =? 10) || (c =? 13) || (c =? 8232) || (c =? 8233))%N.

(** The longest prefix of [s] without [#] and [=], and the rest. *)
Fixpoint spanName (s : jsstring) : jsstring * jsstring :=
  match s with
  | [] => ([], [])
  | x :: s' =>
    if (x =? HASH)%N || (x =? EQUALS)%N then ([], s)
    else let (run, rest) := spanName s' in (x :: run, rest)
  end.

(** The pattern of [line.match] on [line], and its two groups: from the
    start, one or more code units other than [#] and [=] (the first
    group), then [=], then any code units that [.] matches (the second
    group), up to the end.  The first group is the whole run before the
    first [#] or [=], which must be a [=]; the pattern has no [m] or [s]
    flag, so the second group reaches the end of [line] and holds no line
    terminator. *)
Definition matchEnvLine (line : jsstring) : option (jsstring * jsstring) :=
  let (name, rest) := spanName line in
  if isEmpty name then None
  else
    match rest with
    | c :: value =>
      if (c =? EQUALS)%N && negb (existsb isLineTerminator value)
      then Some (name, value)
      else None
    | [] => None
    end.

(** [s.split('\n')] *)
Fixpoint splitLines (s : jsstring) : list jsstring :=
  match s with
  | [] => [[]]
  | c :: s' =>
    if (c =? NEWLINE)%N then [] :: splitLines s'
    else
      match splitLines s' with
      | line :: more => (c :: line) :: more
      | [] => [[c]]
      end
  end.

(** The assignments [process.env[name] = value] made while the file is
    read, in order. *)
Definition envAssignments (file : jsstring) : list (jsstring * jsstring) :=
  flat_map (fun line =>
              match matchEnvLine line with
              | Some (name, value) => [(trim name, trim value)]
              | None => []
              end)
           (splitLines file).

End Server.

(* ================================================================= *)
(** ** The statements of the specification, as functions *)

Module Stated.

(** The escaping rule, one code unit at a time. *)
Definition escapeChar (c : N) : jsstring :=
  if (c =? AMP)%N then lit "&amp;"
  else if (c =? LT)%N then lit "&lt;"
  else if (c =? GT)%N then lit "&gt;"
  else if (c =? QUOT)%N then lit "&quot;"
  else [c].

(** A value "exists and, converted to its display string, has
    non-white-space content". *)
Definition hasContent (v : jsval) : bool :=
  negb (isNullish v) && negb (isEmpty (trim (toString v))).

(** A conditional block is kept when [order[NAME]] has content. *)
Definition keepsBlock (order : obj) (name : jsstring) : bool :=
  hasContent (get order (trim name)).

(** "The first present, non-empty value" among candidate keys, as a
    display string; the empty string when there is none. *)
Fixpoint firstNonEmpty (item : obj) (candidates : list jsstring)
  : jsstring :=
  match candidates with
  | [] => []
  | k :: rest =>
    let v := get item k in
    if negb (isNullish v) && negb (isEmpty (toString v))
    then toString v
    else firstNonEmpty item rest
  end.

(** The first candidate whose value counts as true in a condition. *)
Fixpoint firstTruthy (item : obj) (candidates : list jsstring) : jsval :=
  match candidates with
  | [] => JStr []
  | k :: rest =>
    if truthy (get item k) then get item k else firstTruthy item rest
  end.

Definition PREVIEW_PRODUCT_KEYS : list jsstring :=
  [ lit "Product Name"; lit "Product"; lit "Item"; lit "Order Details";
    lit "Description" ].
Definition PREVIEW_QTY_KEYS : list jsstring :=
  [ lit "Qty"; lit "Quantity"; lit "QTY" ].
Definition PRINT_PRODUCT_KEYS : list jsstring := [ lit "Product Description" ].
Definition PRINT_QTY_KEYS : list jsstring := [ lit "CakeQty" ].

(** The sub-detail fields of the printed table with their labels. *)
Definition SUB_DETAILS : list (jsstring * string) :=
  [ (lit "Writing Notes", "Writing: "%string);
    (lit "Color", "Color: "%string);
    (lit "Add-Ons", "Add-Ons: "%string);
    (lit "Line Item Notes", "Notes: "%string) ].

(** A labelled, escaped sub-line of the detail cell. *)
Definition subLineMarkup (fields : obj) (d : jsstring * string) : jsstring :=
  lit "<div class=" ++ dq "slip-sub" ++ lit ">" ++ lit (snd d)
    ++ escHtml (get fields (fst d)) ++ lit "</div>".

(** The keys of a line item that the printed table reads. *)
Definition PRINT_ITEM_KEYS : list jsstring :=
  PRINT_PRODUCT_KEYS ++ map fst SUB_DETAILS ++ PRINT_QTY_KEYS.

(** No element of the line-items list is [null] or [undefined]. *)
Definition lineItemsReadable (order : obj) : bool :=
  forallb (fun item => negb (isNullish item))
          (elements (get order (lit "Line Items"))).

(** The display string of a finite number: digits, with a sign, a
    decimal point or an exponent where it has them. *)
Definition isNumeral (d : jsstring) : bool :=
  negb (isEmpty d)
  && forallb (fun c => isDigit c || existsb (N.eqb c) (lit "-.e+")) d.

(** Every value that rendering an order can convert to a string has a
    display string: the fields of the order, and the fields of its line
    items. *)
Definition fieldsDisplayable (fields : obj) : bool :=
  forallb (fun kv => displayable (snd kv)) fields.

Definition itemDisplayable (item : jsval) : bool :=
  match item with
  | JObj fields => fieldsDisplayable fields
  | _ => true
  end.

Definition allDisplayable (order : obj) : bool :=
  fieldsDisplayable order
  && forallb itemDisplayable (elements (get order (lit "Line Items"))).

(** The data model: scalar fields, and line items that are objects. *)
Definition isScalar (v : jsval) : bool :=
  match v with
  | JStr _ => true
  | JNumber d => isNumeral d
  | _ => false
  end.

Definition isLineItem (v : jsval) : bool :=
  match v with
  | JObj fields => forallb (fun kv => isScalar (snd kv)) fields
  | _ => false
  end.

Definition isOrderRecord (order : obj) : bool :=
  forallb (fun kv =>
             if str_eqb (fst kv) (lit "Line Items")
             then match snd kv with
                  | JArr items => forallb isLineItem items
                  | _ => false
                  end
             else isScalar (snd kv)) order.

(** The three forms of the template grammar. *)
Definition placeholder (key : jsstring) : jsstring :=
  lit "{{" ++ key ++ lit "}}".
Definition openTag (name : jsstring) : jsstring :=
  lit "{{#" ++ name ++ lit "}}".
Definition closeTag (name : jsstring) : jsstring :=
  lit "{{/" ++ name ++ lit "}}".

(** Text that does not start with a closing brace and holds no [}}]:
    nothing in it, nor across its start, can end a placeholder or a tag. *)
Definition unterminated (t : jsstring) : bool :=
  negb (match t with c :: _ => (c =? RBRACE)%N | [] => false end)
  && negb (includes (lit "}}") t).

(** The text holds a print-date placeholder: at some position a
    placeholder starts whose trimmed key is the print-date token. *)
Fixpoint hasPrintDate (s : jsstring) : bool :=
  match matchPlaceholder s with
  | Some (key, _) => str_eqb (trim key) PRINT_DATE
  | None => false
  end
  || match s with
     | [] => false
     | _ :: s' => hasPrintDate s'
     end.

(** The preview text of a catalog entry. *)
Definition preview (v : jsval) : jsstring :=
  firstn 40 (toString (nullish v (JStr []))).

(** Notions for the properties of the code around the renderer. *)

(** The number a string of decimal digits writes. *)
Definition digitsValue (s : jsstring) : N :=
  fold_left (fun acc c => (acc * 10 + (c - 48))%N) s 0%N.

Definition allDigits (s : jsstring) : bool := forallb isDigit s.

(** A date of the sheet, month/day/year. *)
Definition usDate (m d y : jsstring) : jsstring :=
  m ++ lit "/" ++ d ++ lit "/" ++ y.

(** The groups of a well-formed date: one or two digits for the month
    and the day, four for the year. *)
Definition wellFormedDate (m d y : jsstring) : bool :=
  allDigits m && allDigits d && allDigits y
  && (1 <=? List.length m) && (List.length m <=? 2)
  && (1 <=? List.length d) && (List.length d <=? 2)
  && (List.length y =? 4).

(** The same date in ISO form, as a date input holds it. *)
Definition isoDate (m d y : jsstring) : jsstring :=
  y ++ lit "-" ++ padStart2 m ++ lit "-" ++ padStart2 d.

(** The day a date names, as the number YYYYMMDD: later days have
    larger numbers. *)
Definition dayNumber (m d y : jsstring) : N :=
  (digitsValue y * 10000 + digitsValue m * 100 + digitsValue d)%N.

(** A line item that the join files under [key]: its [OrderID], as a
    display string, is [key] and is not empty. *)
Definition itemOf (key : jsstring) (item : jsval) : bool :=
  match Api.orderKey item with
  | Ok k => negb (isEmpty k) && str_eqb k key
  | TypeError => false
  end.

(** A row as a table of the sheet gives it: an object that has, as its
    fields have, a display string, and whose [OrderID] is not the name of
    a member that every object inherits. *)
Definition isRow (v : jsval) : bool :=
  match v with
  | JObj fields =>
    displayable v && fieldsDisplayable fields
    && match Api.orderKey v with
       | Ok k => negb (inherited k)
       | TypeError => false
       end
  | _ => false
  end.

(** [a] is not after [b] in the order of the display strings. *)
Definition notAfter (a b : jsval) : Prop :=
  str_ltb (toString b) (toString a) = false.

(** A primitive value: not an array, not an object, not a function. *)
Definition isPrimitive (v : jsval) : bool :=
  match v with
  | JArr _ | JObj _ | JFun _ => false
  | _ => true
  end.

(** An order whose name the filter can put in lower case. *)
Definition nameReadable (order : obj) : bool :=
  match jsOr (jsOr (get order (lit "Order Name"))
                   (get order (lit "Customer Name"))) (JStr []) with
  | JStr _ => true
  | _ => false
  end.

End Stated.

(* ================================================================= *)
(** * Properties *)

Unset Implicit Arguments.

(** ** Strings *)

Lemma str_eqb_refl (a : jsstring) : str_eqb a a = true.
Proof.
  induction a as [|x a IH]; simpl; [reflexivity|].
  now rewrite N.eqb_refl, IH.
Qed.

Lemma str_eqb_eq (a b : jsstring) : str_eqb a b = true <-> a = b.
Proof.
  split.
  - revert b; induction a as [|x a IH]; intros [|y b] H; simpl in H;
      try discriminate; [reflexivity|].
    apply andb_true_iff in H as [Hx Hr].
    apply N.eqb_eq in Hx. apply IH in Hr. now subst.
  - intros ->. apply str_eqb_refl.
Qed.

Lemma str_eqb_neq (a b : jsstring) : a <> b -> str_eqb a b = false.
Proof.
  intros H. destruct (str_eqb a b) eqn:E; [|reflexivity].
  now apply str_eqb_eq in E.
Qed.

Lemma notIn_existsb (c : N) (l : jsstring) :
  existsb (N.eqb c) l = false -> ~ In c l.
Proof.
  intros H F. assert (E : existsb (N.eqb c) l = true).
  { apply existsb_exists. exists c. split; [exact F|apply N.eqb_refl]. }
  rewrite H in E. discriminate.
Qed.

Lemma nonempty_isEmpty (s : jsstring) : isEmpty s = false -> s <> [].
Proof. intros H ->. discriminate. Qed.

Lemma differ_str_eqb (a b : jsstring) : str_eqb a b = false -> a <> b.
Proof. intros H ->. rewrite str_eqb_refl in H. discriminate. Qed.

Lemma stripPrefix_app (p r : jsstring) : stripPrefix p (p ++ r) = Some r.
Proof.
  induction p as [|x p IH]; simpl; [now destruct r|].
  now rewrite N.eqb_refl.
Qed.

Lemma stripPrefix_Some (p s r : jsstring) :
  stripPrefix p s = Some r -> s = p ++ r.
Proof.
  revert s; induction p as [|x p IH]; intros s H.
  - destruct s; simpl in H; now inversion H.
  - destruct s as [|y s]; simpl in H; [discriminate|].
    destruct (N.eqb_spec x y); [|discriminate].
    subst. simpl. f_equal. now apply IH.
Qed.

Lemma stripPrefix_shorter (p s r : jsstring) :
  stripPrefix p s = Some r -> List.length s = List.length p + List.length r.
Proof.
  intros H. apply stripPrefix_Some in H. subst. now rewrite length_app.
Qed.

Lemma stripPrefix_keep (p s r t : jsstring) :
  stripPrefix p s = Some r -> stripPrefix p (s ++ t) = Some (r ++ t).
Proof.
  intros H. apply stripPrefix_Some in H. subst.
  rewrite <- app_assoc. apply stripPrefix_app.
Qed.

(** When [p] starts [s ++ t] but not [s], then [s] is a piece of [p]. *)
Lemma stripPrefix_short (p s t r : jsstring) :
  stripPrefix p (s ++ t) = Some r -> stripPrefix p s = None ->
  forall c, In c s -> In c p.
Proof.
  revert s; induction p as [|x p IH]; intros s H1 H2 c Hc.
  - now destruct s.
  - destruct s as [|y s]; [contradiction|]. simpl in H1, H2.
    destruct (N.eqb_spec x y); [|discriminate]. subst.
    destruct Hc as [<-|Hc]; [now left|]. right. eapply IH; eauto.
Qed.

Lemma isEmpty_app_l (a b : jsstring) :
  isEmpty a = false -> isEmpty (a ++ b) = false.
Proof. now destruct a. Qed.

Lemma stripPrefix_split (p h t r : jsstring) :
  stripPrefix p (h ++ t) = Some r -> stripPrefix p h = None ->
  exists q, q <> [] /\ p = h ++ q /\ t = q ++ r.
Proof.
  revert h; induction p as [|x p IH]; intros h H1 H2.
  - destruct h; discriminate.
  - destruct h as [|y h].
    + exists (x :: p). split; [discriminate|]. split; [reflexivity|].
      change ([] ++ t) with t in H1. now apply stripPrefix_Some in H1.
    + simpl in H1, H2. destruct (N.eqb_spec x y); [|discriminate]. subst.
      destruct (IH h H1 H2) as (q & Hq & -> & ->).
      exists q. repeat split; auto.
Qed.

Lemma spanNot_eq (c : N) (s a b : jsstring) :
  spanNot c s = (a, b) ->
  s = a ++ b /\ ~ In c a /\ (b = [] \/ exists b', b = c :: b').
Proof.
  revert a b; induction s as [|x s IH]; intros a b H; simpl in H.
  - inversion H; subst. repeat split; auto.
  - destruct (N.eqb_spec x c).
    + inversion H; subst. repeat split; auto. right. now exists s.
    + destruct (spanNot c s) as [run rest] eqn:E.
      inversion H; subst.
      destruct (IH _ _ eq_refl) as (Hs & Hn & Hb).
      repeat split; auto.
      * simpl. now f_equal.
      * intros [F|F]; [now subst|now apply Hn].
Qed.

Lemma spanNot_app (c : N) (k r : jsstring) :
  ~ In c k -> spanNot c (k ++ c :: r) = (k, c :: r).
Proof.
  induction k as [|x k IH]; intros H; simpl.
  - now rewrite N.eqb_refl.
  - destruct (N.eqb_spec x c) as [->|Hx].
    + exfalso. apply H. now left.
    + rewrite IH; [reflexivity|]. intros F. apply H. now right.
Qed.

Lemma spanNot_all (c : N) (k : jsstring) :
  ~ In c k -> spanNot c k = (k, []).
Proof.
  induction k as [|x k IH]; intros H; simpl; [reflexivity|].
  destruct (N.eqb_spec x c) as [->|Hx].
  - exfalso. apply H. now left.
  - rewrite IH; [reflexivity|]. intros F. apply H. now right.
Qed.

Lemma spanNot_append (c : N) (a b : jsstring) :
  spanNot c (a ++ b)
  = match spanNot c a with
    | (run, []) => let (run2, rest2) := spanNot c b in (run ++ run2, rest2)
    | (run, rest) => (run, rest ++ b)
    end.
Proof.
  induction a as [|x a IH]; simpl.
  - now destruct (spanNot c b).
  - destruct (x =? c)%N; [reflexivity|].
    rewrite IH. destruct (spanNot c a) as [run [|y rest]]; [|reflexivity].
    now destruct (spanNot c b).
Qed.

Lemma findFirst_eq (n h : jsstring) :
  findFirst n h
  = match stripPrefix n h with
    | Some rest => Some ([], rest)
    | None =>
      match h with
      | [] => None
      | c :: h' =>
        match findFirst n h' with
        | Some (before, rest) => Some (c :: before, rest)
        | None => None
        end
      end
    end.
Proof. destruct h; reflexivity. Qed.

Lemma findFirst_sound (n h a b : jsstring) :
  findFirst n h = Some (a, b) -> h = a ++ n ++ b.
Proof.
  revert a b; induction h as [|c h IH]; intros a b H; simpl in H.
  - destruct (stripPrefix n []) eqn:E; [|discriminate].
    inversion H; subst. now apply stripPrefix_Some in E.
  - destruct (stripPrefix n (c :: h)) eqn:E.
    + inversion H; subst. now apply stripPrefix_Some in E.
    + destruct (findFirst n h) as [[a' b']|] eqn:F; [|discriminate].
      inversion H; subst. simpl. f_equal. now apply IH.
Qed.

(** [findFirst] finds the leftmost occurrence. *)
Lemma findFirst_leftmost (n h a b : jsstring) :
  findFirst n h = Some (a, b) ->
  forall a' b', h = a' ++ n ++ b' -> List.length a <= List.length a'.
Proof.
  revert a b; induction h as [|c h IH]; intros a b H a' b' E; simpl in H.
  - destruct (stripPrefix n []); [|discriminate].
    inversion H; subst. simpl. lia.
  - destruct (stripPrefix n (c :: h)) eqn:P.
    + inversion H; subst. simpl. lia.
    + destruct (findFirst n h) as [[a0 b0]|] eqn:F; [|discriminate].
      inversion H; subst.
      destruct a' as [|c' a'].
      * simpl in E. rewrite E, stripPrefix_app in P. discriminate.
      * simpl in E. inversion E; subst. simpl.
        apply le_n_S. eapply IH; eauto.
Qed.

Lemma findFirst_complete (n a b : jsstring) :
  exists a' b', findFirst n (a ++ n ++ b) = Some (a', b').
Proof.
  induction a as [|c a (a' & b' & IH)].
  - exists [], b. simpl app. now rewrite findFirst_eq, stripPrefix_app.
  - simpl app. rewrite findFirst_eq.
    destruct (stripPrefix n (c :: a ++ n ++ b)); eauto.
    rewrite IH. eauto.
Qed.

Lemma includes_head (p s : jsstring) :
  includes p s = false -> stripPrefix p s = None.
Proof.
  unfold includes. rewrite findFirst_eq.
  now destruct (stripPrefix p s).
Qed.

Lemma includes_cons (p : jsstring) (c : N) (s : jsstring) :
  includes p (c :: s) = false -> includes p s = false.
Proof.
  unfold includes. rewrite (findFirst_eq p (c :: s)).
  destruct (stripPrefix p (c :: s)); [discriminate|].
  now destruct (findFirst p s) as [[a b]|].
Qed.

Lemma includes_suffix (p a s : jsstring) :
  includes p (a ++ s) = false -> includes p s = false.
Proof.
  induction a as [|c a IH]; [trivial|].
  intros H. apply IH. now apply includes_cons in H.
Qed.

Lemma includes_infix (p a b : jsstring) : includes p (a ++ p ++ b) = true.
Proof.
  unfold includes. now destruct (findFirst_complete p a b) as (a' & b' & ->).
Qed.

Lemma includes_close_after (s t : jsstring) :
  ~ In RBRACE s -> includes (lit "}}") (s ++ t) = includes (lit "}}") t.
Proof.
  induction s as [|c s IH]; intros H; [reflexivity|].
  assert (IH' := IH (fun F => H (or_intror F))).
  unfold includes in *. simpl app. rewrite (findFirst_eq _ (c :: s ++ t)).
  change (lit "}}") with [RBRACE; RBRACE] in *. cbn [stripPrefix].
  destruct (N.eqb_spec RBRACE c) as [E|_]; [exfalso; apply H; now left|].
  destruct (findFirst [RBRACE; RBRACE] (s ++ t)) as [[b r]|]; exact IH'.
Qed.

Lemma unterminated_inv (t : jsstring) :
  Stated.unterminated t = true ->
  includes (lit "}}") t = false /\ forall r, t <> RBRACE :: r.
Proof.
  unfold Stated.unterminated. intros H.
  apply andb_true_iff in H as [H1 H2]. split.
  - now destruct (includes (lit "}}") t).
  - intros r ->. vm_compute in H1. discriminate H1.
Qed.

Lemma unterminated_open (tail : jsstring) :
  includes (lit "}}") tail = false ->
  Stated.unterminated (lit "{{" ++ tail) = true.
Proof.
  intros H. unfold Stated.unterminated.
  rewrite includes_close_after, H; [reflexivity|].
  apply notIn_existsb. reflexivity.
Qed.

(** A needle that ends with [}}] cannot reach into unterminated text. *)
Lemma close_needle_tail (n h t : jsstring) :
  Stated.unterminated t = true ->
  stripPrefix (n ++ lit "}}") (h ++ t)
  = option_map (fun r => r ++ t) (stripPrefix (n ++ lit "}}") h).
Proof.
  intros Ht. destruct (unterminated_inv t Ht) as [Hi Hh].
  destruct (stripPrefix (n ++ lit "}}") h) as [r|] eqn:E.
  - simpl. now apply stripPrefix_keep.
  - simpl.
    destruct (stripPrefix (n ++ lit "}}") (h ++ t)) as [r|] eqn:E2;
      [|reflexivity].
    exfalso. destruct (stripPrefix_split _ _ _ _ E2 E) as (q & Hq & Ep & Et).
    destruct (exists_last Hq) as (q1 & z & ->).
    change (lit "}}") with ([RBRACE] ++ [RBRACE]) in Ep.
    rewrite !app_assoc in Ep. apply app_inj_tail in Ep as [Ep <-].
    destruct q1 as [|w q1].
    + apply (Hh r). exact Et.
    + assert (Hq1 : w :: q1 <> []) by discriminate.
      destruct (exists_last Hq1) as (q2 & z & Eq). rewrite Eq in *.
      rewrite app_assoc in Ep. apply app_inj_tail in Ep as [_ <-].
      subst t.
      replace (((q2 ++ [RBRACE]) ++ [RBRACE]) ++ r)
        with (q2 ++ lit "}}" ++ r) in Hi
        by (rewrite <- !app_assoc; reflexivity).
      rewrite includes_infix in Hi. discriminate.
Qed.

Lemma includes_needle (n t : jsstring) :
  includes (lit "}}") t = false -> findFirst (n ++ lit "}}") t = None.
Proof.
  intros H.
  destruct (findFirst (n ++ lit "}}") t) as [[a b]|] eqn:E; [|reflexivity].
  apply findFirst_sound in E. subst t.
  replace (a ++ (n ++ lit "}}") ++ b) with ((a ++ n) ++ lit "}}" ++ b) in H
    by now rewrite <- !app_assoc.
  rewrite includes_infix in H. discriminate.
Qed.

Lemma findFirst_tail (n h t : jsstring) :
  Stated.unterminated t = true ->
  findFirst (n ++ lit "}}") (h ++ t)
  = option_map (fun ab => (fst ab, snd ab ++ t)) (findFirst (n ++ lit "}}") h).
Proof.
  intros Ht. destruct (unterminated_inv t Ht) as [Hi _].
  assert (E0 : stripPrefix (n ++ lit "}}") [] = None) by now destruct n.
  induction h as [|c h IH].
  - change ([] ++ t) with t.
    rewrite (includes_needle n t Hi), (findFirst_eq _ []), E0. reflexivity.
  - rewrite (findFirst_eq _ ((c :: h) ++ t)), (findFirst_eq _ (c :: h)).
    rewrite (close_needle_tail n (c :: h) t Ht).
    destruct (stripPrefix (n ++ lit "}}") (c :: h)); simpl; [reflexivity|].
    rewrite IH. now destruct (findFirst (n ++ lit "}}") h) as [[a b]|].
Qed.

Lemma trimStart_suffix (s : jsstring) : exists a, s = a ++ trimStart s.
Proof.
  induction s as [|c s [a IH]]; simpl.
  - now exists [].
  - destruct (isWhiteSpace c).
    + exists (c :: a). simpl. now f_equal.
    + now exists [].
Qed.

Lemma trimEnd_prefix (s : jsstring) : exists b, s = trimEnd s ++ b.
Proof.
  unfold trimEnd. destruct (trimStart_suffix (rev s)) as [a E].
  exists (rev a). rewrite <- rev_app_distr, <- E. now rewrite rev_involutive.
Qed.

Lemma trim_infix (s : jsstring) : exists a b, s = a ++ trim s ++ b.
Proof.
  unfold trim. destruct (trimStart_suffix s) as [a Ea].
  destruct (trimEnd_prefix (trimStart s)) as [b Eb].
  exists a, b. now rewrite <- Eb.
Qed.

Lemma trimStart_snoc (l : jsstring) (c : N) :
  isWhiteSpace c = false -> trimStart (l ++ [c]) = trimStart l ++ [c].
Proof.
  intros Hc. induction l as [|x l IH]; simpl.
  - now rewrite Hc.
  - now destruct (isWhiteSpace x).
Qed.

Lemma trim_cons_black (c : N) (s : jsstring) :
  isWhiteSpace c = false -> trim (c :: s) = c :: trimEnd s.
Proof.
  intros Hc. unfold trim, trimEnd. simpl trimStart at 1. rewrite Hc.
  simpl rev at 2. rewrite trimStart_snoc by assumption.
  now rewrite rev_app_distr.
Qed.

(** ** Escaping *)

Lemma replaceChar_app (c : N) (r a b : jsstring) :
  replaceChar c r (a ++ b) = replaceChar c r a ++ replaceChar c r b.
Proof. apply flat_map_app. Qed.

Lemma escape_pipeline_char (x : N) :
  replaceChar QUOT (lit "&quot;")
    (replaceChar GT (lit "&gt;")
       (replaceChar LT (lit "&lt;")
          (replaceChar AMP (lit "&amp;") [x])))
  = Stated.escapeChar x.
Proof.
  unfold Stated.escapeChar, replaceChar.
  cbn [flat_map]. rewrite app_nil_r.
  destruct (x =? AMP)%N eqn:E1; [reflexivity|].
  cbn [flat_map]. rewrite app_nil_r.
  destruct (x =? LT)%N eqn:E2; [reflexivity|].
  cbn [flat_map]. rewrite app_nil_r.
  destruct (x =? GT)%N eqn:E3; [reflexivity|].
  cbn [flat_map]. rewrite app_nil_r.
  destruct (x =? QUOT)%N eqn:E4; reflexivity.
Qed.

Lemma escape_pipeline (s : jsstring) :
  replaceChar QUOT (lit "&quot;")
    (replaceChar GT (lit "&gt;")
       (replaceChar LT (lit "&lt;")
          (replaceChar AMP (lit "&amp;") s)))
  = flat_map Stated.escapeChar s.
Proof.
  induction s as [|x s IH]; [reflexivity|].
  change (x :: s) with ([x] ++ s).
  rewrite !replaceChar_app, IH, escape_pipeline_char. reflexivity.
Qed.

(** The four replacements in sequence escape each code unit once. *)
Lemma escHtml_chars (v : jsval) :
  escHtml v = flat_map Stated.escapeChar (toString v).
Proof. apply escape_pipeline. Qed.

Lemma escHtml_app (a b : jsstring) :
  escHtml (JStr (a ++ b)) = escHtml (JStr a) ++ escHtml (JStr b).
Proof. rewrite !escHtml_chars. apply flat_map_app. Qed.

Lemma escHtml_String (v : jsval) : escHtml (JStr (toString v)) = escHtml v.
Proof. reflexivity. Qed.

(** ** The replacement loop *)

Section ReplaceFacts.

Variable G : Type.
Variable matchAt : jsstring -> option (G * jsstring).

(** A match is never empty. *)
Hypothesis matchAt_shrinks :
  forall s g rest, matchAt s = Some (g, rest) ->
                   List.length rest < List.length s.

Lemma replaceLoop_fuel (callback : G -> result jsstring) :
  forall n m s,
    List.length s <= n -> List.length s <= m ->
    replaceLoop matchAt callback n s = replaceLoop matchAt callback m s.
Proof.
  induction n as [|n IH]; intros m s Hn Hm.
  - destruct s; [now destruct m|simpl in Hn; lia].
  - destruct s as [|c s]; [now destruct m|].
    destruct m as [|m]; [simpl in Hm; lia|].
    simpl in *. destruct (matchAt (c :: s)) as [[g rest]|] eqn:E.
    + apply matchAt_shrinks in E. simpl in E.
      rewrite (IH m rest) by lia. reflexivity.
    + rewrite (IH m s) by lia. reflexivity.
Qed.

(** The loop never runs short of steps: [replaceAll] satisfies the
    equation of the scan. *)
Lemma replaceAll_eq (callback : G -> result jsstring) (s : jsstring) :
  replaceAll matchAt callback s
  = match s with
    | [] => Ok []
    | c :: s' =>
      match matchAt s with
      | Some (g, rest) =>
        r <- callback g ;;
        out <- replaceAll matchAt callback rest ;;
        Ok (r ++ out)
      | None =>
        out <- replaceAll matchAt callback s' ;;
        Ok (c :: out)
      end
    end.
Proof.
  unfold replaceAll. destruct s as [|c s]; [reflexivity|].
  simpl. destruct (matchAt (c :: s)) as [[g rest]|] eqn:E.
  - apply matchAt_shrinks in E. simpl in E.
    rewrite (replaceLoop_fuel callback (List.length s) (List.length rest))
      by lia.
    reflexivity.
  - reflexivity.
Qed.

Lemma replaceAll_hit (callback : G -> result jsstring) s g rest :
  matchAt s = Some (g, rest) ->
  replaceAll matchAt callback s
  = r <- callback g ;; out <- replaceAll matchAt callback rest ;;
    Ok (r ++ out).
Proof.
  intros E. rewrite replaceAll_eq. destruct s as [|c s]; [|now rewrite E].
  apply matchAt_shrinks in E. simpl in E. lia.
Qed.

(** Induction on the length of the scanned string. *)
Lemma by_length (P : jsstring -> Prop) :
  (forall s, (forall s', List.length s' < List.length s -> P s') -> P s) ->
  forall s, P s.
Proof.
  intros H s. remember (List.length s) as n eqn:E.
  revert s E. induction n as [n IH] using lt_wf_ind.
  intros s ->. apply H. intros s' Hs'. now apply (IH (List.length s')).
Qed.

(** A callback that never throws makes a replacement that never throws. *)
Lemma replaceAll_total (callback : G -> result jsstring) :
  (forall g, exists r, callback g = Ok r) ->
  forall s, exists out, replaceAll matchAt callback s = Ok out.
Proof.
  intros Hcb s. induction s as [s IH] using by_length.
  rewrite replaceAll_eq. destruct s as [|c s]; [now exists []|].
  destruct (matchAt (c :: s)) as [[g rest]|] eqn:E.
  - destruct (Hcb g) as [r ->].
    apply matchAt_shrinks in E.
    destruct (IH rest E) as [out ->]. simpl. eauto.
  - destruct (IH s) as [out ->]; [simpl; lia|]. simpl. eauto.
Qed.

(** Two callbacks that agree on every group matched in [s] give the same
    replacement. *)
Lemma replaceAll_ext (cb1 cb2 : G -> result jsstring) (Q : jsstring -> Prop) :
  (forall c s, Q (c :: s) -> Q s) ->
  (forall s g rest, Q s -> matchAt s = Some (g, rest) ->
                    cb1 g = cb2 g /\ Q rest) ->
  forall s, Q s -> replaceAll matchAt cb1 s = replaceAll matchAt cb2 s.
Proof.
  intros Hstep Hhit s. induction s as [s IH] using by_length. intros HQ.
  rewrite (replaceAll_eq cb1), (replaceAll_eq cb2).
  destruct s as [|c s]; [reflexivity|].
  destruct (matchAt (c :: s)) as [[g rest]|] eqn:E.
  - destruct (Hhit _ _ _ HQ E) as [-> HQ'].
    apply matchAt_shrinks in E. now rewrite (IH rest E HQ').
  - rewrite (IH s); [reflexivity|simpl; lia|eauto].
Qed.

(** The pattern starts with an opening brace. *)
Hypothesis matchAt_brace :
  forall c s, c <> LBRACE -> matchAt (c :: s) = None.

(** Text without an opening brace is copied. *)
Lemma replaceAll_literal (callback : G -> result jsstring) (p s : jsstring) :
  ~ In LBRACE p ->
  replaceAll matchAt callback (p ++ s)
  = fmap (fun out => p ++ out) (replaceAll matchAt callback s).
Proof.
  induction p as [|c p IH]; intros Hp.
  - simpl. now destruct (replaceAll matchAt callback s).
  - simpl app. rewrite replaceAll_eq, matchAt_brace, IH.
    + now destruct (replaceAll matchAt callback s).
    + intros F. apply Hp. now right.
    + intros F. apply Hp. now left.
Qed.

(** Text in which no match starts is copied. *)
Lemma replaceAll_copy (callback : G -> result jsstring) (s : jsstring) :
  forall p : jsstring,
    (forall a b, p = a ++ b -> b <> [] -> matchAt (b ++ s) = None) ->
    replaceAll matchAt callback (p ++ s)
    = fmap (fun out => p ++ out) (replaceAll matchAt callback s).
Proof.
  induction p as [|c p IH]; intros H.
  - simpl. now destruct (replaceAll matchAt callback s).
  - assert (M : matchAt ((c :: p) ++ s) = None)
      by (apply (H [] (c :: p)); [reflexivity|discriminate]).
    simpl app in *. rewrite replaceAll_eq, M, IH.
    + now destruct (replaceAll matchAt callback s).
    + intros a b -> Hb. apply (H (c :: a) b); [reflexivity|exact Hb].
Qed.

(** A match starts with [{{]. *)
Hypothesis matchAt_opened :
  forall s g rest, matchAt s = Some (g, rest) ->
                   stripPrefix (lit "{{") s <> None.

(** Text without [{{] is copied. *)
Lemma replaceAll_unopened (callback : G -> result jsstring) (t : jsstring) :
  includes (lit "{{") t = false -> replaceAll matchAt callback t = Ok t.
Proof.
  induction t as [|c t IH]; intros Ht; rewrite replaceAll_eq;
    [reflexivity|].
  destruct (matchAt (c :: t)) as [[g rest]|] eqn:E.
  - apply matchAt_opened in E. now apply includes_head in Ht.
  - rewrite IH; [reflexivity|]. now apply includes_cons in Ht.
Qed.

(** A match ends with [}}]. *)
Hypothesis matchAt_closed :
  forall s g rest, matchAt s = Some (g, rest) ->
                   includes (lit "}}") s = true.

(** Text without [}}] is copied. *)
Lemma replaceAll_unclosed (callback : G -> result jsstring) (t : jsstring) :
  includes (lit "}}") t = false -> replaceAll matchAt callback t = Ok t.
Proof.
  induction t as [|c t IH]; intros Ht; rewrite replaceAll_eq;
    [reflexivity|].
  destruct (matchAt (c :: t)) as [[g rest]|] eqn:E.
  - apply matchAt_closed in E. rewrite Ht in E. discriminate.
  - rewrite IH; [reflexivity|]. now apply includes_cons in Ht.
Qed.

(** What follows a match is not looked at, as long as it is unterminated. *)
Hypothesis matchAt_tail :
  forall s t, Stated.unterminated t = true ->
    matchAt (s ++ t)
    = option_map (fun gr => (fst gr, snd gr ++ t)) (matchAt s).

(** An unterminated tail is copied, whatever precedes it. *)
Lemma replaceAll_tail (callback : G -> result jsstring) (t : jsstring) :
  Stated.unterminated t = true ->
  forall s : jsstring,
    replaceAll matchAt callback (s ++ t)
    = fmap (fun out => out ++ t) (replaceAll matchAt callback s).
Proof.
  intros Ht s. induction s as [s IH] using by_length.
  destruct s as [|c s].
  - simpl app. rewrite replaceAll_unclosed; [reflexivity|].
    apply unterminated_inv, Ht.
  - rewrite (replaceAll_eq callback (c :: s)).
    rewrite (replaceAll_eq callback ((c :: s) ++ t)).
    simpl app. change (c :: s ++ t) with ((c :: s) ++ t).
    rewrite (matchAt_tail (c :: s) t Ht).
    destruct (matchAt (c :: s)) as [[g rest]|] eqn:E; simpl.
    + apply matchAt_shrinks in E. rewrite (IH rest E).
      destruct (callback g) as [r|]; [|reflexivity]. simpl.
      destruct (replaceAll matchAt callback rest); [|reflexivity].
      simpl. now rewrite app_assoc.
    + rewrite (IH s) by (simpl; lia).
      now destruct (replaceAll matchAt callback s).
Qed.

End ReplaceFacts.

(** ** The two patterns *)

Lemma matchPlaceholder_shrinks s g rest :
  matchPlaceholder s = Some (g, rest) -> List.length rest < List.length s.
Proof.
  unfold matchPlaceholder. intros H.
  destruct (stripPrefix (lit "{{") s) as [s1|] eqn:E1; [|discriminate].
  destruct (spanNot RBRACE s1) as [key s2] eqn:E2.
  destruct (isEmpty key); [discriminate|].
  destruct (stripPrefix (lit "}}") s2) as [r|] eqn:E3; [|discriminate].
  inversion H; subst.
  apply stripPrefix_shorter in E1, E3. apply spanNot_eq in E2 as (-> & _).
  rewrite length_app in E1. simpl in E1. lia.
Qed.

Lemma matchConditional_shrinks s g rest :
  matchConditional s = Some (g, rest) -> List.length rest < List.length s.
Proof.
  unfold matchConditional. intros H.
  destruct (stripPrefix (lit "{{#") s) as [s1|] eqn:E1; [|discriminate].
  destruct (spanNot RBRACE s1) as [key s2] eqn:E2.
  destruct (isEmpty key); [discriminate|].
  destruct (stripPrefix (lit "}}") s2) as [s3|] eqn:E3; [|discriminate].
  destruct (findFirst (lit "{{/" ++ key ++ lit "}}") s3) as [[content r]|] eqn:E4;
    [|discriminate].
  inversion H; subst.
  apply stripPrefix_shorter in E1, E3. apply spanNot_eq in E2 as (-> & _).
  apply findFirst_sound in E4. subst s3.
  rewrite !length_app in *. simpl in *. lia.
Qed.

Lemma matchPlaceholder_brace c s :
  c <> LBRACE -> matchPlaceholder (c :: s) = None.
Proof.
  intros H. unfold matchPlaceholder.
  change (lit "{{") with [LBRACE; LBRACE]. cbn [stripPrefix].
  destruct (N.eqb_spec LBRACE c) as [E|_]; [|reflexivity].
  now elim H.
Qed.

Lemma matchConditional_brace c s :
  c <> LBRACE -> matchConditional (c :: s) = None.
Proof.
  intros H. unfold matchConditional.
  change (lit "{{#") with [LBRACE; LBRACE; HASH]. cbn [stripPrefix].
  destruct (N.eqb_spec LBRACE c) as [E|_]; [|reflexivity].
  now elim H.
Qed.

Lemma matchPlaceholder_sound (s key rest : jsstring) :
  matchPlaceholder s = Some (key, rest) ->
  s = lit "{{" ++ key ++ lit "}}" ++ rest.
Proof.
  unfold matchPlaceholder. intros H.
  destruct (stripPrefix (lit "{{") s) as [s1|] eqn:E1; [|discriminate].
  destruct (spanNot RBRACE s1) as [k s2] eqn:E2.
  destruct (isEmpty k); [discriminate|].
  destruct (stripPrefix (lit "}}") s2) as [r|] eqn:E3; [|discriminate].
  inversion H; subst.
  apply stripPrefix_Some in E1, E3. apply spanNot_eq in E2 as (-> & _).
  now subst.
Qed.

Lemma matchConditional_sound (s key content rest : jsstring) :
  matchConditional s = Some ((key, content), rest) ->
  s = Stated.openTag key ++ content ++ Stated.closeTag key ++ rest.
Proof.
  unfold matchConditional. intros H.
  destruct (stripPrefix (lit "{{#") s) as [s1|] eqn:E1; [|discriminate].
  destruct (spanNot RBRACE s1) as [k s2] eqn:E2.
  destruct (isEmpty k); [discriminate|].
  destruct (stripPrefix (lit "}}") s2) as [s3|] eqn:E3; [|discriminate].
  destruct (findFirst (lit "{{/" ++ k ++ lit "}}") s3) as [[c r]|] eqn:E4;
    [|discriminate].
  inversion H; subst.
  apply stripPrefix_Some in E1, E3. apply spanNot_eq in E2 as (-> & _).
  apply findFirst_sound in E4. subst.
  unfold Stated.openTag, Stated.closeTag. now rewrite <- !app_assoc.
Qed.

Lemma matchPlaceholder_closed s g rest :
  matchPlaceholder s = Some (g, rest) -> includes (lit "}}") s = true.
Proof.
  intros H. apply matchPlaceholder_sound in H. subst s.
  rewrite app_assoc. apply includes_infix.
Qed.

Lemma matchConditional_closed s g rest :
  matchConditional s = Some (g, rest) -> includes (lit "}}") s = true.
Proof.
  destruct g as [key content]. intros H.
  apply matchConditional_sound in H. subst s. unfold Stated.openTag.
  rewrite <- !app_assoc, app_assoc. apply includes_infix.
Qed.

Lemma not_closed_no_match {G : Type} (m : jsstring -> option (G * jsstring))
      (s : jsstring) :
  (forall g rest, m s = Some (g, rest) -> includes (lit "}}") s = true) ->
  includes (lit "}}") s = false -> m s = None.
Proof.
  intros Hm H. destruct (m s) as [[g rest]|] eqn:E; [|reflexivity].
  rewrite (Hm g rest eq_refl) in H. discriminate.
Qed.

Lemma span_then_close (s1 t : jsstring) :
  Stated.unterminated t = true ->
  forall key s2,
    spanNot RBRACE s1 = (key, s2) ->
    let (key', s2') := spanNot RBRACE (s1 ++ t) in
    (isEmpty key = false -> isEmpty key' = false)
    /\ match s2 with
       | [] => stripPrefix (lit "}}") s2' = None
       | _ :: _ => key' = key /\ s2' = s2 ++ t
       end.
Proof.
  intros Ht key s2 E. destruct (unterminated_inv t Ht) as [Hi _].
  rewrite spanNot_append, E. destruct s2 as [|y s2].
  - destruct (spanNot RBRACE t) as [run2 rest2] eqn:E2. split.
    + apply isEmpty_app_l.
    + destruct (stripPrefix (lit "}}") rest2) as [r|] eqn:E3; [|reflexivity].
      apply spanNot_eq in E2 as (-> & _). apply stripPrefix_Some in E3.
      subst rest2. rewrite includes_infix in Hi. discriminate.
  - split; [trivial|]. split; reflexivity.
Qed.

Lemma prefix_then_unterminated (p s t r : jsstring) :
  ~ In RBRACE p ->
  Stated.unterminated t = true ->
  stripPrefix p (s ++ t) = Some r -> stripPrefix p s = None ->
  includes (lit "}}") (s ++ t) = false.
Proof.
  intros Hp Ht E2 E1. destruct (unterminated_inv t Ht) as [Hi _].
  rewrite includes_close_after; [exact Hi|].
  intros F. apply Hp. exact (stripPrefix_short _ _ _ _ E2 E1 _ F).
Qed.

Lemma matchPlaceholder_tail s t :
  Stated.unterminated t = true ->
  matchPlaceholder (s ++ t)
  = option_map (fun gr => (fst gr, snd gr ++ t)) (matchPlaceholder s).
Proof.
  intros Ht.
  destruct (stripPrefix (lit "{{") s) as [s1|] eqn:E1.
  - unfold matchPlaceholder. rewrite E1, (stripPrefix_keep _ _ _ t E1).
    destruct (spanNot RBRACE s1) as [key s2] eqn:E2.
    pose proof (span_then_close s1 t Ht key s2 E2) as H.
    destruct (spanNot RBRACE (s1 ++ t)) as [key' s2'].
    destruct H as [Hk Hs]. destruct s2 as [|y s2].
    + rewrite Hs. destruct (isEmpty key); [|simpl];
        now destruct (isEmpty key').
    + destruct Hs as [-> ->]. destruct (isEmpty key); [reflexivity|].
      pose proof (close_needle_tail [] (y :: s2) t Ht) as C.
      change ([] ++ lit "}}") with (lit "}}") in C. rewrite C.
      now destruct (stripPrefix (lit "}}") (y :: s2)).
  - unfold matchPlaceholder at 2. rewrite E1. simpl.
    destruct (stripPrefix (lit "{{") (s ++ t)) as [r|] eqn:E2.
    + apply (not_closed_no_match matchPlaceholder _
               (matchPlaceholder_closed _)).
      apply (prefix_then_unterminated (lit "{{") s t r); auto.
      apply notIn_existsb. reflexivity.
    + unfold matchPlaceholder. now rewrite E2.
Qed.

Lemma matchConditional_tail s t :
  Stated.unterminated t = true ->
  matchConditional (s ++ t)
  = option_map (fun gr => (fst gr, snd gr ++ t)) (matchConditional s).
Proof.
  intros Ht.
  destruct (stripPrefix (lit "{{#") s) as [s1|] eqn:E1.
  - unfold matchConditional. rewrite E1, (stripPrefix_keep _ _ _ t E1).
    destruct (spanNot RBRACE s1) as [key s2] eqn:E2.
    pose proof (span_then_close s1 t Ht key s2 E2) as H.
    destruct (spanNot RBRACE (s1 ++ t)) as [key' s2'].
    destruct H as [Hk Hs]. destruct s2 as [|y s2].
    + rewrite Hs. destruct (isEmpty key); [|simpl];
        now destruct (isEmpty key').
    + destruct Hs as [-> ->]. destruct (isEmpty key); [reflexivity|].
      pose proof (close_needle_tail [] (y :: s2) t Ht) as C.
      change ([] ++ lit "}}") with (lit "}}") in C. rewrite C.
      destruct (stripPrefix (lit "}}") (y :: s2)) as [s3|];
        [|reflexivity].
      cbn [option_map]. rewrite app_assoc.
      rewrite (findFirst_tail (lit "{{/" ++ key) s3 t Ht).
      now destruct (findFirst _ s3) as [[a b]|].
  - unfold matchConditional at 2. rewrite E1. simpl.
    destruct (stripPrefix (lit "{{#") (s ++ t)) as [r|] eqn:E2.
    + apply (not_closed_no_match matchConditional _
               (matchConditional_closed _)).
      apply (prefix_then_unterminated (lit "{{#") s t r); auto.
      apply notIn_existsb. reflexivity.
    + unfold matchConditional. now rewrite E2.
Qed.

Lemma matchPlaceholder_opened s g rest :
  matchPlaceholder s = Some (g, rest) -> stripPrefix (lit "{{") s <> None.
Proof.
  intros H. apply matchPlaceholder_sound in H. subst s. discriminate.
Qed.

Lemma matchConditional_opened s g rest :
  matchConditional s = Some (g, rest) -> stripPrefix (lit "{{") s <> None.
Proof.
  destruct g as [key content]. intros H.
  apply matchConditional_sound in H. subst s. discriminate.
Qed.

(** No block starts in text without [{{#] that an opening tag follows. *)
Lemma no_block_start (pre a b s' : jsstring) :
  includes (lit "{{#") pre = false -> pre = a ++ b -> b <> [] ->
  matchConditional (b ++ LBRACE :: LBRACE :: s') = None.
Proof.
  intros Hp -> Hb. unfold matchConditional.
  destruct (stripPrefix (lit "{{#") (b ++ LBRACE :: LBRACE :: s')) as [r|]
    eqn:E; [|reflexivity].
  exfalso. destruct (stripPrefix (lit "{{#") b) as [r'|] eqn:E'.
  - apply stripPrefix_Some in E'. subst b.
    rewrite includes_infix in Hp. discriminate.
  - destruct (stripPrefix_split _ _ _ _ E E') as (q & Hq & Ep & Et).
    change (lit "{{#") with [LBRACE; LBRACE; HASH] in Ep.
    destruct b as [|b0 [|b1 [|b2 b]]]; [contradiction| | |].
    + injection Ep as _ <-. cbv in Et. discriminate Et.
    + injection Ep as _ _ <-. cbv in Et. discriminate Et.
    + injection Ep as _ _ _ Ep. destruct b; destruct q; try discriminate.
      contradiction.
Qed.

(** No placeholder starts in text without [{{] that does not end with an
    opening brace. *)
Lemma no_placeholder_start (pre a b t : jsstring) :
  includes (lit "{{") (pre ++ lit "{") = false -> pre = a ++ b -> b <> [] ->
  matchPlaceholder (b ++ t) = None.
Proof.
  intros Hp -> Hb. unfold matchPlaceholder.
  destruct (stripPrefix (lit "{{") (b ++ t)) as [r|] eqn:E; [|reflexivity].
  exfalso. destruct (stripPrefix (lit "{{") b) as [r'|] eqn:E'.
  - apply stripPrefix_Some in E'. subst b.
    rewrite <- !app_assoc in Hp. rewrite includes_infix in Hp. discriminate.
  - destruct (stripPrefix_split _ _ _ _ E E') as (q & Hq & Ep & Et).
    change (lit "{{") with [LBRACE; LBRACE] in Ep.
    destruct b as [|b0 [|b1 b]]; [contradiction| |].
    + injection Ep as <- _.
      replace ((a ++ [LBRACE]) ++ lit "{") with (a ++ lit "{{" ++ []) in Hp
        by (rewrite <- app_assoc; reflexivity).
      rewrite includes_infix in Hp. discriminate.
    + injection Ep as _ _ Ep. destruct b; destruct q; try discriminate.
      contradiction.
Qed.

(** A well-formed placeholder at the start of the string is a match. *)
Lemma matchPlaceholder_hit (key rest : jsstring) :
  key <> [] -> ~ In RBRACE key ->
  matchPlaceholder (Stated.placeholder key ++ rest) = Some (key, rest).
Proof.
  intros Hk Hn. unfold matchPlaceholder, Stated.placeholder.
  rewrite <- !app_assoc, stripPrefix_app.
  change (lit "}}" ++ rest) with (RBRACE :: RBRACE :: rest).
  rewrite spanNot_app by assumption.
  destruct key; [contradiction|]. reflexivity.
Qed.

(** A block whose closing tag is first found after [content] is a match. *)
Lemma matchConditional_hit (name content rest after : jsstring) :
  name <> [] -> ~ In RBRACE name ->
  findFirst (Stated.closeTag name) after = Some (content, rest) ->
  matchConditional (Stated.openTag name ++ after)
  = Some ((name, content), rest).
Proof.
  intros Hk Hn Hf. unfold matchConditional, Stated.openTag.
  rewrite <- !app_assoc, stripPrefix_app.
  change (lit "}}" ++ after) with (RBRACE :: RBRACE :: after).
  rewrite spanNot_app by assumption. cbv beta iota.
  destruct (isEmpty name) eqn:K; [destruct name; [contradiction|discriminate]|].
  change (stripPrefix (lit "}}") (RBRACE :: RBRACE :: after))
    with (Some after).
  cbv beta iota. unfold Stated.closeTag in Hf. now rewrite Hf.
Qed.

(** An opening tag whose closing tag does not follow is not a match. *)
Lemma matchConditional_miss (name after : jsstring) :
  ~ In RBRACE name ->
  findFirst (Stated.closeTag name) after = None ->
  matchConditional (Stated.openTag name ++ after) = None.
Proof.
  intros Hn Hf. unfold matchConditional, Stated.openTag.
  rewrite <- !app_assoc, stripPrefix_app.
  change (lit "}}" ++ after) with (RBRACE :: RBRACE :: after).
  rewrite spanNot_app by assumption. cbv beta iota.
  destruct (isEmpty name); [reflexivity|].
  change (stripPrefix (lit "}}") (RBRACE :: RBRACE :: after))
    with (Some after).
  cbv beta iota. unfold Stated.closeTag in Hf. now rewrite Hf.
Qed.

(** ** Pass 1: conditional blocks *)

Lemma truthy_not_nullish (v : jsval) : truthy v = true -> isNullish v = false.
Proof. now destruct v. Qed.

(** The test [val && String(val).trim()] of the callback. *)
Lemma condition_truthy (v : jsval) :
  truthy (jsAnd v (trim (toString v))) = truthy v && Stated.hasContent v.
Proof.
  unfold jsAnd, Stated.hasContent. destruct (truthy v) eqn:T; simpl.
  - now rewrite truthy_not_nullish.
  - exact T.
Qed.

Lemma resolveConditionals_total (order : obj) (s : jsstring) :
  exists out, resolveConditionals order s = Ok out.
Proof.
  apply (@replaceAll_total _ _ matchConditional_shrinks). intros g. eauto.
Qed.

(** The conditional pass copies text without [{{#] up to an opening tag. *)
Lemma resolveConditionals_copy (order : obj) (pre name after : jsstring) :
  includes (lit "{{#") pre = false ->
  resolveConditionals order (pre ++ Stated.openTag name ++ after)
  = fmap (fun out => pre ++ out)
         (resolveConditionals order (Stated.openTag name ++ after)).
Proof.
  intros H.
  apply (replaceAll_copy _ _ matchConditional_shrinks
           (fun g => Ok (conditionalValue order g))
           (Stated.openTag name ++ after) pre).
  intros a b E Hb.
  exact (no_block_start pre a b ((HASH :: name ++ lit "}}") ++ after) H E Hb).
Qed.

Lemma resolveConditionals_unopened (order : obj) (t : jsstring) :
  includes (lit "{{") t = false -> resolveConditionals order t = Ok t.
Proof.
  apply (replaceAll_unopened _ _ matchConditional_shrinks
           matchConditional_opened).
Qed.

Lemma resolveConditionals_block (order : obj)
      (name content rest after : jsstring) :
  name <> [] -> ~ In RBRACE name ->
  findFirst (Stated.closeTag name) after = Some (content, rest) ->
  resolveConditionals order (Stated.openTag name ++ after)
  = fmap (fun out =>
            (if truthy (get order (trim name))
                && Stated.hasContent (get order (trim name))
             then content else []) ++ out)
         (resolveConditionals order rest).
Proof.
  intros Hk Hn Hf. unfold resolveConditionals.
  rewrite (@replaceAll_hit _ _ matchConditional_shrinks _ _ _ _
             (matchConditional_hit _ _ _ _ Hk Hn Hf)).
  cbn [bind conditionalValue]. now rewrite condition_truthy.
Qed.

(** A template without [{{#] goes through the conditional pass unchanged. *)
Lemma resolveConditionals_no_block (order : obj) (s : jsstring) :
  includes (lit "{{#") s = false -> resolveConditionals order s = Ok s.
Proof.
  unfold resolveConditionals. induction s as [|c s IH]; intros H;
    rewrite (replaceAll_eq _ _ matchConditional_shrinks); [reflexivity|].
  unfold matchConditional at 1. rewrite (includes_head _ _ H).
  rewrite IH; [reflexivity|]. now apply includes_cons in H.
Qed.

(** ** Pass 2: placeholders *)

(** The placeholder pass copies text in which no [{{] starts. *)
Lemma replacePlaceholders_copy bt today (order : obj) (pre t : jsstring) :
  includes (lit "{{") (pre ++ lit "{") = false ->
  replacePlaceholders bt today order (pre ++ t)
  = fmap (fun out => pre ++ out) (replacePlaceholders bt today order t).
Proof.
  intros H.
  apply (replaceAll_copy _ _ matchPlaceholder_shrinks
           (placeholderValue bt today order) t pre).
  intros a b E Hb. exact (no_placeholder_start pre a b t H E Hb).
Qed.

Lemma replacePlaceholders_unopened bt today (order : obj) (t : jsstring) :
  includes (lit "{{") t = false -> replacePlaceholders bt today order t = Ok t.
Proof.
  apply (replaceAll_unopened _ _ matchPlaceholder_shrinks
           matchPlaceholder_opened).
Qed.

Lemma replacePlaceholders_hit bt today (order : obj) (key rest : jsstring) :
  key <> [] -> ~ In RBRACE key ->
  replacePlaceholders bt today order (Stated.placeholder key ++ rest)
  = r <- placeholderValue bt today order key ;;
    out <- replacePlaceholders bt today order rest ;;
    Ok (r ++ out).
Proof.
  intros Hk Hn. unfold replacePlaceholders.
  now rewrite (@replaceAll_hit _ _ matchPlaceholder_shrinks _ _ _ _
                 (matchPlaceholder_hit _ rest Hk Hn)).
Qed.

(** [String] returns the display string where there is one, and throws
    where there is none. *)
Lemma String_displayable (v : jsval) :
  displayable v = true -> String_ v = Ok (toString v).
Proof. unfold String_. now intros ->. Qed.

Lemma String_throws :
  String_ (JObj [(lit "toString", JStr (lit "x"))]) = TypeError
  /\ String_ (JArr [JNum 1; JObj [(lit "toString", JNull)]]) = TypeError
  /\ String_ (JObj [(lit "valueOf", JStr (lit "x"))])
     = Ok (lit "[object Object]").
Proof. repeat split. Qed.

(** Reading a property that the object has itself, and one that it
    neither has nor inherits. *)
Lemma get_own (o : obj) (k : jsstring) (v : jsval) :
  getOwn o k = Some v -> get o k = v.
Proof. intros H. unfold get. now rewrite H. Qed.

Lemma get_missing (o : obj) (k : jsstring) :
  getOwn o k = None -> inherited k = false -> get o k = JUndefined.
Proof.
  unfold get, inherited. intros -> H.
  now destruct (getOwn OBJECT_PROTOTYPE k).
Qed.

Lemma get_inherited (o : obj) (k : jsstring) :
  getOwn o k = None -> get o k = get [] k.
Proof. unfold get. now intros ->. Qed.

(** The value substituted for an ordinary key. *)
Lemma placeholderValue_field bt today (order : obj) (key : jsstring) :
  trim key <> LINE_ITEMS_TABLE -> trim key <> PRINT_DATE ->
  placeholderValue bt today order key
  = Ok (if isNullish (get order (trim key)) then []
        else escHtml (get order (trim key))).
Proof.
  intros H1 H2. unfold placeholderValue.
  rewrite (str_eqb_neq _ _ H1), (str_eqb_neq _ _ H2).
  now destruct (get order (trim key)).
Qed.

(** ** The claims on the conditional pass *)

(** The display string of a number has content. *)
Lemma numeral_not_space (c : N) :
  isDigit c || existsb (N.eqb c) (lit "-.e+") = true -> isWhiteSpace c = false.
Proof.
  intros H. destruct (isWhiteSpace c) eqn:W; [|reflexivity].
  unfold isWhiteSpace in W.
  repeat (apply orb_prop in W; destruct W as [W|W]);
    try (apply N.eqb_eq in W; subst c; vm_compute in H; discriminate H).
  apply andb_prop in W as [W1 W2]. apply N.leb_le in W1.
  unfold isDigit in H. cbn [lit list_ascii_of_string map existsb] in H.
  repeat (apply orb_prop in H; destruct H as [H|H]);
    try (apply N.eqb_eq in H; subst c; vm_compute in W1; now elim W1);
    try discriminate H.
  apply andb_prop in H as [_ H]. apply N.leb_le in H. lia.
Qed.

Lemma numeral_has_content (d : jsstring) :
  Stated.isNumeral d = true -> isEmpty (trim d) = false.
Proof.
  unfold Stated.isNumeral. destruct d as [|c d]; [discriminate|].
  cbn [isEmpty negb andb forallb]. intros H.
  apply andb_prop in H as [H _].
  now rewrite trim_cons_black by (now apply numeral_not_space).
Qed.

(** C1 (as amended).  A conditional block [{{#NAME}}...{{/NAME}}], met
    after text in which no block starts and closed by the first closing
    tag of the same name, is replaced by its raw interior when [order[NAME]]
    counts as true in a condition and its display string has
    non-white-space content, and by the empty string otherwise; the scan
    goes on behind the block, so a later block of the same name is resolved
    in the same way against the same lookup.  [order[NAME]] is the field
    of that name or, without one, what the order inherits under that
    name, and it is a value that has a display string.  So a block is
    dropped on [undefined] and [null], kept on a string exactly when the
    string is not all white space, and kept on a number exactly when the
    number is not written [0]. *)
Theorem conditional_blocks_resolved
    (order : obj) (pre name content rest : jsstring) :
  includes (lit "{{#") pre = false -> name <> [] -> ~ In RBRACE name ->
  findFirst (Stated.closeTag name) (content ++ Stated.closeTag name ++ rest)
  = Some (content, rest) ->
  displayable (get order (trim name)) = true ->
  let v := get order (trim name) in
  let kept (c : jsstring) :=
    if truthy v && Stated.hasContent v then c else [] in
  resolveConditionals order
    (pre ++ Stated.openTag name ++ content ++ Stated.closeTag name ++ rest)
  = fmap (fun out => pre ++ kept content ++ out)
         (resolveConditionals order rest)
  /\ (forall mid content2 rest2 : jsstring,
         rest = mid ++ Stated.openTag name ++ content2
                    ++ Stated.closeTag name ++ rest2 ->
         includes (lit "{{#") mid = false ->
         findFirst (Stated.closeTag name)
                   (content2 ++ Stated.closeTag name ++ rest2)
         = Some (content2, rest2) ->
         resolveConditionals order
           (pre ++ Stated.openTag name ++ content
                ++ Stated.closeTag name ++ rest)
         = fmap (fun out => pre ++ kept content ++ mid ++ kept content2 ++ out)
                (resolveConditionals order rest2))
  /\ (forall c : jsstring,
         (isNullish v = true -> kept c = [])
         /\ (forall s : jsstring,
                v = JStr s -> kept c = if isEmpty (trim s) then [] else c)
         /\ (forall d : jsstring,
                v = JNumber d -> Stated.isNumeral d = true ->
                kept c = if str_eqb d (lit "0") then [] else c)).
Proof.
  intros Hpre Hk Hn Hf _ v kept.
  assert (E : resolveConditionals order
                (pre ++ Stated.openTag name ++ content
                     ++ Stated.closeTag name ++ rest)
              = fmap (fun out => pre ++ kept content ++ out)
                     (resolveConditionals order rest)).
  { rewrite resolveConditionals_copy by assumption.
    rewrite (resolveConditionals_block order name content rest _ Hk Hn Hf).
    now destruct (resolveConditionals order rest). }
  split; [exact E|split].
  - intros mid content2 rest2 -> Hmid Hf2. rewrite E.
    rewrite resolveConditionals_copy by assumption.
    rewrite (resolveConditionals_block order name content2 rest2 _ Hk Hn Hf2).
    now destruct (resolveConditionals order rest2).
  - intros c. unfold kept, Stated.hasContent. split; [|split].
    + intros N. destruct v; try discriminate N; reflexivity.
    + intros s ->. cbn [truthy isNullish toString negb andb].
      destruct s as [|x s]; [reflexivity|].
      cbn [isEmpty negb andb]. now destruct (isEmpty (trim (x :: s))).
    + intros d -> Hd. cbn [truthy isNullish toString negb andb].
      rewrite (numeral_has_content d Hd).
      now destruct (str_eqb d (lit "0")).
Qed.

Lemma conditional_blocks_resolved_witness :
  let order := [(lit "Status", JStr (lit "Shipped"))] in
  let name := lit "Status" in
  resolveConditionals order
    (lit "<b>{{A}}: " ++ Stated.openTag name ++ lit "X{{B}}"
         ++ Stated.closeTag name ++ lit "</b>")
  = fmap (fun out => lit "<b>{{A}}: " ++ lit "X{{B}}" ++ out)
         (resolveConditionals order (lit "</b>")).
Proof.
  refine (proj1 (conditional_blocks_resolved
                   [(lit "Status", JStr (lit "Shipped"))]
                   (lit "<b>{{A}}: ") (lit "Status") (lit "X{{B}}")
                   (lit "</b>") _ _ _ _ _)).
  - vm_compute. reflexivity.
  - apply nonempty_isEmpty. vm_compute. reflexivity.
  - apply notIn_existsb. vm_compute. reflexivity.
  - vm_compute. reflexivity.
  - vm_compute. reflexivity.
Defined.

(** C1 as stated fails: the number 0 exists and its display string ["0"]
    has content, yet a block on a field holding 0 is dropped. *)
Lemma conditional_block_zero_dropped :
  ~ (forall (order : obj) (name content : jsstring),
        name <> [] -> ~ In RBRACE name ->
        findFirst (Stated.closeTag name) (content ++ Stated.closeTag name)
        = Some (content, []) ->
        Stated.keepsBlock order name = true ->
        resolveConditionals order
          (Stated.openTag name ++ content ++ Stated.closeTag name)
        = Ok content).
Proof.
  intros H.
  specialize (H [(lit "Order Count", JNum 0)] (lit "Order Count") (lit "X")).
  assert (E : resolveConditionals [(lit "Order Count", JNum 0)]
                (Stated.openTag (lit "Order Count") ++ lit "X"
                   ++ Stated.closeTag (lit "Order Count"))
              = Ok []) by (vm_compute; reflexivity).
  rewrite E in H.
  assert (F : Ok (@nil N) = Ok (lit "X")).
  { apply H.
    - apply nonempty_isEmpty. vm_compute. reflexivity.
    - apply notIn_existsb. vm_compute. reflexivity.
    - vm_compute. reflexivity.
    - vm_compute. reflexivity. }
  discriminate F.
Qed.

(** ** The claims on placeholders and escaping *)




Lemma numberToString_pos (p : positive) :
  numberToString (Zpos p) = lit (NilEmpty.string_of_uint (Pos.to_uint p)).
Proof.
  unfold numberToString. simpl.
  pose proof (DecimalPos.Unsigned.to_uint_nonnil p) as H.
  destruct (Pos.to_uint p); try reflexivity. now elim H.
Qed.


Lemma numberToString_neg (p : positive) :
  numberToString (Zneg p) = lit "-" ++ numberToString (Zpos p).
Proof.
  rewrite numberToString_pos. unfold numberToString. simpl.
  pose proof (DecimalPos.Unsigned.to_uint_nonnil p) as H.
  destruct (Pos.to_uint p); try reflexivity. now elim H.
Qed.

Lemma numberToString_canonical (p : positive) :
  exists c s, numberToString (Zpos p) = c :: s /\ c <> 48%N.
Proof.
  rewrite numberToString_pos.
  pose proof (DecimalPos.Unsigned.of_to p) as V.
  pose proof (DecimalPos.Unsigned.to_of (Pos.to_uint p)) as H.
  rewrite V in H. change (N.to_uint (N.pos p)) with (Pos.to_uint p) in H.
  pose proof (DecimalPos.Unsigned.to_uint_nonnil p) as Hn.
  destruct (Pos.to_uint p) as [|d|d|d|d|d|d|d|d|d|d]; try (now elim Hn);
    try (eexists _, _; split; [reflexivity|discriminate]).
  exfalso.
  destruct (Decimal.uint_eq_dec (Decimal.nzhead (Decimal.D0 d)) Decimal.Nil)
    as [Z|Z].
  - apply DecimalFacts.unorm_0 in Z. rewrite Z in H. injection H as H.
    subst d. discriminate V.
  - rewrite (DecimalFacts.unorm_nzhead _ Z) in H.
    exact (DecimalFacts.nzhead_nonzero _ _ (eq_sym H)).
Qed.


Lemma getOwn_In (o : obj) (k : jsstring) (v : jsval) :
  getOwn o k = Some v -> exists k', In (k', v) o.
Proof.
  induction o as [|[k' x] o IH]; [discriminate|]. simpl.
  destruct (str_eqb k' k).
  - intros [= ->]. exists k'. now left.
  - intros H. destruct (IH H) as [k'' I]. exists k''. now right.
Qed.





Lemma count_escapeChar (c : N) :
  count_occ N.eq_dec (Stated.escapeChar c) APOS
  = count_occ N.eq_dec [c] APOS.
Proof.
  unfold Stated.escapeChar.
  destruct (N.eqb_spec c AMP) as [->|_]; [reflexivity|].
  destruct (N.eqb_spec c LT) as [->|_]; [reflexivity|].
  destruct (N.eqb_spec c GT) as [->|_]; [reflexivity|].
  destruct (N.eqb_spec c QUOT) as [->|_]; reflexivity.
Qed.

(** C10.  [escHtml] leaves every single quote where it is: the output
    around a single quote is the escaped text before it, the quote, and
    the escaped text after it; the number of single quotes is unchanged;
    and the only code units that [escHtml] rewrites are [&], [<], [>] and
    the double quote. *)
Theorem escHtml_keeps_single_quotes :
  (forall a b : jsstring,
      escHtml (JStr (a ++ APOS :: b))
      = escHtml (JStr a) ++ APOS :: escHtml (JStr b))
  /\ (forall v : jsval,
         count_occ N.eq_dec (escHtml v) APOS
         = count_occ N.eq_dec (toString v) APOS)
  /\ (forall c : N,
         escHtml (JStr [c]) = [c]
         \/ c = AMP \/ c = LT \/ c = GT \/ c = QUOT).
Proof.
  split; [|split].
  - intros a b. change (APOS :: b) with ([APOS] ++ b).
    now rewrite !escHtml_app.
  - intros v. rewrite escHtml_chars.
    induction (toString v) as [|c s IH]; [reflexivity|].
    cbn [flat_map]. rewrite count_occ_app, count_escapeChar, IH.
    change (c :: s) with ([c] ++ s). now rewrite count_occ_app.
  - intros c. rewrite escHtml_chars. cbn [toString flat_map].
    rewrite app_nil_r. unfold Stated.escapeChar.
    destruct (N.eqb_spec c AMP); [now right; left|].
    destruct (N.eqb_spec c LT); [now right; right; left|].
    destruct (N.eqb_spec c GT); [now right; right; right; left|].
    destruct (N.eqb_spec c QUOT); [now right; right; right; right|].
    now left.
Qed.

(** C9.  The default template of the designer and the default template of
    the print path are the same string (of 1166 code units), which is also
    what the print path renders when no template is stored. *)
Theorem default_templates_agree :
  Designer.DEFAULT_TEMPLATE = App.DEFAULT_TEMPLATE
  /\ App.getTemplate None = Designer.DEFAULT_TEMPLATE
  /\ List.length App.DEFAULT_TEMPLATE = 1166.
Proof. split; [|split]; vm_compute; reflexivity. Qed.

(** ** The line-items table *)

Lemma joinWith_nil (l : list jsstring) : joinWith [] l = concat l.
Proof.
  induction l as [|s l IH]; [reflexivity|].
  destruct l as [|s' l]; [simpl; now rewrite app_nil_r|].
  change (joinWith [] (s :: s' :: l)) with (s ++ [] ++ joinWith [] (s' :: l)).
  now rewrite IH.
Qed.

Lemma mapM_Forall2 {A B : Type} (f : A -> result B) (l : list A) :
  Forall (fun a => exists b, f a = Ok b) l ->
  exists bs, mapM f l = Ok bs /\ Forall2 (fun a b => f a = Ok b) l bs.
Proof.
  induction 1 as [|a l [b Hb] _ (bs & E & F)].
  - exists []. split; [reflexivity|constructor].
  - exists (b :: bs). simpl. rewrite Hb, E. split; [reflexivity|].
    now constructor.
Qed.

Lemma App_lineItemRow_ok (item : jsval) :
  isNullish item = false -> exists row, App.lineItemRow item = Ok row.
Proof.
  destruct item; intros H; try discriminate;
    unfold App.lineItemRow; cbn [getProp bind]; eexists; reflexivity.
Qed.

Lemma Designer_lineItemRow_ok (item : jsval) :
  isNullish item = false -> exists row, Designer.lineItemRow item = Ok row.
Proof.
  destruct item; intros H; try discriminate;
    unfold Designer.lineItemRow; cbn [getProp bind]; eexists; reflexivity.
Qed.

Lemma readable_Forall (order : obj) (row : jsval -> result jsstring) :
  (forall item, isNullish item = false -> exists r, row item = Ok r) ->
  Stated.lineItemsReadable order = true ->
  Forall (fun item => exists r, row item = Ok r)
         (elements (get order (lit "Line Items"))).
Proof.
  intros Hrow H. apply Forall_forall. intros item Hin.
  apply Hrow. unfold Stated.lineItemsReadable in H.
  rewrite forallb_forall in H. specialize (H item Hin).
  now destruct (isNullish item).
Qed.

Lemma App_table_total (order : obj) :
  Stated.lineItemsReadable order = true ->
  exists out, App.buildLineItemsTable order = Ok out.
Proof.
  intros H. unfold App.buildLineItemsTable.
  destruct (negb _ || negb _ || _); [eauto|].
  destruct (mapM_Forall2 App.lineItemRow _
              (readable_Forall order _ App_lineItemRow_ok H))
    as (rows & -> & _).
  simpl. eauto.
Qed.

Lemma Designer_table_total (order : obj) :
  Stated.lineItemsReadable order = true ->
  exists out, Designer.buildLineItemsTable order = Ok out.
Proof.
  intros H. unfold Designer.buildLineItemsTable.
  destruct (negb _ || negb _ || _); [eauto|].
  destruct (mapM_Forall2 Designer.lineItemRow _
              (readable_Forall order _ Designer_lineItemRow_ok H))
    as (rows & -> & _).
  simpl. eauto.
Qed.

(** ** Rendering as a whole *)

Lemma replacePlaceholders_total bt today (order : obj) (s : jsstring) :
  (exists table, bt order = Ok table) ->
  exists out, replacePlaceholders bt today order s = Ok out.
Proof.
  intros [table Ht].
  apply (replaceAll_total _ _ matchPlaceholder_shrinks). intros key.
  unfold placeholderValue.
  destruct (str_eqb (trim key) LINE_ITEMS_TABLE); [eauto|].
  destruct (str_eqb (trim key) PRINT_DATE); eauto.
Qed.

Lemma renderTemplate_total bt today (template : jsstring) (order : obj) :
  (exists table, bt order = Ok table) ->
  exists out, renderTemplate bt today template order = Ok out.
Proof.
  intros Ht. unfold renderTemplate.
  destruct (resolveConditionals_total order template) as [html ->].
  apply replacePlaceholders_total, Ht.
Qed.

Lemma renderTemplate_tail bt today (order : obj) (pre t : jsstring) :
  Stated.unterminated t = true ->
  renderTemplate bt today (pre ++ t) order
  = fmap (fun out => out ++ t) (renderTemplate bt today pre order).
Proof.
  intros Ht. unfold renderTemplate, resolveConditionals.
  rewrite (replaceAll_tail _ _ matchConditional_shrinks
             matchConditional_closed matchConditional_tail _ t Ht pre).
  destruct (resolveConditionals_total order pre) as [html E].
  unfold resolveConditionals in E. rewrite E. cbn [fmap bind].
  apply (replaceAll_tail _ _ matchPlaceholder_shrinks
           matchPlaceholder_closed matchPlaceholder_tail _ t Ht html).
Qed.

Lemma openTag_placeholder (name : jsstring) :
  Stated.openTag name = Stated.placeholder (HASH :: name).
Proof. reflexivity. Qed.

(** The conditional pass steps over an opening tag that is never closed. *)
Lemma resolveConditionals_unclosed (order : obj) (name rest : jsstring) :
  ~ In LBRACE name -> ~ In RBRACE name ->
  findFirst (Stated.closeTag name) rest = None ->
  resolveConditionals order (Stated.openTag name ++ rest)
  = fmap (fun out => Stated.openTag name ++ out)
         (resolveConditionals order rest).
Proof.
  intros Hl Hr Hf. unfold resolveConditionals.
  set (cb := fun g => Ok (conditionalValue order g)).
  pose proof (matchConditional_miss name rest Hr Hf) as M0.
  change (Stated.openTag name ++ rest)
    with (LBRACE :: LBRACE :: (HASH :: name ++ lit "}}") ++ rest) in M0 |- *.
  rewrite (replaceAll_eq _ _ matchConditional_shrinks cb
             (LBRACE :: LBRACE :: (HASH :: name ++ lit "}}") ++ rest)).
  rewrite M0.
  rewrite (replaceAll_eq _ _ matchConditional_shrinks cb
             (LBRACE :: (HASH :: name ++ lit "}}") ++ rest)).
  change (matchConditional (LBRACE :: (HASH :: name ++ lit "}}") ++ rest))
    with (@None (jsstring * jsstring * jsstring)).
  rewrite (replaceAll_literal _ _ matchConditional_shrinks
             matchConditional_brace).
  - now destruct (replaceAll matchConditional cb rest).
  - intros [F|F]; [discriminate|].
    apply in_app_or in F as [F|F]; [now apply Hl|].
    simpl in F. repeat (destruct F as [F|F]; [discriminate|]). exact F.
Qed.

Lemma hash_key_not_reserved (name : jsstring) :
  trim (HASH :: name) <> LINE_ITEMS_TABLE /\ trim (HASH :: name) <> PRINT_DATE.
Proof.
  rewrite trim_cons_black by reflexivity. split; discriminate.
Qed.

Lemma hash_key_not_inherited (name : jsstring) :
  inherited (trim (HASH :: name)) = false.
Proof. rewrite trim_cons_black by reflexivity. reflexivity. Qed.

(** C3 (as amended).  Rendering returns a string and throws nothing, on
    the print path and in the preview, for every template and every order
    whose line items are not [null] and whose values have a display
    string; a [{{] that no [}}] follows is left as literal text together
    with all that follows it.  An opening tag [{{#NAME}}] that is never
    closed is left alone by the conditional pass, and the placeholder pass
    then reads it as the placeholder of key [#NAME]: it is replaced by the
    escaped field of that name, that is, removed when the order has
    none. *)
Theorem render_total_and_malformed :
  (forall (stored : option jsstring) (today : jsstring) (order : obj),
      Stated.lineItemsReadable order = true ->
      Stated.allDisplayable order = true ->
      exists out, App.renderOrderForPrint stored today order = Ok out)
  /\ (forall (template : jsstring) (sampleOrder : option obj)
             (today : jsstring),
         Stated.lineItemsReadable (Designer.currentOrder sampleOrder) = true ->
         Stated.allDisplayable (Designer.currentOrder sampleOrder) = true ->
         exists out, Designer.renderPreview template sampleOrder today = Ok out)
  /\ (forall bt (today : jsstring) (order : obj) (pre tail : jsstring),
         includes (lit "}}") tail = false ->
         renderTemplate bt today (pre ++ lit "{{" ++ tail) order
         = fmap (fun out => out ++ lit "{{" ++ tail)
                (renderTemplate bt today pre order))
  /\ (forall bt (today : jsstring) (order : obj) (name rest : jsstring),
         name <> [] -> ~ In LBRACE name -> ~ In RBRACE name ->
         findFirst (Stated.closeTag name) rest = None ->
         let v := get order (trim (HASH :: name)) in
         resolveConditionals order (Stated.openTag name ++ rest)
         = fmap (fun out => Stated.openTag name ++ out)
                (resolveConditionals order rest)
         /\ (displayable v = true ->
             renderTemplate bt today (Stated.openTag name ++ rest) order
             = fmap (fun out =>
                       (if isNullish v then [] else escHtml v) ++ out)
                    (renderTemplate bt today rest order))
         /\ (getOwn order (trim (HASH :: name)) = None ->
             renderTemplate bt today (Stated.openTag name ++ rest) order
             = renderTemplate bt today rest order)).
Proof.
  assert (U : forall bt (today : jsstring) (order : obj)
                     (name rest : jsstring),
             name <> [] -> ~ In LBRACE name -> ~ In RBRACE name ->
             findFirst (Stated.closeTag name) rest = None ->
             renderTemplate bt today (Stated.openTag name ++ rest) order
             = fmap (fun out =>
                       (if isNullish (get order (trim (HASH :: name)))
                        then []
                        else escHtml (get order (trim (HASH :: name))))
                       ++ out)
                    (renderTemplate bt today rest order)).
  { intros bt today order name rest Hk Hl Hr Hf. unfold renderTemplate.
    rewrite resolveConditionals_unclosed by assumption.
    destruct (resolveConditionals_total order rest) as [html ->].
    cbn [fmap bind]. rewrite openTag_placeholder.
    rewrite replacePlaceholders_hit.
    + destruct (hash_key_not_reserved name) as [N1 N2].
      rewrite (placeholderValue_field bt today order _ N1 N2).
      cbn [bind]. now destruct (replacePlaceholders bt today order html).
    + discriminate.
    + intros [F|F]; [discriminate|contradiction]. }
  split; [|split; [|split]].
  - intros stored today order H _. unfold App.renderOrderForPrint.
    destruct (renderTemplate_total App.buildLineItemsTable today
                (App.getTemplate stored) order (App_table_total order H))
      as [html ->].
    simpl. eauto.
  - intros template sampleOrder today H _. unfold Designer.renderPreview.
    destruct (renderTemplate_total Designer.buildLineItemsTable today
                template _ (Designer_table_total _ H)) as [html ->].
    simpl. eauto.
  - intros bt today order pre tail Ht.
    apply renderTemplate_tail, unterminated_open, Ht.
  - intros bt today order name rest Hk Hl Hr Hf v. split; [|split].
    + now apply resolveConditionals_unclosed.
    + intros _. now apply U.
    + intros Hx. rewrite U by assumption.
      rewrite (get_missing _ _ Hx (hash_key_not_inherited name)).
      cbn [isNullish app].
      now destruct (renderTemplate bt today rest order).
Qed.

Lemma render_total_and_malformed_witness :
  (exists out,
      App.renderOrderForPrint None (lit "1/1/2026")
        Designer.getSampleOrderFallback = Ok out)
  /\ renderTemplate App.buildLineItemsTable (lit "1/1/2026")
       (lit "{{A}} and " ++ lit "{{" ++ lit "B} C") [(lit "A", JNum 7)]
     = fmap (fun out => out ++ lit "{{" ++ lit "B} C")
            (renderTemplate App.buildLineItemsTable (lit "1/1/2026")
               (lit "{{A}} and ") [(lit "A", JNum 7)])
  /\ renderTemplate App.buildLineItemsTable (lit "1/1/2026")
       (Stated.openTag (lit "A") ++ lit "X") []
     = renderTemplate App.buildLineItemsTable (lit "1/1/2026") (lit "X") [].
Proof.
  destruct render_total_and_malformed as (T & _ & L & U).
  split; [|split].
  - apply T; vm_compute; reflexivity.
  - apply L. vm_compute. reflexivity.
  - refine (proj2 (proj2 (U App.buildLineItemsTable (lit "1/1/2026") []
                            (lit "A") (lit "X") _ _ _ _)) _).
    + apply nonempty_isEmpty. vm_compute. reflexivity.
    + apply notIn_existsb. vm_compute. reflexivity.
    + apply notIn_existsb. vm_compute. reflexivity.
    + vm_compute. reflexivity.
    + vm_compute. reflexivity.
Defined.

(** C3 as stated fails: an unterminated block is not left in the output
    as literal text; its opening tag is removed. *)
Lemma unterminated_block_tag_removed :
  renderTemplate App.buildLineItemsTable (lit "1/1/2026") (lit "{{#A}}X") []
  = Ok (lit "X")
  /\ renderTemplate App.buildLineItemsTable (lit "1/1/2026")
       (lit "{{#A}}X") []
     <> Ok (lit "{{#A}}X").
Proof.
  assert (E : renderTemplate App.buildLineItemsTable (lit "1/1/2026")
                (lit "{{#A}}X") [] = Ok (lit "X"))
    by (vm_compute; reflexivity).
  split; [exact E|]. rewrite E. intros F. vm_compute in F. discriminate F.
Qed.

(** ** Dependence on the date *)

(** Without the print-date token in the scanned text, the placeholder
    pass does not read the date. *)
Lemma replacePlaceholders_today bt (d1 d2 : jsstring) (order : obj)
      (html : jsstring) :
  includes PRINT_DATE html = false ->
  replacePlaceholders bt d1 order html = replacePlaceholders bt d2 order html.
Proof.
  apply (replaceAll_ext _ _ matchPlaceholder_shrinks
           (placeholderValue bt d1 order) (placeholderValue bt d2 order)
           (fun s => includes PRINT_DATE s = false)).
  - intros c s. apply includes_cons.
  - intros s key rest HQ Hm. apply matchPlaceholder_sound in Hm. subst s.
    split.
    + unfold placeholderValue.
      destruct (str_eqb (trim key) LINE_ITEMS_TABLE); [reflexivity|].
      destruct (str_eqb (trim key) PRINT_DATE) eqn:E; [|reflexivity].
      apply str_eqb_eq in E. exfalso.
      destruct (trim_infix key) as (a & b & Ek). rewrite E in Ek.
      rewrite Ek in HQ.
      replace (lit "{{" ++ (a ++ PRINT_DATE ++ b) ++ lit "}}" ++ rest)
        with ((lit "{{" ++ a) ++ PRINT_DATE ++ (b ++ lit "}}" ++ rest)) in HQ
        by now rewrite <- !app_assoc.
      rewrite includes_infix in HQ. discriminate.
    + apply (includes_suffix _ (lit "{{" ++ key ++ lit "}}")).
      now rewrite <- !app_assoc.
Qed.

Lemma hasPrintDate_cons (c : N) (s : jsstring) :
  Stated.hasPrintDate (c :: s) = false -> Stated.hasPrintDate s = false.
Proof.
  cbn [Stated.hasPrintDate]. intros H.
  apply orb_false_iff in H. exact (proj2 H).
Qed.

Lemma hasPrintDate_suffix (a s : jsstring) :
  Stated.hasPrintDate (a ++ s) = false -> Stated.hasPrintDate s = false.
Proof.
  induction a as [|c a IH]; [trivial|].
  intros H. apply IH. exact (hasPrintDate_cons c _ H).
Qed.

Lemma hasPrintDate_head (s key rest : jsstring) :
  Stated.hasPrintDate s = false -> matchPlaceholder s = Some (key, rest) ->
  str_eqb (trim key) PRINT_DATE = false.
Proof.
  intros H M. destruct s as [|c s]; cbn [Stated.hasPrintDate] in H;
    rewrite M in H; apply orb_false_iff in H; exact (proj1 H).
Qed.

(** Without a print-date placeholder in the scanned text, the
    placeholder pass does not read the date. *)
Lemma replacePlaceholders_undated bt (d1 d2 : jsstring) (order : obj)
      (html : jsstring) :
  Stated.hasPrintDate html = false ->
  replacePlaceholders bt d1 order html = replacePlaceholders bt d2 order html.
Proof.
  apply (replaceAll_ext _ _ matchPlaceholder_shrinks
           (placeholderValue bt d1 order) (placeholderValue bt d2 order)
           (fun s => Stated.hasPrintDate s = false)).
  - exact hasPrintDate_cons.
  - intros s key rest HQ Hm. split.
    + unfold placeholderValue.
      now rewrite (hasPrintDate_head s key rest HQ Hm).
    + apply matchPlaceholder_sound in Hm. subst s.
      apply (hasPrintDate_suffix (lit "{{" ++ key ++ lit "}}")).
      now rewrite <- !app_assoc.
Qed.

(** ** The renderer only reads the order *)

Lemma replaceLoopOnOrder_reads (G : Type)
      (matchAt : jsstring -> option (G * jsstring))
      (callbackOnOrder : G -> onOrder jsstring)
      (callback : obj -> G -> result jsstring) :
  (forall g o, callbackOnOrder g o = fmap (fun r => (r, o)) (callback o g)) ->
  forall (fuel : nat) (s : jsstring) (o : obj),
    replaceLoopOnOrder matchAt callbackOnOrder fuel s o
    = fmap (fun out => (out, o)) (replaceLoop matchAt (callback o) fuel s).
Proof.
  intros H fuel. induction fuel as [|fuel IH]; intros s o;
    destruct s as [|c s]; try reflexivity.
  cbn [replaceLoopOnOrder replaceLoop].
  destruct (matchAt (c :: s)) as [[g rest]|].
  - unfold bind_ at 1. rewrite H.
    destruct (callback o g) as [r|]; [|reflexivity].
    cbn [fmap bind]. unfold bind_. rewrite IH.
    now destruct (replaceLoop matchAt (callback o) fuel rest).
  - unfold bind_. rewrite IH.
    now destruct (replaceLoop matchAt (callback o) fuel s).
Qed.

Lemma renderTemplateOnOrder_reads (btOnOrder : onOrder jsstring)
      (bt : obj -> result jsstring) (today template : jsstring) (o : obj) :
  (forall o', btOnOrder o' = fmap (fun t => (t, o')) (bt o')) ->
  renderTemplateOnOrder btOnOrder today template o
  = fmap (fun html => (html, o)) (renderTemplate bt today template o).
Proof.
  intros Hbt. unfold renderTemplateOnOrder, renderTemplate,
    resolveConditionals, replacePlaceholders, replaceAllOnOrder, replaceAll.
  unfold bind_.
  rewrite (replaceLoopOnOrder_reads _ matchConditional
             conditionalValueOnOrder
             (fun o g => Ok (conditionalValue o g))).
  - destruct (replaceLoop matchConditional
                (fun g => Ok (conditionalValue o g))
                (List.length template) template) as [html|]; [|reflexivity].
    cbn [fmap bind].
    apply (replaceLoopOnOrder_reads _ matchPlaceholder
             (placeholderValueOnOrder btOnOrder today)
             (placeholderValue bt today)).
    intros key o'. unfold placeholderValueOnOrder, placeholderValue.
    destruct (str_eqb (trim key) LINE_ITEMS_TABLE); [apply Hbt|].
    destruct (str_eqb (trim key) PRINT_DATE); reflexivity.
  - intros [key content] o'. reflexivity.
Qed.

Lemma App_tableOnOrder_reads (o : obj) :
  App.buildLineItemsTableOnOrder o
  = fmap (fun t => (t, o)) (App.buildLineItemsTable o).
Proof.
  unfold App.buildLineItemsTableOnOrder, App.buildLineItemsTable, bind_,
    readProperty.
  destruct (negb (truthy (get o (lit "Line Items")))
            || negb (isArray (get o (lit "Line Items")))
            || (List.length (elements (get o (lit "Line Items"))) =? 0));
    reflexivity.
Qed.

(** C7 (as amended).  The rendered string does not depend on the date of
    rendering when the template, once its conditional blocks are resolved
    against the order, holds no print-date placeholder; for a template
    without conditional block it is enough that the template itself holds
    none.  And rendering does not change the order: run as a computation
    on the order, which could change it, the print path returns the same
    string, or throws, as the function of the order does, and hands the
    order back as it received it. *)
Theorem render_deterministic
    (bt : obj -> result jsstring) (d1 d2 : jsstring)
    (template : jsstring) (order : obj) :
  (forall html : jsstring,
      resolveConditionals order template = Ok html ->
      Stated.hasPrintDate html = false ->
      renderTemplate bt d1 template order = renderTemplate bt d2 template order)
  /\ (includes (lit "{{#") template = false ->
      Stated.hasPrintDate template = false ->
      renderTemplate bt d1 template order = renderTemplate bt d2 template order)
  /\ (forall (stored : option jsstring) (today : jsstring),
         App.renderOrderForPrintOnOrder stored today order
         = fmap (fun html => (html, order))
                (App.renderOrderForPrint stored today order)).
Proof.
  assert (A : forall html : jsstring,
             resolveConditionals order template = Ok html ->
             Stated.hasPrintDate html = false ->
             renderTemplate bt d1 template order
             = renderTemplate bt d2 template order).
  { intros html E H. unfold renderTemplate. rewrite E. cbn [bind].
    now apply replacePlaceholders_undated. }
  split; [exact A|split].
  - intros Hb Hd. apply (A template); [|exact Hd].
    now apply resolveConditionals_no_block.
  - intros stored today.
    unfold App.renderOrderForPrintOnOrder, App.renderOrderForPrint.
    unfold bind_ at 1.
    rewrite (renderTemplateOnOrder_reads App.buildLineItemsTableOnOrder
               App.buildLineItemsTable today (App.getTemplate stored) order
               App_tableOnOrder_reads).
    now destruct (renderTemplate App.buildLineItemsTable today
                    (App.getTemplate stored) order).
Qed.

Lemma render_deterministic_witness :
  let template := lit "{{#A}}{{B}}{{/A}} on PRINT_DATE {{C}}" in
  let order := [(lit "A", JStr (lit "yes")); (lit "B", JStr (lit "hi"))] in
  renderTemplate App.buildLineItemsTable (lit "1/1/2026") template order
  = renderTemplate App.buildLineItemsTable (lit "1/2/2026") template order
  /\ renderTemplate App.buildLineItemsTable (lit "1/1/2026")
       (lit "{{B}}") order
     = renderTemplate App.buildLineItemsTable (lit "1/2/2026")
         (lit "{{B}}") order.
Proof.
  split.
  - refine (proj1 (render_deterministic App.buildLineItemsTable
                     (lit "1/1/2026") (lit "1/2/2026")
                     (lit "{{#A}}{{B}}{{/A}} on PRINT_DATE {{C}}")
                     [(lit "A", JStr (lit "yes")); (lit "B", JStr (lit "hi"))])
                  (lit "{{B}} on PRINT_DATE {{C}}") _ _).
    + vm_compute. reflexivity.
    + vm_compute. reflexivity.
  - refine (proj1 (proj2 (render_deterministic App.buildLineItemsTable
                     (lit "1/1/2026") (lit "1/2/2026") (lit "{{B}}")
                     [(lit "A", JStr (lit "yes")); (lit "B", JStr (lit "hi"))]))
                  _ _).
    + vm_compute. reflexivity.
    + vm_compute. reflexivity.
Defined.

(** C7 as stated fails: a template that contains neither the print-date
    placeholder nor its token can still render the date, once the
    conditional pass has removed a block from the middle of a placeholder. *)
Lemma print_date_assembled_by_conditional_pass :
  let template := lit "{{PRINT_{{#A}}x{{/A}}DATE}}" in
  includes PRINT_DATE template = false
  /\ includes (Stated.placeholder PRINT_DATE) template = false
  /\ renderTemplate App.buildLineItemsTable (lit "1/1/2026") template []
     = Ok (lit "1/1/2026")
  /\ renderTemplate App.buildLineItemsTable (lit "1/1/2026") template []
     <> renderTemplate App.buildLineItemsTable (lit "1/2/2026") template [].
Proof.
  split; [|split; [|split]]; try (vm_compute; reflexivity).
  intros F. vm_compute in F. discriminate F.
Qed.

(** What one code unit is escaped to: itself when it is not special, and
    otherwise an entity, which starts with [&] and holds no other special
    code unit. *)
Lemma escapeChar_cases (c : N) :
  (Stated.escapeChar c = [c]
   /\ c <> AMP /\ c <> LT /\ c <> GT /\ c <> QUOT)
  \/ (exists tail, Stated.escapeChar c = AMP :: tail
        /\ ~ In AMP tail /\ ~ In LT tail /\ ~ In GT tail /\ ~ In QUOT tail
        /\ In tail [lit "amp;"; lit "lt;"; lit "gt;"; lit "quot;"]).
Proof.
  unfold Stated.escapeChar.
  destruct (c =? AMP)%N eqn:E1.
  { right. exists (lit "amp;"). split; [reflexivity|].
    repeat split; try (apply notIn_existsb; reflexivity). now left. }
  destruct (c =? LT)%N eqn:E2.
  { right. exists (lit "lt;"). split; [reflexivity|].
    repeat split; try (apply notIn_existsb; reflexivity). right. now left. }
  destruct (c =? GT)%N eqn:E3.
  { right. exists (lit "gt;"). split; [reflexivity|].
    repeat split; try (apply notIn_existsb; reflexivity).
    right. right. now left. }
  destruct (c =? QUOT)%N eqn:E4.
  { right. exists (lit "quot;"). split; [reflexivity|].
    repeat split; try (apply notIn_existsb; reflexivity).
    right. right. right. now left. }
  left. apply N.eqb_neq in E1, E2, E3, E4. tauto.
Qed.

Lemma escaped_has_no (x : N) (s : jsstring) :
  x = LT \/ x = GT \/ x = QUOT ->
  ~ In x (flat_map Stated.escapeChar s).
Proof.
  intros Hx. induction s as [|c s IH]; [intros []|].
  cbn [flat_map]. rewrite in_app_iff. intros [H|H]; [|exact (IH H)].
  destruct (escapeChar_cases c) as [[E N]|[tail [E N]]]; rewrite E in H.
  - destruct H as [H|[]]. subst c. intuition congruence.
  - destruct H as [H|H].
    + subst x. destruct Hx as [Hx|[Hx|Hx]]; discriminate Hx.
    + destruct Hx as [Hx|[Hx|Hx]]; subst x; tauto.
Qed.












Lemma App_lineItemRow_shape (item : jsval) (row : jsstring) :
  App.lineItemRow item = Ok row ->
  exists detail qty, row = App.rowMarkup detail qty.
Proof.
  destruct item; unfold App.lineItemRow; cbn [getProp bind]; intros H;
    try discriminate H; injection H as <-; eauto.
Qed.

Lemma Designer_lineItemRow_shape (item : jsval) (row : jsstring) :
  Designer.lineItemRow item = Ok row ->
  exists detail qty, row = Designer.rowMarkup detail qty.
Proof.
  destruct item; unfold Designer.lineItemRow; cbn [getProp bind]; intros H;
    try discriminate H; injection H as <-; eauto.
Qed.

(** ** The claims on the line-items table *)

Lemma table_is_not_message (rows : jsstring) :
  App.TABLE_HEAD ++ rows ++ App.TABLE_TAIL <> App.NO_LINE_ITEMS
  /\ Designer.TABLE_HEAD ++ rows ++ Designer.TABLE_TAIL
     <> Designer.NO_LINE_ITEMS.
Proof.
  split; intros F; apply (f_equal (firstn 2)) in F; vm_compute in F;
    discriminate F.
Qed.





Lemma jsOr_assoc (a b c : jsval) : jsOr (jsOr a b) c = jsOr a (jsOr b c).
Proof.
  unfold jsOr. destruct (truthy a) eqn:A; [now rewrite A|reflexivity].
Qed.

Lemma firstTruthy_chain (fields : obj) (keys : list jsstring) :
  Stated.firstTruthy fields keys
  = fold_right (fun k acc => jsOr (get fields k) acc) (JStr []) keys.
Proof.
  induction keys as [|k keys IH]; [reflexivity|].
  simpl. unfold jsOr at 1. now rewrite IH.
Qed.

(** What a line item of the data model gives under a name: a scalar of
    its own, or [undefined], or an inherited member, which counts as true
    and has a display string that is not empty. *)
Lemma get_scalar (fields : obj) (k : jsstring) :
  forallb (fun kv => Stated.isScalar (snd kv)) fields = true ->
  get fields k = JUndefined \/ Stated.isScalar (get fields k) = true
  \/ (truthy (get fields k) = true
      /\ isEmpty (toString (get fields k)) = false).
Proof.
  intros H. destruct (getOwn fields k) as [v|] eqn:E.
  - right. left. rewrite (get_own _ _ _ E).
    destruct (getOwn_In _ _ _ E) as [k' I].
    rewrite forallb_forall in H. exact (H _ I).
  - rewrite (get_inherited _ _ E). unfold get. cbn [getOwn].
    destruct (getOwn OBJECT_PROTOTYPE k) as [v|] eqn:P; [|now left].
    right. right. destruct (getOwn_In _ _ _ P) as [k' I].
    assert (A : forallb (fun kv => truthy (snd kv)
                                   && negb (isEmpty (toString (snd kv))))
                        OBJECT_PROTOTYPE = true) by (vm_compute; reflexivity).
    rewrite forallb_forall in A. specialize (A _ I). cbn [snd] in A.
    apply andb_prop in A as [A B]. split; [exact A|].
    now destruct (isEmpty (toString v)).
Qed.

Lemma numberToString_nonempty (z : Z) : isEmpty (numberToString z) = false.
Proof.
  unfold numberToString. destruct z as [|p|p]; simpl; try reflexivity.
  destruct (Pos.to_uint p); reflexivity.
Qed.

Lemma numeral_nonempty (d : jsstring) :
  Stated.isNumeral d = true -> isEmpty d = false.
Proof. unfold Stated.isNumeral. now destruct d. Qed.

Lemma firstTruthy_firstNonEmpty (fields : obj) (keys : list jsstring) :
  Stated.isLineItem (JObj fields) = true ->
  (forall k, In k keys -> get fields k <> JNum 0) ->
  toString (Stated.firstTruthy fields keys) = Stated.firstNonEmpty fields keys.
Proof.
  intros Hs Hz. induction keys as [|k keys IH]; [reflexivity|].
  assert (IH' : toString (Stated.firstTruthy fields keys)
                = Stated.firstNonEmpty fields keys)
    by (apply IH; intros k' Hk'; apply Hz; now right).
  assert (Hk : get fields k <> JNum 0) by (apply Hz; now left).
  cbn [Stated.firstTruthy Stated.firstNonEmpty].
  destruct (get_scalar fields k Hs) as [E|[E|[T E]]].
  - rewrite E. exact IH'.
  - destruct (get fields k) as [| | |d|s| | |]; try discriminate.
    + cbn [truthy isNullish toString negb andb].
      cbn [Stated.isScalar] in E. rewrite (numeral_nonempty d E).
      destruct (str_eqb d (lit "0")) eqn:Z; [|reflexivity].
      apply str_eqb_eq in Z. subst d. now elim Hk.
    + cbn [truthy isNullish toString negb andb].
      destruct (isEmpty s); [exact IH'|reflexivity].
  - rewrite T, E, (truthy_not_nullish _ T). reflexivity.
Qed.

(** C5 (as amended).  In the preview the product text of a line item is
    the first value that counts as true in a condition among [Product
    Name], [Product], [Item], [Order Details], [Description], and the
    quantity the first such value among [Qty], [Quantity], [QTY]; on the
    print path they are the value of [Product Description] and of
    [CakeQty] under the same test; without such a value the empty string
    is rendered.  For a line item of the data model this is the first
    present, non-empty value, as long as no candidate holds the number 0. *)
Theorem product_and_quantity_candidates (fields : obj) :
  Designer.lineItemRow (JObj fields)
  = Ok (Designer.rowMarkup
          (escHtml (Stated.firstTruthy fields Stated.PREVIEW_PRODUCT_KEYS))
          (escHtml (Stated.firstTruthy fields Stated.PREVIEW_QTY_KEYS)))
  /\ (exists subLines,
         App.lineItemRow (JObj fields)
         = Ok (App.rowMarkup
                 (escHtml (Stated.firstTruthy fields Stated.PRINT_PRODUCT_KEYS)
                    ++ subLines)
                 (escHtml (Stated.firstTruthy fields Stated.PRINT_QTY_KEYS))))
  /\ (forall keys : list jsstring,
         Stated.isLineItem (JObj fields) = true ->
         (forall k, In k keys -> get fields k <> JNum 0) ->
         toString (Stated.firstTruthy fields keys)
         = Stated.firstNonEmpty fields keys).
Proof.
  split; [|split].
  - unfold Designer.lineItemRow. cbn [getProp bind].
    rewrite !escHtml_String, !firstTruthy_chain. cbn [fold_right].
    unfold Stated.PREVIEW_PRODUCT_KEYS, Stated.PREVIEW_QTY_KEYS.
    cbn [fold_right]. now rewrite !jsOr_assoc.
  - unfold App.lineItemRow. cbn [getProp bind].
    rewrite !escHtml_String, !firstTruthy_chain. eexists. reflexivity.
  - apply firstTruthy_firstNonEmpty.
Qed.

Lemma product_and_quantity_candidates_witness :
  let fields := [(lit "Product", JStr (lit "Cake")); (lit "Qty", JNum 2)] in
  toString (Stated.firstTruthy fields Stated.PREVIEW_QTY_KEYS)
  = Stated.firstNonEmpty fields Stated.PREVIEW_QTY_KEYS.
Proof.
  refine (proj2 (proj2 (product_and_quantity_candidates
            [(lit "Product", JStr (lit "Cake")); (lit "Qty", JNum 2)]))
            Stated.PREVIEW_QTY_KEYS _ _).
  - vm_compute. reflexivity.
  - intros k Hk.
    destruct Hk as [<-|[<-|[<-|[]]]]; vm_compute; discriminate.
Defined.

(** C5 as stated fails: a quantity 0 is present and its display string
    ["0"] is not empty, yet the preview passes over it and shows the next
    candidate, and the printed table shows nothing. *)
Lemma zero_quantity_passed_over :
  ~ (forall fields : obj,
        Designer.lineItemRow (JObj fields)
        = Ok (Designer.rowMarkup
                (escHtml (JStr (Stated.firstNonEmpty fields
                                  Stated.PREVIEW_PRODUCT_KEYS)))
                (escHtml (JStr (Stated.firstNonEmpty fields
                                  Stated.PREVIEW_QTY_KEYS)))))
  /\ App.lineItemRow (JObj [(lit "CakeQty", JNum 0)])
     = Ok (App.rowMarkup [] [])
  /\ Stated.firstNonEmpty [(lit "CakeQty", JNum 0)] Stated.PRINT_QTY_KEYS
     = lit "0".
Proof.
  split; [|split].
  - intros H.
    specialize (H [(lit "Qty", JNum 0); (lit "Quantity", JNum 3)]).
    vm_compute in H. discriminate H.
  - vm_compute. reflexivity.
  - vm_compute. reflexivity.
Qed.

Lemma get_cons_other (k k' : jsstring) (v : jsval) (fields : obj) :
  k <> k' -> get ((k, v) :: fields) k' = get fields k'.
Proof. intros H. unfold get. simpl. now rewrite (str_eqb_neq _ _ H). Qed.

Ltac pick_key := repeat first [ left; reflexivity | right ].

(** C6 (as amended).  In the printed table the detail cell of a line item
    holds, after the product text, one sub-line for each of [Writing
    Notes], [Color], [Add-Ons] and [Line Item Notes], in that order, whose
    value counts as true in a condition, made of its label and its escaped
    value, and no sub-line for the others.  No other field of the item
    changes the row: there is no sub-line for a flavor. *)
Theorem sub_detail_lines (fields : obj) :
  App.lineItemRow (JObj fields)
  = Ok (App.rowMarkup
          (escHtml (Stated.firstTruthy fields Stated.PRINT_PRODUCT_KEYS)
             ++ concat (map (Stated.subLineMarkup fields)
                            (filter (fun d => truthy (get fields (fst d)))
                                    Stated.SUB_DETAILS)))
          (escHtml (Stated.firstTruthy fields Stated.PRINT_QTY_KEYS)))
  /\ (forall (k : jsstring) (v : jsval),
         ~ In k Stated.PRINT_ITEM_KEYS ->
         App.lineItemRow (JObj ((k, v) :: fields))
         = App.lineItemRow (JObj fields)).
Proof.
  split.
  - unfold App.lineItemRow. cbn [getProp bind].
    rewrite !escHtml_String, !firstTruthy_chain, joinWith_nil.
    unfold Stated.SUB_DETAILS, Stated.subLineMarkup, App.subLine.
    cbn [filter fst snd].
    destruct (truthy (get fields (lit "Writing Notes")));
      destruct (truthy (get fields (lit "Color")));
      destruct (truthy (get fields (lit "Add-Ons")));
      destruct (truthy (get fields (lit "Line Item Notes")));
      reflexivity.
  - intros k v Hk.
    assert (G : forall k', In k' Stated.PRINT_ITEM_KEYS ->
                           get ((k, v) :: fields) k' = get fields k').
    { intros k' Hk'. apply get_cons_other. intros ->. now apply Hk. }
    unfold App.lineItemRow. cbn [getProp bind].
    rewrite (G (lit "Product Description")) by (vm_compute; pick_key).
    rewrite (G (lit "Writing Notes")) by (vm_compute; pick_key).
    rewrite (G (lit "Color")) by (vm_compute; pick_key).
    rewrite (G (lit "Add-Ons")) by (vm_compute; pick_key).
    rewrite (G (lit "Line Item Notes")) by (vm_compute; pick_key).
    rewrite (G (lit "CakeQty")) by (vm_compute; pick_key).
    reflexivity.
Qed.

Lemma sub_detail_lines_witness :
  App.lineItemRow
    (JObj [(lit "Flavor", JStr (lit "Vanilla"));
           (lit "Color", JStr (lit "Red"))])
  = App.lineItemRow (JObj [(lit "Color", JStr (lit "Red"))]).
Proof.
  refine (proj2 (sub_detail_lines [(lit "Color", JStr (lit "Red"))])
                (lit "Flavor") (JStr (lit "Vanilla")) _).
  intros H. vm_compute in H.
  repeat (destruct H as [H|H]; [discriminate H|]). exact H.
Defined.

(** C6 as stated fails: a line item with a flavor gets no sub-line for it
    in the printed table, and the table of the preview has no sub-lines at
    all. *)
Lemma flavor_has_no_sub_line :
  App.lineItemRow
    (JObj [(lit "Product Description", JStr (lit "Cake"));
           (lit "Flavor", JStr (lit "Vanilla"))])
  = Ok (App.rowMarkup (lit "Cake") [])
  /\ includes (lit "Vanilla") (App.rowMarkup (lit "Cake") []) = false
  /\ Designer.lineItemRow
       (JObj [(lit "Product", JStr (lit "Cake"));
              (lit "Writing Notes", JStr (lit "Happy Birthday"))])
     = Ok (Designer.rowMarkup (lit "Cake") []).
Proof. split; [|split]; vm_compute; reflexivity. Qed.

(** ** The field catalog *)

Lemma getOwn_unique (order : obj) :
  NoDup (keys order) ->
  forall kv, In kv order -> getOwn order (fst kv) = Some (snd kv).
Proof.
  induction order as [|[k0 v0] o IH]; intros Hnd kv Hin; [contradiction|].
  simpl in Hnd. inversion Hnd as [|? ? Hk0 Ho]; subst.
  simpl. destruct Hin as [<-|Hin].
  - simpl. now rewrite str_eqb_refl.
  - rewrite str_eqb_neq; [now apply IH|].
    intros ->. apply Hk0. unfold keys. now apply in_map.
Qed.

Lemma orderFields_entries (order l : obj) :
  (forall kv, In kv l -> getOwn order (fst kv) = Some (snd kv)) ->
  map (fun k => {| Designer.key := k;
                   Designer.note :=
                     slice0 40 (toString (nullish (get order k) (JStr []))) |})
      (filter (fun k => negb (str_eqb k (lit "Line Items"))) (keys l))
  = map (fun kv => {| Designer.key := fst kv;
                      Designer.note := Stated.preview (snd kv) |})
        (filter (fun kv => negb (str_eqb (fst kv) (lit "Line Items"))) l).
Proof.
  induction l as [|[k v] l IH]; intros H; [reflexivity|].
  assert (IH' := IH (fun kv Hkv => H kv (or_intror Hkv))).
  unfold keys in *. cbn [map filter fst snd].
  destruct (negb (str_eqb k (lit "Line Items"))); [|exact IH'].
  cbn [map fst snd]. rewrite IH'. f_equal. unfold get.
  assert (E := H (k, v) (or_introl eq_refl)). cbn [fst snd] in E.
  now rewrite E.
Qed.

(** C8.  The field catalog of an order (whose keys are distinct, as those
    of an object are) holds one entry per field in the order of
    [Object.keys], the field [Line Items] left out, each with the display
    string of its value cut to its first 40 code units and nothing added,
    followed by the entry of the line-items table and then the entry of
    the print date. *)
Theorem field_catalog (order : obj) :
  NoDup (keys order) ->
  Designer.allFields order
  = map (fun kv => {| Designer.key := fst kv;
                      Designer.note := Stated.preview (snd kv) |})
        (filter (fun kv => negb (str_eqb (fst kv) (lit "Line Items"))) order)
      ++ Designer.specialFields
  /\ map Designer.key Designer.specialFields = [LINE_ITEMS_TABLE; PRINT_DATE]
  /\ (forall v : jsval,
         List.length (Stated.preview v) <= 40
         /\ (exists rest, toString (nullish v (JStr []))
                          = Stated.preview v ++ rest)
         /\ (isNullish v = false ->
             Stated.preview v = firstn 40 (toString v))).
Proof.
  intros Hnd. split; [|split].
  - unfold Designer.allFields, Designer.orderFields. f_equal.
    apply orderFields_entries, getOwn_unique, Hnd.
  - reflexivity.
  - intros v. unfold Stated.preview. repeat split.
    + apply firstn_le_length.
    + exists (skipn 40 (toString (nullish v (JStr [])))).
      symmetry. apply firstn_skipn.
    + now destruct v.
Qed.

Lemma field_catalog_witness :
  let order := [(lit "X", JNum 1); (lit "Y", JNum 2);
                (lit "Line Items", JArr [])] in
  Designer.allFields order
  = [ {| Designer.key := lit "X"; Designer.note := lit "1" |};
      {| Designer.key := lit "Y"; Designer.note := lit "2" |} ]
      ++ Designer.specialFields.
Proof.
  refine (proj1 (field_catalog
                   [(lit "X", JNum 1); (lit "Y", JNum 2);
                    (lit "Line Items", JArr [])] _)).
  repeat constructor; simpl; intros H;
    repeat (destruct H as [H|H]; [discriminate H|]); exact H.
Defined.

(** An order of the data model has readable line items. *)
Lemma order_record_readable (order : obj) :
  Stated.isOrderRecord order = true -> Stated.lineItemsReadable order = true.
Proof.
  unfold Stated.lineItemsReadable, get.
  induction order as [|[k v] o IH]; intros H; [reflexivity|].
  cbn [Stated.isOrderRecord forallb fst snd] in H.
  apply andb_true_iff in H as [Hkv Ho].
  cbn [getOwn]. destruct (str_eqb k (lit "Line Items")); [|now apply IH].
  destruct v as [| | | | |items| |]; try discriminate.
  cbn [elements]. apply forallb_forall. intros item Hin.
  rewrite forallb_forall in Hkv. specialize (Hkv item Hin).
  now destruct item.
Qed.

(** ** The worked examples of the specification *)

Lemma render_empty bt (today : jsstring) (order : obj) :
  renderTemplate bt today [] order = Ok [].
Proof. reflexivity. Qed.

(** A template without [{{] is rendered as it is. *)
Lemma render_literal bt (today : jsstring) (order : obj) (t : jsstring) :
  includes (lit "{{") t = false -> renderTemplate bt today t order = Ok t.
Proof.
  intros H. unfold renderTemplate.
  rewrite resolveConditionals_unopened by assumption. cbn [bind].
  now apply replacePlaceholders_unopened.
Qed.

Example render_status_empty :
  renderTemplate App.buildLineItemsTable (lit "1/1/2026")
    (lit "{{#Status}}X{{/Status}}") [(lit "Status", JStr [])]
  = Ok [].
Proof. vm_compute. reflexivity. Qed.

Example render_status_shipped :
  renderTemplate App.buildLineItemsTable (lit "1/1/2026")
    (lit "{{#Status}}X{{/Status}}") [(lit "Status", JStr (lit "Shipped"))]
  = Ok (lit "X").
Proof. vm_compute. reflexivity. Qed.

Example render_missing :
  renderTemplate App.buildLineItemsTable (lit "1/1/2026")
    (lit "{{Missing}}") []
  = Ok [].
Proof. vm_compute. reflexivity. Qed.

Example render_escaped :
  renderTemplate App.buildLineItemsTable (lit "1/1/2026") (lit "{{Name}}")
    [(lit "Name", JStr (lit "<b>&" ++ dq "x" ++ lit "</b>"))]
  = Ok (lit "&lt;b&gt;&amp;&quot;x&quot;&lt;/b&gt;").
Proof. vm_compute. reflexivity. Qed.

Example render_block_interior :
  renderTemplate App.buildLineItemsTable (lit "1/1/2026")
    (lit "{{#A}}{{B}}{{/A}}")
    [(lit "A", JStr (lit "yes")); (lit "B", JStr (lit "hi"))]
  = Ok (lit "hi").
Proof. vm_compute. reflexivity. Qed.

(** Numbers with a fraction, and what an order inherits. *)
Example render_fraction :
  renderTemplate App.buildLineItemsTable (lit "1/1/2026")
    (lit "{{#Price}}{{Price}}{{/Price}}")
    [(lit "Price", JNumber (lit "0.5"))]
  = Ok (lit "0.5").
Proof. vm_compute. reflexivity. Qed.

Example render_inherited :
  renderTemplate App.buildLineItemsTable (lit "1/1/2026")
    (lit "{{#toString}}X{{/toString}}") []
  = Ok (lit "X")
  /\ renderTemplate App.buildLineItemsTable (lit "1/1/2026")
       (lit "{{__proto__}}") []
     = Ok (lit "[object Object]")
  /\ renderTemplate App.buildLineItemsTable (lit "1/1/2026")
       (lit "{{constructor}}") [(lit "constructor", JStr (lit "mine"))]
     = Ok (lit "mine").
Proof. repeat split; vm_compute; reflexivity. Qed.

Example table_of_nothing :
  App.buildLineItemsTable [] = Ok App.NO_LINE_ITEMS
  /\ App.buildLineItemsTable [(lit "Line Items", JArr [])]
     = Ok App.NO_LINE_ITEMS.
Proof. split; vm_compute; reflexivity. Qed.

Example table_of_one_cake :
  App.buildLineItemsTable
    [(lit "Line Items",
      JArr [JObj [(lit "Product Description", JStr (lit "Cake"));
                  (lit "CakeQty", JNum 2)]])]
  = Ok (App.TABLE_HEAD ++ App.rowMarkup (lit "Cake") (lit "2")
          ++ App.TABLE_TAIL).
Proof. vm_compute. reflexivity. Qed.

(* ================================================================= *)
(** * Beyond the specification: more of the code *)

(** ** [escHtml]: what the output can hold *)

Lemma escapeChar_nonempty (c : N) : Stated.escapeChar c <> [].
Proof.
  unfold Stated.escapeChar.
  destruct (c =? AMP)%N; [discriminate|].
  destruct (c =? LT)%N; [discriminate|].
  destruct (c =? GT)%N; [discriminate|].
  destruct (c =? QUOT)%N; discriminate.
Qed.

(** Where [x] stands in [l ++ r] and not in [l], it stands in [r]. *)
Lemma split_after (x : N) (l r a b : jsstring) :
  ~ In x l -> l ++ r = a ++ x :: b ->
  exists a', a = l ++ a' /\ r = a' ++ x :: b.
Proof.
  revert a. induction l as [|y l IH]; intros a Hn H.
  - exists a. split; [reflexivity|exact H].
  - destruct a as [|z a]; simpl in H.
    + injection H as H1 _. exfalso. apply Hn. now left.
    + injection H as H1 H2. subst z.
      destruct (IH a (fun K => Hn (or_intror K)) H2) as [a' [-> ->]].
      exists a'. split; reflexivity.
Qed.

Lemma escaped_amp (s a b : jsstring) :
  flat_map Stated.escapeChar s = a ++ AMP :: b ->
  exists name rest,
    In name [lit "amp;"; lit "lt;"; lit "gt;"; lit "quot;"]
    /\ b = name ++ rest.
Proof.
  revert a. induction s as [|c s IH]; intros a H.
  - destruct a; discriminate H.
  - cbn [flat_map] in H.
    destruct (escapeChar_cases c) as [[E N]|[tail [E [N1 [_ [_ [_ N5]]]]]]];
      rewrite E in H.
    + destruct a as [|z a]; simpl in H.
      * injection H as H1 _. tauto.
      * injection H as _ H2. exact (IH a H2).
    + destruct a as [|z a]; simpl in H.
      * injection H as H. exists tail, (flat_map Stated.escapeChar s).
        split; [exact N5|]. now rewrite H.
      * injection H as _ H2.
        destruct (split_after AMP tail _ a b N1 H2) as [a' [_ H3]].
        exact (IH a' H3).
Qed.

(** X1.  Whatever the value, the escaped text holds no [<], no [>] and no
    double quote, and every [&] in it starts one of the four entities
    [&amp;], [&lt;], [&gt;], [&quot;]: an escaped value can neither open or
    close a tag, nor end a double-quoted attribute, nor start an entity of
    its own. *)
Theorem escHtml_output_is_inert (v : jsval) :
  ~ In LT (escHtml v) /\ ~ In GT (escHtml v) /\ ~ In QUOT (escHtml v)
  /\ forall a b, escHtml v = a ++ AMP :: b ->
       exists name rest,
         In name [lit "amp;"; lit "lt;"; lit "gt;"; lit "quot;"]
         /\ b = name ++ rest.
Proof.
  rewrite escHtml_chars. split; [|split; [|split]].
  - apply escaped_has_no. now left.
  - apply escaped_has_no. right. now left.
  - apply escaped_has_no. right. now right.
  - intros a b. apply escaped_amp.
Qed.

Lemma escapeChar_entity_inj (x y : N) (t : jsstring) :
  Stated.escapeChar x = AMP :: t -> Stated.escapeChar y = AMP :: t -> x = y.
Proof.
  unfold Stated.escapeChar.
  destruct (x =? AMP)%N eqn:X1; destruct (x =? LT)%N eqn:X2;
    destruct (x =? GT)%N eqn:X3; destruct (x =? QUOT)%N eqn:X4;
    destruct (y =? AMP)%N eqn:Y1; destruct (y =? LT)%N eqn:Y2;
    destruct (y =? GT)%N eqn:Y3; destruct (y =? QUOT)%N eqn:Y4;
    intros Ex Ey;
    repeat match goal with
           | H : (_ =? _)%N = true |- _ => apply N.eqb_eq in H
           | H : (_ =? _)%N = false |- _ => apply N.eqb_neq in H
           end;
    cbv in *; congruence.
Qed.

Lemma escaped_injective (s t : jsstring) :
  flat_map Stated.escapeChar s = flat_map Stated.escapeChar t -> s = t.
Proof.
  revert t. induction s as [|x s IH]; intros [|y t] H; cbn [flat_map] in H.
  - reflexivity.
  - symmetry in H. apply app_eq_nil in H. destruct H as [H _].
    now apply escapeChar_nonempty in H.
  - apply app_eq_nil in H. destruct H as [H _].
    now apply escapeChar_nonempty in H.
  - destruct (escapeChar_cases x) as [[Ex Nx]|[tx [Ex [Ax [_ [_ [_ Ix]]]]]]];
      destruct (escapeChar_cases y) as [[Ey Ny]|[ty [Ey [Ay [_ [_ [_ Iy]]]]]]];
      rewrite Ex, Ey in H; simpl in H.
    + injection H as H1 H2. subst y. f_equal. exact (IH _ H2).
    + injection H as H1 _. tauto.
    + injection H as H1 _. symmetry in H1. tauto.
    + injection H as H.
      assert (tx = ty) as T.
      { simpl in Ix, Iy.
        destruct Ix as [<-|[<-|[<-|[<-|[]]]]];
          destruct Iy as [<-|[<-|[<-|[<-|[]]]]];
          first [reflexivity | discriminate H]. }
      subst ty. apply app_inv_head in H.
      assert (x = y) as XY by exact (escapeChar_entity_inj x y tx Ex Ey).
      subst y. f_equal. exact (IH _ H).
Qed.

(** X2.  Escaping loses nothing: two values with the same escaped text
    have the same display string. *)
Theorem escHtml_injective (a b : jsval) :
  escHtml a = escHtml b -> toString a = toString b.
Proof. rewrite !escHtml_chars. apply escaped_injective. Qed.

Lemma escHtml_injective_witness :
  toString (JNum 7) = toString (JStr (lit "7")).
Proof. apply (escHtml_injective (JNum 7) (JStr (lit "7"))). reflexivity. Defined.

(** ** [toISODate] *)

Lemma spanDigits_eq (s a b : jsstring) :
  spanDigits s = (a, b) ->
  s = a ++ b /\ Stated.allDigits a = true
  /\ match b with [] => True | c :: _ => isDigit c = false end.
Proof.
  revert a b. induction s as [|x s IH]; intros a b H; simpl in H.
  - injection H as <- <-. repeat split.
  - destruct (isDigit x) eqn:D.
    + destruct (spanDigits s) as [run rest]. injection H as <- <-.
      destruct (IH _ _ eq_refl) as [-> [A B]].
      split; [reflexivity|]. split; [|exact B].
      unfold Stated.allDigits. simpl. now rewrite D.
    + injection H as <- <-. repeat split. exact D.
Qed.

Lemma spanDigits_app (a b : jsstring) :
  Stated.allDigits a = true ->
  match b with [] => True | c :: _ => isDigit c = false end ->
  spanDigits (a ++ b) = (a, b).
Proof.
  intros A B. induction a as [|x a IH]; simpl.
  - destruct b as [|c b]; [reflexivity|]. simpl. now rewrite B.
  - unfold Stated.allDigits in A. simpl in A.
    apply andb_true_iff in A. destruct A as [D A].
    rewrite D, (IH A). reflexivity.
Qed.

Lemma matchUSDate_sound (s m d y : jsstring) :
  App.matchUSDate s = Some (m, d, y) ->
  s = Stated.usDate m d y /\ Stated.wellFormedDate m d y = true.
Proof.
  unfold App.matchUSDate. intros H.
  destruct (spanDigits s) as [m' s1] eqn:E1.
  destruct ((1 <=? List.length m') && (List.length m' <=? 2)) eqn:L1;
    [|discriminate].
  destruct (stripPrefix (lit "/") s1) as [s2|] eqn:P1; [|discriminate].
  destruct (spanDigits s2) as [d' s3] eqn:E2.
  destruct ((1 <=? List.length d') && (List.length d' <=? 2)) eqn:L2;
    [|discriminate].
  destruct (stripPrefix (lit "/") s3) as [s4|] eqn:P2; [|discriminate].
  destruct (spanDigits s4) as [y' s5] eqn:E3.
  destruct ((List.length y' =? 4) && isEmpty s5) eqn:L3; [|discriminate].
  injection H as -> -> ->.
  apply spanDigits_eq in E1, E2, E3.
  destruct E1 as [-> [A1 _]], E2 as [-> [A2 _]], E3 as [-> [A3 _]].
  apply stripPrefix_Some in P1, P2. subst s1 s3.
  apply andb_true_iff in L3. destruct L3 as [L3 L4].
  destruct s5; [|discriminate]. rewrite app_nil_r.
  split; [reflexivity|].
  unfold Stated.wellFormedDate. rewrite A1, A2, A3, L3.
  apply andb_true_iff in L1, L2. destruct L1 as [-> ->], L2 as [-> ->].
  reflexivity.
Qed.

Lemma wellFormedDate_inv (m d y : jsstring) :
  Stated.wellFormedDate m d y = true ->
  Stated.allDigits m = true /\ Stated.allDigits d = true
  /\ Stated.allDigits y = true
  /\ (1 <=? List.length m) = true /\ (List.length m <=? 2) = true
  /\ (1 <=? List.length d) = true /\ (List.length d <=? 2) = true
  /\ List.length y = 4.
Proof.
  unfold Stated.wellFormedDate. intros W.
  repeat (apply andb_true_iff in W; destruct W as [W ?]).
  apply Nat.eqb_eq in H. tauto.
Qed.

Lemma matchUSDate_complete (m d y : jsstring) :
  Stated.wellFormedDate m d y = true ->
  App.matchUSDate (Stated.usDate m d y) = Some (m, d, y).
Proof.
  intros W. apply wellFormedDate_inv in W.
  destruct W as [Am [Ad [Ay [M1 [M2 [D1 [D2 Y]]]]]]].
  unfold App.matchUSDate, Stated.usDate.
  rewrite (spanDigits_app m); [|assumption|reflexivity].
  rewrite M1, M2. cbn [andb]. rewrite stripPrefix_app.
  rewrite (spanDigits_app d); [|assumption|reflexivity].
  rewrite D1, D2. cbn [andb]. rewrite stripPrefix_app.
  rewrite <- (app_nil_r y) at 1.
  rewrite (spanDigits_app y []); [|assumption|exact I].
  rewrite Y. reflexivity.
Qed.

Lemma padStart2_length (s : jsstring) :
  (1 <=? List.length s) = true -> (List.length s <=? 2) = true ->
  List.length (padStart2 s) = 2.
Proof.
  destruct s as [|a [|b [|c s]]]; simpl; intros H1 H2;
    first [reflexivity | discriminate].
Qed.

Lemma toISODate_sheet_date (m d y : jsstring) :
  Stated.wellFormedDate m d y = true ->
  App.toISODate (JStr (Stated.usDate m d y))
  = Ok (y ++ lit "-" ++ padStart2 m ++ lit "-" ++ padStart2 d).
Proof.
  intros W. unfold App.toISODate. rewrite (matchUSDate_complete _ _ _ W).
  unfold Stated.usDate. destruct m as [|c m]; [|reflexivity].
  unfold Stated.wellFormedDate in W. simpl in W.
  rewrite !andb_false_r in W. discriminate W.
Qed.

(** X3.  A date of the sheet, month/day/year with one or two digits for
    the month and the day and four for the year, is rewritten as
    year-month-day with the month and the day padded to two digits: ten
    code units in all. *)
Theorem toISODate_rewrites_sheet_dates (m d y : jsstring) :
  Stated.wellFormedDate m d y = true ->
  App.toISODate (JStr (Stated.usDate m d y))
  = Ok (y ++ lit "-" ++ padStart2 m ++ lit "-" ++ padStart2 d)
  /\ List.length (y ++ lit "-" ++ padStart2 m ++ lit "-" ++ padStart2 d) = 10.
Proof.
  intros W. split; [exact (toISODate_sheet_date _ _ _ W)|].
  apply wellFormedDate_inv in W.
  destruct W as [Am [Ad [Ay [M1 [M2 [D1 [D2 Y]]]]]]].
  rewrite !length_app, !padStart2_length, Y by assumption. reflexivity.
Qed.

Lemma toISODate_rewrites_sheet_dates_witness :
  App.toISODate (JStr (lit "3/5/2025")) = Ok (lit "2025-03-05")
  /\ List.length (lit "2025-03-05") = 10.
Proof.
  exact (toISODate_rewrites_sheet_dates (lit "3") (lit "5") (lit "2025")
           eq_refl).
Defined.

Lemma iso_is_no_sheet_date (m d y : jsstring) :
  Stated.wellFormedDate m d y = true ->
  App.matchUSDate (y ++ lit "-" ++ padStart2 m ++ lit "-" ++ padStart2 d)
  = None.
Proof.
  intros W. apply wellFormedDate_inv in W.
  destruct W as [Am [Ad [Ay [M1 [M2 [D1 [D2 Y]]]]]]].
  unfold App.matchUSDate.
  rewrite (spanDigits_app y); [|assumption|reflexivity].
  rewrite Y. reflexivity.
Qed.

(** X4.  [toISODate] is idempotent: what it returns it leaves as it is,
    so a date that is already in ISO form, or in no known form, goes
    through unchanged however often it is converted. *)
Theorem toISODate_idempotent (v : jsval) (r : jsstring) :
  App.toISODate v = Ok r -> App.toISODate (JStr r) = Ok r.
Proof.
  unfold App.toISODate at 1.
  destruct (truthy v) eqn:T; cbn [negb].
  - destruct v as [| |b|z|s|l|o|f]; try discriminate.
    destruct (App.matchUSDate s) as [[[m d] y]|] eqn:M.
    + intros H.
      assert (r = y ++ lit "-" ++ padStart2 m ++ lit "-" ++ padStart2 d)
        as -> by congruence.
      apply matchUSDate_sound in M. destruct M as [_ W].
      unfold App.toISODate. rewrite (iso_is_no_sheet_date _ _ _ W).
      destruct y as [|c y]; [|reflexivity].
      unfold Stated.wellFormedDate in W. simpl in W.
      rewrite !andb_false_r in W. discriminate W.
    + intros H. injection H as <-. unfold App.toISODate. rewrite M.
      simpl in T. now destruct s.
  - intros H. injection H as <-. reflexivity.
Qed.

Lemma toISODate_idempotent_witness :
  App.toISODate (JStr (lit "2025-12-25")) = Ok (lit "2025-12-25").
Proof.
  apply (toISODate_idempotent (JStr (lit "12/25/2025"))). reflexivity.
Defined.

(** ** Dates in ISO form compare as the days they name *)

Lemma str_ltb_app (a b x y : jsstring) :
  List.length a = List.length b ->
  str_ltb (a ++ x) (b ++ y) = str_ltb a b || (str_eqb a b && str_ltb x y).
Proof.
  revert b. induction a as [|c a IH]; intros [|e b] L; try discriminate L.
  - simpl. now destruct x, y.
  - simpl. injection L as L. rewrite (IH b L).
    destruct (c <? e)%N; [reflexivity|]. simpl.
    destruct (c =? e)%N; reflexivity.
Qed.

Lemma str_eqb_app (a b x y : jsstring) :
  List.length a = List.length b ->
  str_eqb (a ++ x) (b ++ y) = str_eqb a b && str_eqb x y.
Proof.
  revert b. induction a as [|c a IH]; intros [|e b] L; try discriminate L.
  - reflexivity.
  - simpl. injection L as L. rewrite (IH b L). now rewrite andb_assoc.
Qed.

Lemma digitsValue_acc (s : jsstring) (acc : N) :
  fold_left (fun a c => (a * 10 + (c - 48))%N) s acc
  = (acc * 10 ^ N.of_nat (List.length s) + Stated.digitsValue s)%N.
Proof.
  unfold Stated.digitsValue. revert acc.
  induction s as [|c s IH]; intros acc.
  - simpl. lia.
  - cbn [fold_left List.length]. rewrite IH, (IH (0 * 10 + (c - 48))%N).
    rewrite Nat2N.inj_succ, N.pow_succ_r'. lia.
Qed.

Lemma digitsValue_cons (c : N) (s : jsstring) :
  Stated.digitsValue (c :: s)
  = ((c - 48) * 10 ^ N.of_nat (List.length s) + Stated.digitsValue s)%N.
Proof.
  unfold Stated.digitsValue at 1. cbn [fold_left].
  rewrite digitsValue_acc. lia.
Qed.

Lemma isDigit_range (c : N) : isDigit c = true -> (48 <= c <= 57)%N.
Proof.
  unfold isDigit. intros H. apply andb_true_iff in H.
  destruct H as [H1 H2]. apply N.leb_le in H1, H2. lia.
Qed.

Lemma digitsValue_bound (s : jsstring) :
  Stated.allDigits s = true ->
  (Stated.digitsValue s < 10 ^ N.of_nat (List.length s))%N.
Proof.
  induction s as [|c s IH]; intros A.
  - reflexivity.
  - unfold Stated.allDigits in A. simpl in A.
    apply andb_true_iff in A. destruct A as [D A].
    apply isDigit_range in D. specialize (IH A).
    rewrite digitsValue_cons. cbn [List.length].
    rewrite Nat2N.inj_succ, N.pow_succ_r'. nia.
Qed.

(** Strings of digits of the same length compare as the numbers they
    write. *)
Lemma digits_compare (a b : jsstring) :
  Stated.allDigits a = true -> Stated.allDigits b = true ->
  List.length a = List.length b ->
  str_ltb a b = (Stated.digitsValue a <? Stated.digitsValue b)%N
  /\ str_eqb a b = (Stated.digitsValue a =? Stated.digitsValue b)%N.
Proof.
  revert b. induction a as [|x a IH]; intros [|y b] A B L;
    try discriminate L.
  - split; reflexivity.
  - injection L as L.
    pose proof (digitsValue_bound _ A) as BA.
    pose proof (digitsValue_bound _ B) as BB.
    unfold Stated.allDigits in A, B. simpl in A, B.
    apply andb_true_iff in A, B. destruct A as [Dx A], B as [Dy B].
    pose proof (digitsValue_bound _ A) as Ba.
    pose proof (digitsValue_bound _ B) as Bb.
    apply isDigit_range in Dx, Dy.
    destruct (IH b A B L) as [IH1 IH2].
    cbn [str_ltb str_eqb]. rewrite IH1, IH2, !digitsValue_cons, <- L.
    set (P := (10 ^ N.of_nat (List.length a))%N) in *.
    rewrite <- L in Bb. fold P in Bb.
    set (Va := Stated.digitsValue a) in *.
    set (Vb := Stated.digitsValue b) in *.
    destruct (N.ltb_spec x y) as [Hxy|Hxy];
      destruct (N.eqb_spec x y) as [Exy|Exy];
      destruct (N.ltb_spec Va Vb) as [Hab|Hab];
      destruct (N.eqb_spec Va Vb) as [Eab|Eab];
      cbn [orb andb]; split;
      first [ symmetry; apply N.ltb_lt; nia
            | symmetry; apply N.ltb_ge; nia
            | symmetry; apply N.eqb_eq; nia
            | symmetry; apply N.eqb_neq; nia ].
Qed.

Lemma padStart2_digits (s : jsstring) :
  Stated.allDigits s = true ->
  (1 <=? List.length s) = true -> (List.length s <=? 2) = true ->
  Stated.allDigits (padStart2 s) = true
  /\ Stated.digitsValue (padStart2 s) = Stated.digitsValue s.
Proof.
  destruct s as [|a [|b [|c s]]]; simpl; intros A H1 H2;
    try discriminate; split; try assumption; reflexivity.
Qed.

(** Two dates in ISO form compare as the days they name. *)
Lemma isoDate_compare (m1 d1 y1 m2 d2 y2 : jsstring) :
  Stated.wellFormedDate m1 d1 y1 = true ->
  Stated.wellFormedDate m2 d2 y2 = true ->
  str_ltb (Stated.isoDate m1 d1 y1) (Stated.isoDate m2 d2 y2)
  = (Stated.dayNumber m1 d1 y1 <? Stated.dayNumber m2 d2 y2)%N
  /\ str_eqb (Stated.isoDate m1 d1 y1) (Stated.isoDate m2 d2 y2)
     = (Stated.dayNumber m1 d1 y1 =? Stated.dayNumber m2 d2 y2)%N.
Proof.
  intros W1 W2. unfold Stated.isoDate.
  apply wellFormedDate_inv in W1, W2.
  destruct W1 as [Gm1 [Gd1 [Gy1 [M11 [M12 [D11 [D12 Y1l]]]]]]].
  destruct W2 as [Gm2 [Gd2 [Gy2 [M21 [M22 [D21 [D22 Y2l]]]]]]].
  destruct (padStart2_digits m1) as [Am1 Vm1]; try assumption.
  destruct (padStart2_digits d1) as [Ad1 Vd1]; try assumption.
  destruct (padStart2_digits m2) as [Am2 Vm2]; try assumption.
  destruct (padStart2_digits d2) as [Ad2 Vd2]; try assumption.
  assert (List.length y1 = List.length y2) as Ly by congruence.
  assert (List.length (padStart2 m1) = List.length (padStart2 m2)) as Lm.
  { rewrite !padStart2_length by assumption. reflexivity. }
  assert (List.length (padStart2 d1) = List.length (padStart2 d2)) as Ld.
  { rewrite !padStart2_length by assumption. reflexivity. }
  destruct (digits_compare y1 y2) as [Cy Ey]; try assumption.
  destruct (digits_compare _ _ Am1 Am2 Lm) as [Cm Em].
  destruct (digits_compare _ _ Ad1 Ad2 Ld) as [Cd Ed].
  pose proof (digitsValue_bound _ Am1) as Bm1.
  pose proof (digitsValue_bound _ Am2) as Bm2.
  pose proof (digitsValue_bound _ Ad1) as Bd1.
  pose proof (digitsValue_bound _ Ad2) as Bd2.
  rewrite padStart2_length in Bm1, Bm2, Bd1, Bd2 by assumption.
  change (10 ^ N.of_nat 2)%N with 100%N in *.
  rewrite Vm1 in *. rewrite Vm2 in *. rewrite Vd1 in *. rewrite Vd2 in *.
  rewrite !str_ltb_app, !str_eqb_app by (assumption || reflexivity).
  rewrite <- (app_nil_r (padStart2 d1)), <- (app_nil_r (padStart2 d2)).
  rewrite !str_ltb_app, !str_eqb_app by assumption.
  rewrite Cy, Ey, Cm, Em, Cd, Ed.
  change (str_ltb (lit "-") (lit "-")) with false.
  change (str_eqb (lit "-") (lit "-")) with true.
  change (str_ltb [] []) with false. change (str_eqb [] []) with true.
  unfold Stated.dayNumber.
  set (Y1 := Stated.digitsValue y1) in *.
  set (Y2 := Stated.digitsValue y2) in *.
  set (M1 := Stated.digitsValue m1) in *.
  set (M2 := Stated.digitsValue m2) in *.
  set (D1 := Stated.digitsValue d1) in *.
  set (D2 := Stated.digitsValue d2) in *.
  destruct (N.ltb_spec Y1 Y2); destruct (N.eqb_spec Y1 Y2);
    destruct (N.ltb_spec M1 M2); destruct (N.eqb_spec M1 M2);
    destruct (N.ltb_spec D1 D2); destruct (N.eqb_spec D1 D2);
    cbn [orb andb]; split;
    first [ symmetry; apply N.ltb_lt; lia
          | symmetry; apply N.ltb_ge; lia
          | symmetry; apply N.eqb_eq; lia
          | symmetry; apply N.eqb_neq; lia ].
Qed.

(** X5.  On dates of the sheet the rewriting is faithful to the
    calendar: the results, compared as strings the way the date filters
    compare them, are ordered as the days the dates name. *)
Theorem toISODate_chronological (m1 d1 y1 m2 d2 y2 : jsstring) :
  Stated.wellFormedDate m1 d1 y1 = true ->
  Stated.wellFormedDate m2 d2 y2 = true ->
  exists r1 r2,
    App.toISODate (JStr (Stated.usDate m1 d1 y1)) = Ok r1
    /\ App.toISODate (JStr (Stated.usDate m2 d2 y2)) = Ok r2
    /\ str_ltb r1 r2
       = (Stated.dayNumber m1 d1 y1 <? Stated.dayNumber m2 d2 y2)%N
    /\ str_eqb r1 r2
       = (Stated.dayNumber m1 d1 y1 =? Stated.dayNumber m2 d2 y2)%N.
Proof.
  intros W1 W2.
  exists (Stated.isoDate m1 d1 y1), (Stated.isoDate m2 d2 y2).
  split; [exact (toISODate_sheet_date _ _ _ W1)|].
  split; [exact (toISODate_sheet_date _ _ _ W2)|].
  exact (isoDate_compare _ _ _ _ _ _ W1 W2).
Qed.

Lemma toISODate_chronological_witness :
  exists r1 r2,
    App.toISODate (JStr (lit "12/31/2024")) = Ok r1
    /\ App.toISODate (JStr (lit "1/2/2025")) = Ok r2
    /\ str_ltb r1 r2 = true /\ str_eqb r1 r2 = false.
Proof.
  exact (toISODate_chronological (lit "12") (lit "31") (lit "2024")
           (lit "1") (lit "2") (lit "2025") eq_refl eq_refl).
Defined.

(** ** The filters of the orders list *)

Lemma filterM_filter {A : Type} (p : A -> result bool) (l r : list A) :
  filterM p l = Ok r ->
  r = filter (fun a => match p a with Ok b => b | TypeError => false end) l
  /\ Forall (fun a => exists b, p a = Ok b) l.
Proof.
  revert r. induction l as [|a l IH]; intros r H; simpl in H.
  - injection H as <-. split; [reflexivity|constructor].
  - destruct (p a) as [keep|] eqn:E; [|discriminate H]. cbn [bind] in H.
    destruct (filterM p l) as [rest|]; [|discriminate H]. cbn [bind] in H.
    injection H as <-. destruct (IH rest eq_refl) as [-> F].
    split; [|constructor; eauto].
    simpl. rewrite E. reflexivity.
Qed.

Lemma filterM_all {A : Type} (p : A -> result bool) (l : list A) :
  Forall (fun a => p a = Ok true) l -> filterM p l = Ok l.
Proof.
  induction 1 as [|a l H _ IH]; [reflexivity|].
  simpl. rewrite H, IH. reflexivity.
Qed.

Lemma filterM_throws {A : Type} (p : A -> result bool) (l : list A) (a : A) :
  In a l -> p a = TypeError -> filterM p l = TypeError.
Proof.
  intros I E. induction l as [|b l IH]; [destruct I|].
  simpl. destruct I as [->|I].
  - now rewrite E.
  - destruct (p b); [|reflexivity]. cbn [bind]. now rewrite (IH I).
Qed.

Lemma setHas_In (s : idset) (x : jsstring) : setHas s x = true <-> In x s.
Proof.
  unfold setHas. rewrite existsb_exists. split.
  - intros [y [I E]]. apply str_eqb_eq in E. now subst y.
  - intros I. exists x. split; [exact I|apply str_eqb_refl].
Qed.

Lemma setAdd_In (s : idset) (y x : jsstring) :
  In x (setAdd s y) <-> In x s \/ x = y.
Proof.
  unfold setAdd. destruct (setHas s y) eqn:H.
  - apply setHas_In in H. split; [tauto|]. intros [I | ->]; assumption.
  - rewrite in_app_iff. simpl. intuition congruence.
Qed.

Lemma setDelete_In (s : idset) (y x : jsstring) :
  In x (setDelete s y) <-> In x s /\ x <> y.
Proof.
  unfold setDelete. rewrite filter_In. split; intros [I H]; split; trivial.
  - intros ->. now rewrite str_eqb_refl in H.
  - now rewrite (str_eqb_neq _ _ H).
Qed.

Lemma setOf_In (l : list jsstring) (x : jsstring) : In x (setOf l) <-> In x l.
Proof.
  unfold setOf.
  assert (forall s, In x (fold_left setAdd l s) <-> In x s \/ In x l) as G.
  { induction l as [|y l IH]; intros s; simpl; [tauto|].
    rewrite IH, setAdd_In. intuition congruence. }
  rewrite G. simpl. tauto.
Qed.

(** The filter's test on an order, with a thrown error counted as a
    rejection. *)
Lemma applyFilters_inv lower (f : App.filters) (allOrders filtered : list obj)
    (sel sel' : idset) :
  App.applyFilters lower f allOrders sel = Ok (filtered, sel') ->
  filtered
  = filter (fun o => match App.orderMatches lower f o with
                     | Ok b => b
                     | TypeError => false
                     end) allOrders
  /\ forall id, In id sel' <->
                In id sel /\ exists o, In o filtered /\ App.rowId o = id.
Proof.
  unfold App.applyFilters. intros H.
  destruct (filterM (App.orderMatches lower f) allOrders) as [r|] eqn:E;
    [|discriminate H].
  cbn [bind] in H. injection H as <- <-.
  split; [exact (proj1 (filterM_filter _ _ _ E))|].
  intros id. rewrite filter_In, setHas_In, setOf_In, in_map_iff.
  split; intros [I [o [A B]]]; (split; [exact I|]); exists o; tauto.
Qed.

(** X6.  After [applyFilters] the list holds the orders that pass the
    filter, in the order of [allOrders], and the selection is cut down to
    the ids of listed orders: the ids selected afterwards are those that
    were selected before and belong to an order of the list, so no hidden
    order stays selected. *)
Theorem applyFilters_keeps_selection_in_view lower (f : App.filters)
    (allOrders filtered : list obj) (sel sel' : idset) :
  App.applyFilters lower f allOrders sel = Ok (filtered, sel') ->
  filtered
  = filter (fun o => match App.orderMatches lower f o with
                     | Ok b => b
                     | TypeError => false
                     end) allOrders
  /\ (forall id, In id sel' <->
                 In id sel /\ exists o, In o filtered /\ App.rowId o = id)
  /\ (NoDup sel -> NoDup sel').
Proof.
  intros H. destruct (applyFilters_inv _ _ _ _ _ _ H) as [A B].
  split; [exact A|]. split; [exact B|].
  unfold App.applyFilters in H.
  destruct (filterM (App.orderMatches lower f) allOrders) as [r|];
    [|discriminate H].
  cbn [bind] in H. injection H as _ <-. apply NoDup_filter.
Qed.

Lemma nameReadable_lower lower (order : obj) :
  Stated.nameReadable order = true ->
  exists name,
    App.lowerCase lower
      (jsOr (jsOr (get order (lit "Order Name"))
                  (get order (lit "Customer Name"))) (JStr []))
    = Ok name.
Proof.
  unfold Stated.nameReadable.
  destruct (jsOr (jsOr (get order (lit "Order Name"))
                       (get order (lit "Customer Name"))) (JStr []));
    try discriminate.
  intros _. eexists. reflexivity.
Qed.

Lemma countActiveFilters_zero (f : App.filters) :
  App.countActiveFilters f = 0 ->
  App.dateFrom f = [] /\ App.dateTo f = [] /\ App.orderDateFrom f = []
  /\ App.orderDateTo f = [] /\ App.statusSelect f = []
  /\ App.orderTypeSelect f = [] /\ App.chipLocalDelivery f = false
  /\ trim (App.customerSearch f) = [].
Proof.
  unfold App.countActiveFilters.
  destruct (App.dateFrom f), (App.dateTo f), (App.orderDateFrom f),
    (App.orderDateTo f), (App.statusSelect f), (App.orderTypeSelect f),
    (App.chipLocalDelivery f), (trim (App.customerSearch f));
    cbn [isEmpty]; intros H; try (exfalso; lia); repeat split.
Qed.

(** X7.  When no filter is active (the count behind the filter badge is
    zero, and the search text is blank in lower case as well), the
    callback of the filter returns [true] for every order whose name is a
    string or missing, so [allOrders.filter] keeps all of such a list; and
    whenever the two steps of [applyFilters] are done, the list they leave
    is [allOrders], and the selection keeps the ids that belong to one of
    its orders. *)
Theorem no_active_filter_shows_all lower (f : App.filters)
    (allOrders : list obj) (sel : idset) :
  App.countActiveFilters f = 0 ->
  trim (lower (App.customerSearch f)) = [] ->
  (forall o : obj,
      Stated.nameReadable o = true -> App.orderMatches lower f o = Ok true)
  /\ (forallb Stated.nameReadable allOrders = true ->
      filterM (App.orderMatches lower f) allOrders = Ok allOrders)
  /\ (forall (filtered : list obj) (sel' : idset),
         App.applyFilters lower f allOrders sel = Ok (filtered, sel') ->
         filtered = allOrders
         /\ forall id, In id sel' <->
                       In id sel
                       /\ exists o, In o allOrders /\ App.rowId o = id).
Proof.
  intros C Q.
  destruct (countActiveFilters_zero f C)
    as [F1 [F2 [F3 [F4 [F5 [F6 [F7 _]]]]]]].
  assert (M : forall o : obj,
             Stated.nameReadable o = true ->
             App.orderMatches lower f o = Ok true).
  { intros o R. destruct (nameReadable_lower lower o R) as [name N].
    unfold App.orderMatches. rewrite N, F1, F2, F3, F4, F5, F6, F7, Q.
    reflexivity. }
  split; [exact M|split].
  - intros R. apply filterM_all. rewrite forallb_forall in R.
    apply Forall_forall. intros o I. exact (M o (R o I)).
  - intros filtered sel' A.
    destruct (applyFilters_inv _ _ _ _ _ _ A) as [E S].
    assert (filtered = allOrders) as ->; [|split; [reflexivity|exact S]].
    rewrite E. apply forallb_filter_id. apply forallb_forall. intros o I.
    destruct (Stated.nameReadable o) eqn:R; [now rewrite (M o R)|].
    exfalso. unfold App.applyFilters in A.
    rewrite (filterM_throws _ _ o I) in A; [discriminate A|].
    unfold App.orderMatches, Stated.nameReadable in *.
    destruct (jsOr (jsOr (get o (lit "Order Name"))
                         (get o (lit "Customer Name"))) (JStr []));
      try reflexivity.
    discriminate R.
Qed.

Lemma no_active_filter_shows_all_witness :
  filterM (App.orderMatches (fun s => s)
             {| App.dateFrom := []; App.dateTo := [];
                App.orderDateFrom := []; App.orderDateTo := [];
                App.statusSelect := []; App.orderTypeSelect := [];
                App.chipLocalDelivery := false;
                App.customerSearch := lit "  " |})
    [ [(lit "_RowNumber", JNum 1); (lit "Order Name", JStr (lit "Ann"))];
      [(lit "_RowNumber", JNum 2)] ]
  = Ok [ [(lit "_RowNumber", JNum 1); (lit "Order Name", JStr (lit "Ann"))];
         [(lit "_RowNumber", JNum 2)] ].
Proof.
  refine (proj1 (proj2 (no_active_filter_shows_all (fun s => s)
           {| App.dateFrom := []; App.dateTo := [];
              App.orderDateFrom := []; App.orderDateTo := [];
              App.statusSelect := []; App.orderTypeSelect := [];
              App.chipLocalDelivery := false;
              App.customerSearch := lit "  " |}
           [ [(lit "_RowNumber", JNum 1); (lit "Order Name", JStr (lit "Ann"))];
             [(lit "_RowNumber", JNum 2)] ]
           [lit "1"; lit "7"] _ _)) _).
  - vm_compute. reflexivity.
  - vm_compute. reflexivity.
  - vm_compute. reflexivity.
Defined.

(** X8.  One order whose name is neither a string nor a value that
    counts as false (a number, say) makes [applyFilters] throw, whatever
    the filters are: the name is put in lower case before any filter is
    looked at. *)
Theorem unreadable_name_breaks_the_list lower (f : App.filters)
    (allOrders : list obj) (sel : idset) (order : obj) :
  In order allOrders -> Stated.nameReadable order = false ->
  App.applyFilters lower f allOrders sel = TypeError.
Proof.
  intros I R. unfold App.applyFilters.
  rewrite (filterM_throws _ _ order I); [reflexivity|].
  unfold App.orderMatches, Stated.nameReadable in *.
  destruct (jsOr (jsOr (get order (lit "Order Name"))
                       (get order (lit "Customer Name"))) (JStr []));
    try reflexivity.
  discriminate R.
Qed.

Lemma str_geb_iso (m1 d1 y1 m2 d2 y2 : jsstring) :
  Stated.wellFormedDate m1 d1 y1 = true ->
  Stated.wellFormedDate m2 d2 y2 = true ->
  str_geb (Stated.isoDate m1 d1 y1) (Stated.isoDate m2 d2 y2)
  = (Stated.dayNumber m2 d2 y2 <=? Stated.dayNumber m1 d1 y1)%N.
Proof.
  intros W1 W2. unfold str_geb.
  rewrite (proj1 (isoDate_compare _ _ _ _ _ _ W1 W2)).
  rewrite N.leb_antisym. reflexivity.
Qed.

Lemma str_leb_iso (m1 d1 y1 m2 d2 y2 : jsstring) :
  Stated.wellFormedDate m1 d1 y1 = true ->
  Stated.wellFormedDate m2 d2 y2 = true ->
  str_leb (Stated.isoDate m1 d1 y1) (Stated.isoDate m2 d2 y2)
  = (Stated.dayNumber m1 d1 y1 <=? Stated.dayNumber m2 d2 y2)%N.
Proof.
  intros W1 W2. unfold str_leb.
  rewrite (proj1 (isoDate_compare _ _ _ _ _ _ W2 W1)).
  rewrite N.leb_antisym. reflexivity.
Qed.

Lemma isoDate_nonempty (m d y : jsstring) :
  Stated.wellFormedDate m d y = true -> isEmpty (Stated.isoDate m d y) = false.
Proof.
  intros W. apply wellFormedDate_inv in W.
  destruct W as [_ [_ [_ [_ [_ [_ [_ Y]]]]]]].
  destruct y; [discriminate Y|reflexivity].
Qed.

(** X9.  The pick-up date filter is a calendar range.  With both bounds
    set (in ISO form, as the date inputs hold them) and no other filter
    than the order-date inputs, an order with a readable name and a
    well-formed pick-up date passes exactly when its day lies between the
    two bounds, both included; what the order-date inputs hold plays no
    part. *)
Theorem pickup_filter_is_a_calendar_range lower (f : App.filters)
    (order : obj) (mf df yf mt dt yt m d y : jsstring) :
  Stated.wellFormedDate mf df yf = true ->
  Stated.wellFormedDate mt dt yt = true ->
  Stated.wellFormedDate m d y = true ->
  App.dateFrom f = Stated.isoDate mf df yf ->
  App.dateTo f = Stated.isoDate mt dt yt ->
  App.statusSelect f = [] -> App.orderTypeSelect f = [] ->
  App.chipLocalDelivery f = false ->
  trim (lower (App.customerSearch f)) = [] ->
  Stated.nameReadable order = true ->
  get order (lit "Due Pickup Date") = JStr (Stated.usDate m d y) ->
  App.orderMatches lower f order
  = Ok ((Stated.dayNumber mf df yf <=? Stated.dayNumber m d y)%N
        && (Stated.dayNumber m d y <=? Stated.dayNumber mt dt yt)%N).
Proof.
  intros Wf Wt W Ff Ft Fs Fo Fc Q R D.
  destruct (nameReadable_lower lower order R) as [name N].
  unfold App.orderMatches. rewrite N, Ff, Ft, Fs, Fo, Fc, Q, D.
  rewrite (isoDate_nonempty _ _ _ Wf), (isoDate_nonempty _ _ _ Wt).
  cbn [bind negb orb].
  assert (jsOr (JStr (Stated.usDate m d y)) (JStr [])
          = JStr (Stated.usDate m d y)) as ->.
  { unfold jsOr, Stated.usDate.
    destruct m; [|reflexivity].
    apply wellFormedDate_inv in W. now destruct W as [_ [_ [_ [W _]]]]. }
  rewrite (toISODate_sheet_date _ _ _ W). cbn [bind].
  unfold App.dateInRange.
  rewrite (isoDate_nonempty _ _ _ Wf), (isoDate_nonempty _ _ _ Wt).
  cbn [orb].
  change (y ++ lit "-" ++ padStart2 m ++ lit "-" ++ padStart2 d)
    with (Stated.isoDate m d y).
  rewrite (str_geb_iso _ _ _ _ _ _ W Wf), (str_leb_iso _ _ _ _ _ _ W Wt).
  cbn [isEmpty orb]. now rewrite !andb_true_r.
Qed.

Lemma applyFilters_keeps_selection_in_view_witness :
  [ [(lit "_RowNumber", JNum 1); (lit "Status", JStr (lit "Shipped"))] ]
  = filter (fun o => match App.orderMatches (fun s => s)
                             {| App.dateFrom := []; App.dateTo := [];
                                App.orderDateFrom := [];
                                App.orderDateTo := [];
                                App.statusSelect := lit "Shipped";
                                App.orderTypeSelect := [];
                                App.chipLocalDelivery := false;
                                App.customerSearch := [] |} o with
                     | Ok b => b
                     | TypeError => false
                     end)
      [ [(lit "_RowNumber", JNum 1); (lit "Status", JStr (lit "Shipped"))];
        [(lit "_RowNumber", JNum 2); (lit "Status", JStr (lit "Pending"))] ]
  /\ (forall id, In id [lit "1"] <->
        In id [lit "1"; lit "2"]
        /\ exists o,
             In o [ [(lit "_RowNumber", JNum 1);
                     (lit "Status", JStr (lit "Shipped"))] ]
             /\ App.rowId o = id)
  /\ (NoDup [lit "1"; lit "2"] -> NoDup [lit "1"]).
Proof.
  apply (applyFilters_keeps_selection_in_view (fun s => s)
           {| App.dateFrom := []; App.dateTo := [];
              App.orderDateFrom := []; App.orderDateTo := [];
              App.statusSelect := lit "Shipped"; App.orderTypeSelect := [];
              App.chipLocalDelivery := false; App.customerSearch := [] |}
           [ [(lit "_RowNumber", JNum 1); (lit "Status", JStr (lit "Shipped"))];
             [(lit "_RowNumber", JNum 2); (lit "Status", JStr (lit "Pending"))] ]
           [ [(lit "_RowNumber", JNum 1); (lit "Status", JStr (lit "Shipped"))] ]
           [lit "1"; lit "2"] [lit "1"]).
  vm_compute. reflexivity.
Defined.

Lemma unreadable_name_breaks_the_list_witness :
  App.applyFilters (fun s => s) App.clearFilters
    [ [(lit "_RowNumber", JNum 1); (lit "Order Name", JStr (lit "Ann"))];
      [(lit "_RowNumber", JNum 2); (lit "Order Name", JNum 42)] ]
    []
  = TypeError.
Proof.
  apply (unreadable_name_breaks_the_list (fun s => s) App.clearFilters
           [ [(lit "_RowNumber", JNum 1); (lit "Order Name", JStr (lit "Ann"))];
             [(lit "_RowNumber", JNum 2); (lit "Order Name", JNum 42)] ]
           [] [(lit "_RowNumber", JNum 2); (lit "Order Name", JNum 42)]).
  - right. left. reflexivity.
  - vm_compute. reflexivity.
Defined.

Lemma pickup_filter_is_a_calendar_range_witness :
  App.orderMatches (fun s => s)
    {| App.dateFrom := lit "2025-03-01"; App.dateTo := lit "2025-03-31";
       App.orderDateFrom := lit "2030-01-01"; App.orderDateTo := [];
       App.statusSelect := []; App.orderTypeSelect := [];
       App.chipLocalDelivery := false; App.customerSearch := [] |}
    [ (lit "Order Name", JStr (lit "Ann"));
      (lit "Due Pickup Date", JStr (lit "3/5/2025"));
      (lit "Order Date", JStr (lit "2/1/2025")) ]
  = Ok true.
Proof.
  exact (pickup_filter_is_a_calendar_range (fun s => s)
           {| App.dateFrom := lit "2025-03-01"; App.dateTo := lit "2025-03-31";
              App.orderDateFrom := lit "2030-01-01"; App.orderDateTo := [];
              App.statusSelect := []; App.orderTypeSelect := [];
              App.chipLocalDelivery := false; App.customerSearch := [] |}
           [ (lit "Order Name", JStr (lit "Ann"));
             (lit "Due Pickup Date", JStr (lit "3/5/2025"));
             (lit "Order Date", JStr (lit "2/1/2025")) ]
           (lit "03") (lit "01") (lit "2025")
           (lit "03") (lit "31") (lit "2025")
           (lit "3") (lit "5") (lit "2025")
           eq_refl eq_refl eq_refl eq_refl eq_refl eq_refl eq_refl eq_refl
           eq_refl eq_refl eq_refl).
Defined.

Lemma strictEquals_eq (v : jsval) (s : jsstring) :
  App.strictEquals v s = true -> v = JStr s.
Proof.
  destruct v; simpl; try discriminate. intros H.
  apply str_eqb_eq in H. now subst.
Qed.

(** X10.  What the list shows satisfies the filters.  Every order listed
    by [applyFilters] is an order of [allOrders]; with a status chosen,
    its status is that string; with the local-delivery chip on, its order
    type is one of the two local-delivery types, whatever the type
    drop-down holds, and with the chip off and a type chosen, its order
    type is that string; with a search text, its name in lower case
    contains the trimmed, lower-case search text. *)
Theorem listed_orders_satisfy_the_filters lower (f : App.filters)
    (allOrders filtered : list obj) (sel sel' : idset) (o : obj) :
  App.applyFilters lower f allOrders sel = Ok (filtered, sel') ->
  In o filtered ->
  In o allOrders
  /\ (App.statusSelect f <> [] ->
      get o (lit "Status") = JStr (App.statusSelect f))
  /\ (App.chipLocalDelivery f = true ->
      get o (lit "Order Type") = JStr (lit "Delivery")
      \/ get o (lit "Order Type") = JStr (lit "Local Delivery Order"))
  /\ (App.chipLocalDelivery f = false -> App.orderTypeSelect f <> [] ->
      get o (lit "Order Type") = JStr (App.orderTypeSelect f))
  /\ (trim (lower (App.customerSearch f)) <> [] ->
      exists name,
        jsOr (jsOr (get o (lit "Order Name")) (get o (lit "Customer Name")))
             (JStr []) = JStr name
        /\ includes (trim (lower (App.customerSearch f))) (lower name)
           = true).
Proof.
  intros H I. destruct (applyFilters_inv _ _ _ _ _ _ H) as [A _].
  rewrite A in I. apply filter_In in I. destruct I as [I P].
  split; [exact I|].
  destruct (App.orderMatches lower f o) as [b|] eqn:M; [|discriminate P].
  subst b. unfold App.orderMatches in M.
  destruct (jsOr (jsOr (get o (lit "Order Name"))
                       (get o (lit "Customer Name"))) (JStr []))
    as [| | | |name| | |] eqn:N; try discriminate M.
  cbn [App.lowerCase bind] in M.
  match type of M with
  | bind ?d _ = _ => destruct d as [dateMatch|]; [|discriminate M]
  end.
  cbn [bind] in M. injection M as M.
  apply andb_true_iff in M. destruct M as [M Q].
  apply andb_true_iff in M. destruct M as [M S].
  apply andb_true_iff in M. destruct M as [_ T].
  split; [|split; [|split]].
  - intros Hs. destruct (App.statusSelect f) as [|c s]; [contradiction|].
    cbn [isEmpty orb] in S. now apply strictEquals_eq.
  - intros Hc. rewrite Hc in T. cbn [existsb App.LOCAL_DELIVERY_TYPES] in T.
    rewrite orb_false_r in T. apply orb_true_iff in T.
    destruct T as [T|T]; apply strictEquals_eq in T; tauto.
  - intros Hc Ht. rewrite Hc in T.
    destruct (App.orderTypeSelect f) as [|c s]; [contradiction|].
    cbn [isEmpty negb] in T. now apply strictEquals_eq.
  - intros Hq. exists name. split; [reflexivity|].
    destruct (trim (lower (App.customerSearch f))) as [|c q];
      [contradiction|].
    cbn [isEmpty orb] in Q. exact Q.
Qed.

Lemma listed_orders_satisfy_the_filters_witness :
  In [(lit "Order Name", JStr (lit "ann")); (lit "Status", JStr (lit "Paid"));
      (lit "Order Type", JStr (lit "Delivery"))]
     [ [(lit "Order Name", JStr (lit "ann")); (lit "Status", JStr (lit "Paid"));
        (lit "Order Type", JStr (lit "Delivery"))];
       [(lit "Order Name", JStr (lit "bob")); (lit "Status", JStr (lit "Paid"));
        (lit "Order Type", JStr (lit "Pickup"))] ]
  /\ (lit "Paid" <> [] ->
      get [(lit "Order Name", JStr (lit "ann"));
           (lit "Status", JStr (lit "Paid"));
           (lit "Order Type", JStr (lit "Delivery"))] (lit "Status")
      = JStr (lit "Paid")).
Proof.
  pose proof (listed_orders_satisfy_the_filters (fun s => s)
    {| App.dateFrom := []; App.dateTo := [];
       App.orderDateFrom := []; App.orderDateTo := [];
       App.statusSelect := lit "Paid"; App.orderTypeSelect := lit "Pickup";
       App.chipLocalDelivery := true; App.customerSearch := lit " n" |}
    [ [(lit "Order Name", JStr (lit "ann")); (lit "Status", JStr (lit "Paid"));
       (lit "Order Type", JStr (lit "Delivery"))];
      [(lit "Order Name", JStr (lit "bob")); (lit "Status", JStr (lit "Paid"));
       (lit "Order Type", JStr (lit "Pickup"))] ]
    [ [(lit "Order Name", JStr (lit "ann")); (lit "Status", JStr (lit "Paid"));
       (lit "Order Type", JStr (lit "Delivery"))] ]
    [] []
    [(lit "Order Name", JStr (lit "ann")); (lit "Status", JStr (lit "Paid"));
     (lit "Order Type", JStr (lit "Delivery"))]
    eq_refl (or_introl eq_refl)) as [A [B _]].
  split; [exact A|exact B].
Defined.

(** ** Selection and printing *)

Lemma setHas_iff (s t : idset) (x : jsstring) :
  (In x s <-> In x t) -> setHas s x = setHas t x.
Proof.
  intros H. destruct (setHas s x) eqn:A; destruct (setHas t x) eqn:B;
    try reflexivity.
  - apply setHas_In, H, setHas_In in A. congruence.
  - apply setHas_In, H, setHas_In in B. congruence.
Qed.

Lemma setAdd_NoDup (s : idset) (y : jsstring) :
  NoDup s -> NoDup (setAdd s y).
Proof.
  intros N. unfold setAdd. destruct (setHas s y) eqn:H; [exact N|].
  apply NoDup_app; [exact N|repeat constructor; intros []|].
  intros x I [<-|[]]. apply setHas_In in I. congruence.
Qed.

(** X11.  [toggleSelect(id)] flips whether [id] is selected and touches
    no other id, so a second call undoes the first; a selection without
    repetitions stays one. *)
Theorem toggleSelect_flips_one_id (id : jsstring) (sel : idset) :
  (forall x, setHas (App.toggleSelect id sel) x
             = if str_eqb x id then negb (setHas sel x) else setHas sel x)
  /\ (forall x, setHas (App.toggleSelect id (App.toggleSelect id sel)) x
                = setHas sel x)
  /\ (NoDup sel -> NoDup (App.toggleSelect id sel)).
Proof.
  assert (forall s x, setHas (App.toggleSelect id s) x
                      = if str_eqb x id then negb (setHas s x)
                        else setHas s x) as F.
  { intros s x. unfold App.toggleSelect.
    destruct (str_eqb x id) eqn:E.
    - apply str_eqb_eq in E. subst x.
      destruct (setHas s id) eqn:H; cbn [negb].
      + destruct (setHas (setDelete s id) id) eqn:K; [|reflexivity].
        apply setHas_In, setDelete_In in K. now destruct K.
      + apply setHas_In, setAdd_In. now right.
    - apply differ_str_eqb in E.
      destruct (setHas s id); apply setHas_iff.
      + rewrite setDelete_In. tauto.
      + rewrite setAdd_In. tauto. }
  split; [exact (F sel)|]. split.
  - intros x. rewrite !F. destruct (str_eqb x id); [|reflexivity].
    apply negb_involutive.
  - intros N. unfold App.toggleSelect. destruct (setHas sel id).
    + apply NoDup_filter, N.
    + apply setAdd_NoDup, N.
Qed.

Lemma delete_all_In (l : list obj) (s : idset) (x : jsstring) :
  In x (fold_left (fun s o => setDelete s (App.rowId o)) l s)
  <-> In x s /\ ~ In x (map App.rowId l).
Proof.
  revert s. induction l as [|o l IH]; intros s; simpl; [tauto|].
  rewrite IH, setDelete_In. intuition congruence.
Qed.

Lemma add_all_In (l : list obj) (s : idset) (x : jsstring) :
  In x (fold_left (fun s o => setAdd s (App.rowId o)) l s)
  <-> In x s \/ In x (map App.rowId l).
Proof.
  revert s. induction l as [|o l IH]; intros s; simpl; [tauto|].
  rewrite IH, setAdd_In. intuition congruence.
Qed.

(** X12.  [selectAll] works on the listed orders only.  When every listed
    order is selected it deselects them all, and otherwise it selects
    them all; an id that belongs to no listed order is selected afterwards
    exactly when it was before. *)
Theorem selectAll_on_the_listed_orders (filtered : list obj) (sel : idset) :
  (forall o, In o filtered ->
     setHas (App.selectAll filtered sel) (App.rowId o)
     = negb (forallb (fun o => setHas sel (App.rowId o)) filtered))
  /\ (forall x, ~ In x (map App.rowId filtered) ->
        setHas (App.selectAll filtered sel) x = setHas sel x).
Proof.
  unfold App.selectAll.
  destruct (forallb (fun o => setHas sel (App.rowId o)) filtered);
    cbn [negb]; split.
  - intros o I.
    destruct (setHas _ (App.rowId o)) eqn:K; [|reflexivity].
    apply setHas_In, delete_all_In in K. destruct K as [_ K].
    destruct K. now apply in_map.
  - intros x N. apply setHas_iff. rewrite delete_all_In. tauto.
  - intros o I. apply setHas_In, add_all_In. right. now apply in_map.
  - intros x N. apply setHas_iff. rewrite add_all_In. tauto.
Qed.

Lemma renderOrderForPrint_total (stored : option jsstring)
    (today : jsstring) (order : obj) :
  Stated.lineItemsReadable order = true ->
  exists html, App.renderOrderForPrint stored today order = Ok html.
Proof.
  intros R. unfold App.renderOrderForPrint.
  destruct (renderTemplate_total App.buildLineItemsTable today
              (App.getTemplate stored) order (App_table_total order R))
    as [html E].
  rewrite E. eexists. reflexivity.
Qed.

(** X13.  [printSelected] renders the orders of [allOrders] whose id is
    selected, one ticket each, in the order of [allOrders] (not that of
    the clicks, nor that of the sorted list), and gives the tickets joined
    without a separator to the print container; when no order is selected
    it leaves the container alone.  With orders whose line items are not
    [null] and whose values have a display string it does not throw. *)
Theorem printSelected_prints_the_selection (ls : storage) (today : jsstring)
    (allOrders : list obj) (sel : idset) :
  forallb Stated.lineItemsReadable allOrders = true ->
  forallb Stated.allDisplayable allOrders = true ->
  exists tickets,
    Forall2 (fun o ticket =>
               App.renderOrderForPrint (getItem ls App.TEMPLATE_KEY) today o
               = Ok ticket)
            (filter (fun o => setHas sel (App.rowId o)) allOrders) tickets
    /\ App.printSelected ls today allOrders sel
       = Ok (match tickets with
             | [] => None
             | _ :: _ => Some (concat tickets)
             end).
Proof.
  intros R _. rewrite forallb_forall in R. unfold App.printSelected.
  set (chosen := filter (fun o => setHas sel (App.rowId o)) allOrders).
  assert (Forall (fun o => exists t,
                    App.renderOrderForPrint (getItem ls App.TEMPLATE_KEY)
                      today o = Ok t) chosen) as T.
  { apply Forall_forall. intros o I. apply filter_In in I.
    apply renderOrderForPrint_total, R, I. }
  destruct (mapM_Forall2 _ _ T) as [tickets [E F]].
  exists tickets. split; [exact F|].
  destruct chosen as [|o chosen].
  - inversion F. reflexivity.
  - cbn [List.length Nat.eqb]. rewrite E. cbn [bind].
    inversion F; subst. now rewrite joinWith_nil.
Qed.

Lemma printSelected_prints_the_selection_witness :
  exists tickets,
    Forall2 (fun o ticket =>
               App.renderOrderForPrint
                 (getItem [(App.TEMPLATE_KEY, lit "#{{OrderID}};")]
                          App.TEMPLATE_KEY) (lit "today") o
               = Ok ticket)
            (filter (fun o => setHas [lit "3"; lit "1"] (App.rowId o))
                    [ [(lit "_RowNumber", JNum 1); (lit "OrderID", JNum 11)];
                      [(lit "_RowNumber", JNum 2); (lit "OrderID", JNum 22)];
                      [(lit "_RowNumber", JNum 3); (lit "OrderID", JNum 33)] ])
            tickets
    /\ App.printSelected [(App.TEMPLATE_KEY, lit "#{{OrderID}};")]
         (lit "today")
         [ [(lit "_RowNumber", JNum 1); (lit "OrderID", JNum 11)];
           [(lit "_RowNumber", JNum 2); (lit "OrderID", JNum 22)];
           [(lit "_RowNumber", JNum 3); (lit "OrderID", JNum 33)] ]
         [lit "3"; lit "1"]
       = Ok (match tickets with
             | [] => None
             | _ :: _ => Some (concat tickets)
             end).
Proof.
  apply (printSelected_prints_the_selection
           [(App.TEMPLATE_KEY, lit "#{{OrderID}};")] (lit "today")
           [ [(lit "_RowNumber", JNum 1); (lit "OrderID", JNum 11)];
             [(lit "_RowNumber", JNum 2); (lit "OrderID", JNum 22)];
             [(lit "_RowNumber", JNum 3); (lit "OrderID", JNum 33)] ]
           [lit "3"; lit "1"]).
  - vm_compute. reflexivity.
  - vm_compute. reflexivity.
Defined.

Lemma NoDup_map_eq {A B : Type} (f : A -> B) (l : list A) (a b : A) :
  NoDup (map f l) -> In a l -> In b l -> f a = f b -> a = b.
Proof.
  induction l as [|c l IH]; intros N Ia Ib E; [destruct Ia|].
  simpl in N. inversion N as [|? ? Hc N']; subst.
  destruct Ia as [->|Ia], Ib as [->|Ib].
  - reflexivity.
  - destruct Hc. rewrite E. now apply in_map.
  - destruct Hc. rewrite <- E. now apply in_map.
  - now apply IH.
Qed.

Lemma filter_filter_and {A : Type} (p q : A -> bool) (l : list A) :
  filter q (filter p l) = filter (fun a => p a && q a) l.
Proof.
  induction l as [|a l IH]; [reflexivity|]. simpl.
  destruct (p a); simpl; [destruct (q a)|]; now rewrite IH.
Qed.

(** X14.  Filtering and printing fit together when the row numbers tell
    the orders apart: after the two steps of [applyFilters], the orders
    that [printSelected] picks from [allOrders] are the orders of the list
    on screen that were selected, so no order hidden by the filter is
    printed.  The list on screen is [filtered] in the order that
    [sortOrders] gives it, whatever that is; the print-out keeps the order
    of [allOrders]. *)
Theorem printing_after_filtering lower (f : App.filters)
    (allOrders filtered shown : list obj) (sel sel' : idset) (o : obj) :
  NoDup (map App.rowId allOrders) ->
  App.applyFilters lower f allOrders sel = Ok (filtered, sel') ->
  Permutation filtered shown ->
  In o (filter (fun o => setHas sel' (App.rowId o)) allOrders)
  <-> In o shown /\ setHas sel (App.rowId o) = true.
Proof.
  intros N H P. destruct (applyFilters_inv _ _ _ _ _ _ H) as [A B].
  assert (S : In o shown <-> In o filtered).
  { split; apply Permutation_in; [now apply Permutation_sym|exact P]. }
  rewrite S, filter_In. split.
  - intros [I K]. apply setHas_In, B in K.
    destruct K as [K [o' [I' E']]].
    assert (In o' allOrders) as Ia
      by (rewrite A in I'; apply filter_In in I'; tauto).
    assert (o' = o) as -> by exact (NoDup_map_eq _ _ _ _ N Ia I E').
    split; [exact I'|now apply setHas_In].
  - intros [I K]. split.
    + rewrite A in I. apply filter_In in I. tauto.
    + apply setHas_In, B. split; [now apply setHas_In|].
      exists o. now split.
Qed.

Lemma printing_after_filtering_witness :
  let o1 := [(lit "_RowNumber", JNum 1); (lit "Status", JStr (lit "Shipped"))] in
  let o2 := [(lit "_RowNumber", JNum 2); (lit "Status", JStr (lit "Pending"))] in
  In o1 (filter (fun o => setHas [lit "1"] (App.rowId o)) [o1; o2])
  <-> In o1 [o1] /\ setHas [lit "1"; lit "2"] (App.rowId o1) = true.
Proof.
  apply (printing_after_filtering (fun s => s)
           {| App.dateFrom := []; App.dateTo := [];
              App.orderDateFrom := []; App.orderDateTo := [];
              App.statusSelect := lit "Shipped"; App.orderTypeSelect := [];
              App.chipLocalDelivery := false; App.customerSearch := [] |}
           [ [(lit "_RowNumber", JNum 1); (lit "Status", JStr (lit "Shipped"))];
             [(lit "_RowNumber", JNum 2); (lit "Status", JStr (lit "Pending"))] ]
           [ [(lit "_RowNumber", JNum 1); (lit "Status", JStr (lit "Shipped"))] ]
           [ [(lit "_RowNumber", JNum 1); (lit "Status", JStr (lit "Shipped"))] ]
           [lit "1"; lit "2"] [lit "1"]).
  - vm_compute. repeat constructor; simpl; intros K;
      repeat (destruct K as [K|K]; [discriminate K|]); exact K.
  - vm_compute. reflexivity.
  - apply Permutation_refl.
Defined.

(** ** The three builders over line items *)


Lemma itemSummaryRow_ok (item : jsval) :
  isNullish item = false -> exists row, App.itemSummaryRow item = Ok row.
Proof.
  destruct item; intros H; try discriminate;
    unfold App.itemSummaryRow; cbn [getProp bind]; eexists; reflexivity.
Qed.



Lemma App_summary_total (order : obj) :
  Stated.lineItemsReadable order = true ->
  exists out, App.buildItemsSummary order = Ok out.
Proof.
  intros R. unfold App.buildItemsSummary.
  destruct (negb _ || negb _ || _); [eauto|].
  destruct (mapM_Forall2 App.itemSummaryRow _
              (readable_Forall order _ itemSummaryRow_ok R))
    as (rows & -> & _).
  cbn [bind]. eauto.
Qed.


Lemma summary_is_not_empty (rows : jsstring) :
  lit "<div class=" ++ dq "card-items" ++ lit ">" ++ rows ++ lit "</div>"
  <> [].
Proof. discriminate. Qed.

(** X16.  The card of an order and its printed ticket agree on whether
    there is anything to list: [buildItemsSummary] returns the empty
    string exactly when [buildLineItemsTable] returns the message
    "No line items.", that is, when [Line Items] is missing, not a list,
    or empty. *)
Theorem summary_empty_when_table_says_so (order : obj) :
  (App.buildItemsSummary order = Ok []
   <-> App.buildLineItemsTable order = Ok App.NO_LINE_ITEMS)
  /\ (App.buildItemsSummary order = Ok []
      <-> negb (truthy (get order (lit "Line Items")))
          || negb (isArray (get order (lit "Line Items")))
          || (List.length (elements (get order (lit "Line Items"))) =? 0)
          = true).
Proof.
  unfold App.buildItemsSummary, App.buildLineItemsTable.
  destruct (negb _ || negb _ || _) eqn:G.
  - repeat split; reflexivity.
  - split; split; intros H; try discriminate H; exfalso.
    + destruct (mapM App.itemSummaryRow _); [|discriminate H].
      cbn [bind] in H.
      apply (summary_is_not_empty (joinWith [] a)). congruence.
    + destruct (mapM App.lineItemRow _); [|discriminate H].
      cbn [bind] in H.
      apply (proj1 (table_is_not_message (joinWith [] a))). congruence.
    + destruct (mapM App.itemSummaryRow _); [|discriminate H].
      cbn [bind] in H.
      apply (summary_is_not_empty (joinWith [] a)). congruence.
Qed.

(** ** The stored template *)

Lemma templates_equal : Designer.DEFAULT_TEMPLATE = App.DEFAULT_TEMPLATE.
Proof. vm_compute. reflexivity. Qed.

Lemma getItem_setItem (ls : storage) (k v : jsstring) :
  getItem (setItem ls k v) k = Some v.
Proof.
  induction ls as [|[k' v'] ls IH]; simpl.
  - now rewrite str_eqb_refl.
  - destruct (str_eqb k' k) eqn:E; simpl; now rewrite E.
Qed.

Lemma getItem_setItem_other (ls : storage) (k k' v : jsstring) :
  k' <> k -> getItem (setItem ls k v) k' = getItem ls k'.
Proof.
  intros N. induction ls as [|[k0 v0] ls IH]; simpl.
  - destruct (str_eqb k k') eqn:E; [|reflexivity].
    apply str_eqb_eq in E. congruence.
  - destruct (str_eqb k0 k) eqn:E; simpl.
    + apply str_eqb_eq in E. subst k0.
      destruct (str_eqb k k') eqn:E'; [|reflexivity].
      apply str_eqb_eq in E'. congruence.
    + now rewrite IH.
Qed.

Lemma getItem_removeItem (ls : storage) (k : jsstring) :
  getItem (removeItem ls k) k = None.
Proof.
  induction ls as [|[k' v'] ls IH]; [reflexivity|].
  unfold removeItem in *. simpl.
  destruct (str_eqb k' k) eqn:E; simpl; [exact IH|]. now rewrite E.
Qed.

(** X17.  The designer and the print path read the template in the same
    way: whatever the storage holds, the text the editor opens with is
    the template that [getTemplate] hands to the renderer. *)
Theorem editor_opens_on_the_printed_template (ls : storage) :
  Designer.initEditor ls = App.getStoredTemplate ls.
Proof.
  unfold Designer.initEditor, App.getStoredTemplate, App.getTemplate.
  change Designer.TEMPLATE_KEY with App.TEMPLATE_KEY.
  destruct (getItem ls App.TEMPLATE_KEY) as [saved|].
  - destruct (isEmpty saved); [exact templates_equal|reflexivity].
  - exact templates_equal.
Qed.

(** X18.  Saving and reading back.  After [saveTemplate] the print path
    and a reopened editor both get the saved text, unless that text is
    empty: an empty template is stored, but read back as the default
    template.  What is stored under other names is not touched. *)
Theorem saved_template_is_read_back (editorValue : jsstring) (ls : storage) :
  let ls' := Designer.saveTemplate editorValue ls in
  App.getStoredTemplate ls'
  = (if isEmpty editorValue then App.DEFAULT_TEMPLATE else editorValue)
  /\ Designer.initEditor ls'
     = (if isEmpty editorValue then App.DEFAULT_TEMPLATE else editorValue)
  /\ getItem ls' App.TEMPLATE_KEY = Some editorValue
  /\ forall name, name <> App.TEMPLATE_KEY ->
       getItem ls' name = getItem ls name.
Proof.
  intros ls'.
  assert (getItem ls' App.TEMPLATE_KEY = Some editorValue) as G
    by apply getItem_setItem.
  assert (App.getStoredTemplate ls'
          = if isEmpty editorValue then App.DEFAULT_TEMPLATE
            else editorValue) as E.
  { unfold App.getStoredTemplate. rewrite G. reflexivity. }
  split; [exact E|]. split.
  - unfold Designer.initEditor.
    change Designer.TEMPLATE_KEY with App.TEMPLATE_KEY.
    rewrite G, templates_equal. reflexivity.
  - split; [exact G|]. intros name N. now apply getItem_setItem_other.
Qed.

(** X19.  Resetting.  A confirmed [resetTemplate] puts the default
    template in the editor and removes the stored one, so that the print
    path and a reopened editor fall back to the default whatever had been
    saved; a declined one changes nothing. *)
Theorem reset_returns_to_the_default (editorValue : jsstring) (ls : storage) :
  (let (editor, ls') := Designer.resetTemplate true editorValue ls in
   editor = App.DEFAULT_TEMPLATE
   /\ getItem ls' App.TEMPLATE_KEY = None
   /\ App.getStoredTemplate ls' = App.DEFAULT_TEMPLATE
   /\ Designer.initEditor ls' = App.DEFAULT_TEMPLATE)
  /\ Designer.resetTemplate false editorValue ls = (editorValue, ls).
Proof.
  split; [|reflexivity].
  unfold Designer.resetTemplate.
  assert (getItem (removeItem ls Designer.TEMPLATE_KEY) App.TEMPLATE_KEY
          = None) as G by apply getItem_removeItem.
  assert (App.getStoredTemplate (removeItem ls Designer.TEMPLATE_KEY)
          = App.DEFAULT_TEMPLATE) as E.
  { unfold App.getStoredTemplate. now rewrite G. }
  split; [exact templates_equal|]. split; [exact G|].
  split; [exact E|]. unfold Designer.initEditor.
  change (getItem (removeItem ls Designer.TEMPLATE_KEY) Designer.TEMPLATE_KEY)
    with (getItem (removeItem ls Designer.TEMPLATE_KEY) App.TEMPLATE_KEY).
  rewrite G. exact templates_equal.
Qed.

(** ** The catalog, the preview and the print path *)

Lemma closers_app (a b : jsstring) : closers (a ++ b) = closers a + closers b.
Proof. apply count_occ_app. Qed.

(** A conditional block holds two tags: four closing braces at least. *)
Lemma matchConditional_closers s g rest :
  matchConditional s = Some (g, rest) -> 4 <= closers s.
Proof.
  destruct g as [key content]. intros H.
  apply matchConditional_sound in H. subst s.
  unfold Stated.openTag, Stated.closeTag. rewrite !closers_app.
  change (closers (lit "}}")) with 2. lia.
Qed.

Lemma resolveConditionals_few_closers (order : obj) (s : jsstring) :
  closers s < 4 -> resolveConditionals order s = Ok s.
Proof.
  unfold resolveConditionals. induction s as [|c s IH]; intros H;
    rewrite (replaceAll_eq _ _ matchConditional_shrinks); [reflexivity|].
  destruct (matchConditional (c :: s)) as [[g rest]|] eqn:E.
  - apply matchConditional_closers in E. lia.
  - rewrite IH; [reflexivity|].
    change (c :: s) with ([c] ++ s) in H. rewrite closers_app in H. lia.
Qed.

Lemma closers_none (k : jsstring) : ~ In RBRACE k -> closers k = 0.
Proof. intros H. now apply count_occ_not_In. Qed.

Lemma single_placeholder bt today (order : obj) (k : jsstring) :
  k <> [] -> ~ In RBRACE k ->
  renderTemplate bt today (Stated.placeholder k) order
  = placeholderValue bt today order k.
Proof.
  intros Hk Hn. unfold renderTemplate.
  rewrite resolveConditionals_few_closers.
  - cbn [bind]. rewrite <- (app_nil_r (Stated.placeholder k)).
    rewrite (replacePlaceholders_hit bt today order k [] Hk Hn).
    destruct (placeholderValue bt today order k) as [r|]; [|reflexivity].
    cbn [bind]. rewrite (replacePlaceholders_unopened bt today order [])
      by reflexivity.
    cbn [bind]. now rewrite app_nil_r.
  - unfold Stated.placeholder. rewrite !closers_app, (closers_none k Hn).
    change (closers (lit "{{")) with 0. change (closers (lit "}}")) with 2.
    lia.
Qed.

(** X20.  From the catalog to the rendering and back.  For an entry of
    the field catalog whose key is not empty, holds no closing brace, has
    no white space around it and is none of the two reserved names, the
    placeholder of the entry renders, alone, as the escaped display
    string of that field of the order, and the note shown in the catalog
    is the first forty code units of the same display string before
    escaping. *)
Theorem catalog_placeholder_renders_its_field bt today (order : obj)
    (f : Designer.field) :
  In f (Designer.orderFields order) ->
  Designer.key f <> [] -> ~ In RBRACE (Designer.key f) ->
  trim (Designer.key f) = Designer.key f ->
  Designer.key f <> LINE_ITEMS_TABLE -> Designer.key f <> PRINT_DATE ->
  let shown := toString (nullish (get order (Designer.key f)) (JStr [])) in
  renderTemplate bt today (Designer.insertedPlaceholder f) order
  = Ok (escHtml (JStr shown))
  /\ Designer.note f = firstn 40 shown.
Proof.
  intros I Hk Hn Ht H1 H2 shown. split.
  - change (Designer.insertedPlaceholder f)
      with (Stated.placeholder (Designer.key f)).
    rewrite (single_placeholder bt today order _ Hk Hn).
    unfold placeholderValue. rewrite Ht.
    now rewrite (str_eqb_neq _ _ H1), (str_eqb_neq _ _ H2).
  - unfold Designer.orderFields in I. apply in_map_iff in I.
    destruct I as [k [<- _]]. reflexivity.
Qed.

Lemma catalog_placeholder_renders_its_field_witness :
  renderTemplate App.buildLineItemsTable (lit "today")
    (lit "{{Order Name}}")
    [(lit "_RowNumber", JNum 1); (lit "Order Name", JStr (lit "A & B"))]
  = Ok (lit "A &amp; B")
  /\ lit "A & B" = firstn 40 (lit "A & B").
Proof.
  apply (catalog_placeholder_renders_its_field App.buildLineItemsTable
           (lit "today")
           [(lit "_RowNumber", JNum 1); (lit "Order Name", JStr (lit "A & B"))]
           {| Designer.key := lit "Order Name";
              Designer.note := lit "A & B" |}).
  - right. left. reflexivity.
  - discriminate.
  - apply notIn_existsb. reflexivity.
  - vm_compute. reflexivity.
  - discriminate.
  - discriminate.
Defined.

(** X21.  The two reserved names win over the data: the placeholders
    [{{LINE_ITEMS_TABLE}}] and [{{PRINT_DATE}}] render the table and the
    date even when the order has fields of these names, which no
    placeholder can therefore show. *)
Theorem reserved_names_shadow_fields bt today (order : obj) :
  renderTemplate bt today (Stated.placeholder LINE_ITEMS_TABLE) order
  = bt order
  /\ renderTemplate bt today (Stated.placeholder PRINT_DATE) order
     = Ok today.
Proof.
  split; rewrite single_placeholder;
    try discriminate; try (apply notIn_existsb; reflexivity); reflexivity.
Qed.

(** Without the table token in the scanned text, the placeholder pass
    does not build the table. *)
Lemma replacePlaceholders_table bt1 bt2 today (order : obj)
      (html : jsstring) :
  includes LINE_ITEMS_TABLE html = false ->
  replacePlaceholders bt1 today order html
  = replacePlaceholders bt2 today order html.
Proof.
  apply (replaceAll_ext _ _ matchPlaceholder_shrinks
           (placeholderValue bt1 today order)
           (placeholderValue bt2 today order)
           (fun s => includes LINE_ITEMS_TABLE s = false)).
  - intros c s. apply includes_cons.
  - intros s key rest HQ Hm. apply matchPlaceholder_sound in Hm. subst s.
    split.
    + unfold placeholderValue.
      destruct (str_eqb (trim key) LINE_ITEMS_TABLE) eqn:E; [|reflexivity].
      apply str_eqb_eq in E. exfalso.
      destruct (trim_infix key) as (a & b & Ek). rewrite E in Ek.
      rewrite Ek in HQ.
      replace (lit "{{" ++ (a ++ LINE_ITEMS_TABLE ++ b) ++ lit "}}" ++ rest)
        with ((lit "{{" ++ a) ++ LINE_ITEMS_TABLE ++ (b ++ lit "}}" ++ rest))
        in HQ by now rewrite <- !app_assoc.
      rewrite includes_infix in HQ. discriminate.
    + apply (includes_suffix _ (lit "{{" ++ key ++ lit "}}")).
      now rewrite <- !app_assoc.
Qed.

(** X22.  The preview is faithful to the print-out up to the table of
    line items.  When the template, once its conditional blocks are
    resolved against the order, does not contain the table token, the
    designer's preview of an order and the printed ticket of the same
    order with the same stored template have the same outcome: the same
    body, in wrapping [div]s that differ in their attributes only, or an
    exception in both; and the outcome is a body when the values of the
    order have a display string. *)
Theorem preview_agrees_with_print (template : jsstring) (order : obj)
    (today html : jsstring) :
  template <> [] ->
  resolveConditionals order template = Ok html ->
  includes LINE_ITEMS_TABLE html = false ->
  exists outcome : result jsstring,
    App.renderOrderForPrint (Some template) today order
    = fmap (fun body => lit "<div class=" ++ dq "print-order" ++ lit ">"
                          ++ body ++ lit "</div>") outcome
    /\ Designer.renderPreview template (Some order) today
       = fmap (fun body => lit "<div class=" ++ dq "print-order"
                             ++ lit " style=" ++ dq "padding:0;" ++ lit ">"
                             ++ body ++ lit "</div>") outcome
    /\ (Stated.allDisplayable order = true ->
        exists body, outcome = Ok body).
Proof.
  intros Ne E H.
  destruct (replacePlaceholders_total (fun _ => Ok []) today order html)
    as [body B]; [now exists []|].
  exists (Ok body).
  unfold App.renderOrderForPrint, Designer.renderPreview, renderTemplate,
    App.getTemplate, Designer.currentOrder.
  destruct template as [|c template]; [contradiction|]. cbn [isEmpty].
  rewrite E. cbn [bind].
  rewrite (replacePlaceholders_table App.buildLineItemsTable
             (fun _ => Ok []) today order html H).
  rewrite (replacePlaceholders_table Designer.buildLineItemsTable
             (fun _ => Ok []) today order html H).
  rewrite B. split; [reflexivity|split; [reflexivity|]].
  intros _. now exists body.
Qed.

Lemma preview_agrees_with_print_witness :
  exists outcome : result jsstring,
    App.renderOrderForPrint (Some (lit "{{#A}}<b>{{B}}</b>{{/A}}"))
      (lit "today")
      [(lit "A", JNum 1); (lit "B", JStr (lit "x<y")); (lit "Line Items", JArr [JNull])]
    = fmap (fun body => lit "<div class=" ++ dq "print-order" ++ lit ">"
                          ++ body ++ lit "</div>") outcome
    /\ Designer.renderPreview (lit "{{#A}}<b>{{B}}</b>{{/A}}")
         (Some [(lit "A", JNum 1); (lit "B", JStr (lit "x<y"));
                (lit "Line Items", JArr [JNull])])
         (lit "today")
       = fmap (fun body => lit "<div class=" ++ dq "print-order"
                             ++ lit " style=" ++ dq "padding:0;" ++ lit ">"
                             ++ body ++ lit "</div>") outcome
    /\ (Stated.allDisplayable
          [(lit "A", JNum 1); (lit "B", JStr (lit "x<y"));
           (lit "Line Items", JArr [JNull])] = true ->
        exists body, outcome = Ok body).
Proof.
  apply (preview_agrees_with_print (lit "{{#A}}<b>{{B}}</b>{{/A}}")
           [(lit "A", JNum 1); (lit "B", JStr (lit "x<y"));
            (lit "Line Items", JArr [JNull])]
           (lit "today") (lit "<b>{{B}}</b>")).
  - discriminate.
  - vm_compute. reflexivity.
  - vm_compute. reflexivity.
Defined.

Lemma slash_key_not_inherited (name : jsstring) :
  inherited (trim (SLASH :: name)) = false.
Proof. rewrite trim_cons_black by reflexivity. reflexivity. Qed.

Lemma slash_key_not_reserved (name : jsstring) :
  trim (SLASH :: name) <> LINE_ITEMS_TABLE
  /\ trim (SLASH :: name) <> PRINT_DATE.
Proof.
  rewrite trim_cons_black by reflexivity. split; discriminate.
Qed.

(** X23.  Blocks do not nest.  The interior of a kept block is not
    scanned again for blocks, so an inner block of another name is never
    decided by its own field: the placeholder pass reads its two tags as
    the placeholders of the keys [#INNER] and [/INNER], which (the order
    having no such fields) vanish, and the inner text is shown whatever
    [order[INNER]] holds. *)
Theorem inner_block_is_always_shown bt today (order : obj)
    (outer inner text : jsstring) :
  outer <> [] -> ~ In RBRACE outer -> ~ In RBRACE inner ->
  includes (lit "{{") (text ++ lit "{") = false ->
  findFirst (Stated.closeTag outer)
    (Stated.openTag inner ++ text ++ Stated.closeTag inner
       ++ Stated.closeTag outer)
  = Some (Stated.openTag inner ++ text ++ Stated.closeTag inner, []) ->
  truthy (get order (trim outer))
    && Stated.hasContent (get order (trim outer)) = true ->
  getOwn order (trim (HASH :: inner)) = None ->
  getOwn order (trim (SLASH :: inner)) = None ->
  renderTemplate bt today
    (Stated.openTag outer ++ Stated.openTag inner ++ text
       ++ Stated.closeTag inner ++ Stated.closeTag outer) order
  = Ok text.
Proof.
  intros Ho No Ni Ht Hf Hk G1 G2. unfold renderTemplate.
  rewrite (resolveConditionals_block order outer _ [] _ Ho No Hf).
  rewrite Hk.
  rewrite (resolveConditionals_unopened order []) by reflexivity.
  cbn [fmap bind]. rewrite app_nil_r.
  assert (~ In RBRACE (HASH :: inner)) as N1.
  { intros [F|F]; [discriminate F|exact (Ni F)]. }
  assert (~ In RBRACE (SLASH :: inner)) as N2.
  { intros [F|F]; [discriminate F|exact (Ni F)]. }
  assert (Stated.openTag inner ++ text ++ Stated.closeTag inner
          = Stated.placeholder (HASH :: inner)
              ++ text ++ Stated.placeholder (SLASH :: inner) ++ []) as ->
    by (rewrite app_nil_r; reflexivity).
  rewrite (replacePlaceholders_hit bt today order (HASH :: inner) _
             ltac:(discriminate) N1).
  rewrite (placeholderValue_field bt today order (HASH :: inner)
             (proj1 (hash_key_not_reserved inner))
             (proj2 (hash_key_not_reserved inner))).
  rewrite (get_missing _ _ G1 (hash_key_not_inherited inner)).
  cbn [isNullish bind].
  rewrite (replacePlaceholders_copy bt today order text _ Ht).
  rewrite (replacePlaceholders_hit bt today order (SLASH :: inner) []
             ltac:(discriminate) N2).
  rewrite (placeholderValue_field bt today order (SLASH :: inner)
             (proj1 (slash_key_not_reserved inner))
             (proj2 (slash_key_not_reserved inner))).
  rewrite (get_missing _ _ G2 (slash_key_not_inherited inner)).
  cbn [isNullish bind].
  rewrite (replacePlaceholders_unopened bt today order []) by reflexivity.
  cbn [bind fmap app]. now rewrite app_nil_r.
Qed.

Lemma inner_block_is_always_shown_witness :
  renderTemplate App.buildLineItemsTable (lit "today")
    (lit "{{#Notes}}{{#Gift}}wrapped{{/Gift}}{{/Notes}}")
    [(lit "Notes", JStr (lit "call first")); (lit "Gift", JStr [])]
  = Ok (lit "wrapped").
Proof.
  apply (inner_block_is_always_shown App.buildLineItemsTable (lit "today")
           [(lit "Notes", JStr (lit "call first")); (lit "Gift", JStr [])]
           (lit "Notes") (lit "Gift") (lit "wrapped")).
  - discriminate.
  - apply notIn_existsb. reflexivity.
  - apply notIn_existsb. reflexivity.
  - vm_compute. reflexivity.
  - vm_compute. reflexivity.
  - vm_compute. reflexivity.
  - vm_compute. reflexivity.
  - vm_compute. reflexivity.
Defined.

(** ** The join of [api/orders.js] *)

Lemma str_eqb_sym (a b : jsstring) : str_eqb a b = str_eqb b a.
Proof.
  revert b. induction a as [|x a IH]; intros [|y b]; simpl; try reflexivity.
  now rewrite N.eqb_sym, IH.
Qed.

Lemma groupOf_pushItem (g : Api.groups) (k k' : jsstring) (item : jsval) :
  Api.groupOf (Api.pushItem g k item) k'
  = Api.groupOf g k' ++ (if str_eqb k k' then [item] else []).
Proof.
  unfold Api.groupOf. induction g as [|[k0 l] g IH]; simpl.
  - destruct (str_eqb k k'); reflexivity.
  - destruct (str_eqb k0 k) eqn:E; simpl.
    + apply str_eqb_eq in E. subst k0.
      destruct (str_eqb k k'); [reflexivity|]. now rewrite app_nil_r.
    + destruct (str_eqb k0 k') eqn:E'; [|exact IH].
      apply str_eqb_eq in E'. subst k0. rewrite str_eqb_sym, E.
      now rewrite app_nil_r.
Qed.

Lemma orderKey_throws (v : jsval) :
  isNullish v = true -> Api.orderKey v = TypeError.
Proof. destruct v; intros H; try discriminate H; reflexivity. Qed.

(** What is inherited counts as true and is no array. *)
Lemma inherited_truthy (k : jsstring) :
  inherited k = true ->
  truthy (get [] k) = true /\ isArray (get [] k) = false.
Proof.
  unfold inherited, get. cbn [getOwn].
  destruct (getOwn OBJECT_PROTOTYPE k) as [v|] eqn:E; [intros _|discriminate].
  destruct (getOwn_In _ _ _ E) as [k' I].
  assert (A : forallb (fun kv => truthy (snd kv) && negb (isArray (snd kv)))
                      OBJECT_PROTOTYPE = true) by (vm_compute; reflexivity).
  rewrite forallb_forall in A. specialize (A _ I). cbn [snd] in A.
  apply andb_prop in A as [A B]. split; [exact A|].
  now destruct (isArray v).
Qed.

Lemma not_inherited_undefined (k : jsstring) :
  inherited k = false -> get [] k = JUndefined.
Proof. intros H. now apply get_missing. Qed.

Lemma fileItem_inv (g g' : Api.groups) (k : jsstring) (item : jsval) :
  Api.fileItem g k item = Ok g' ->
  g' = Api.pushItem g k item
  /\ (Api.lookupGroup g k = None -> inherited k = false).
Proof.
  unfold Api.fileItem, Api.readGroup.
  destruct (Api.lookupGroup g k) as [l|].
  - intros [= <-]. split; [reflexivity|discriminate].
  - destruct (inherited k) eqn:I.
    + destruct (inherited_truthy k I) as [T A].
      destruct (get [] k); cbn [truthy isArray] in T, A |- *;
        try discriminate; rewrite T; discriminate.
    + rewrite (not_inherited_undefined k I). intros [= <-]. now split.
Qed.

Lemma fileItem_ok (g : Api.groups) (k : jsstring) (item : jsval) :
  inherited k = false ->
  Api.fileItem g k item = Ok (Api.pushItem g k item).
Proof.
  intros I. unfold Api.fileItem, Api.readGroup.
  destruct (Api.lookupGroup g k); [reflexivity|].
  now rewrite (not_inherited_undefined k I).
Qed.

Lemma lookupGroup_pushItem (g : Api.groups) (k k' : jsstring) (item : jsval) :
  Api.lookupGroup (Api.pushItem g k item) k' <> None ->
  k = k' \/ Api.lookupGroup g k' <> None.
Proof.
  induction g as [|[k0 l] g IH]; simpl.
  - destruct (str_eqb k k') eqn:E; [|now intros F].
    intros _. left. now apply str_eqb_eq.
  - destruct (str_eqb k0 k) eqn:E; simpl.
    + destruct (str_eqb k0 k') eqn:E'; [|now right].
      intros _. right. discriminate.
    + destruct (str_eqb k0 k') eqn:E'; [intros _; right; discriminate|].
      exact IH.
Qed.

Lemma fileItem_keeps (g g' : Api.groups) (k : jsstring) (item : jsval) :
  (forall k', Api.lookupGroup g k' <> None -> inherited k' = false) ->
  Api.fileItem g k item = Ok g' ->
  forall k', Api.lookupGroup g' k' <> None -> inherited k' = false.
Proof.
  intros Inv P k' Hk. destruct (fileItem_inv _ _ _ _ P) as [-> Free].
  destruct (lookupGroup_pushItem _ _ _ _ Hk) as [<-|Hg]; [|exact (Inv k' Hg)].
  destruct (Api.lookupGroup g k) eqn:L; [|now apply Free].
  apply Inv. rewrite L. discriminate.
Qed.

(** After the loop a group holds what it held, then the items filed
    under its key, in the order of the list; and no array stands under an
    inherited name. *)
Lemma groupItems_spec (lineItems : list jsval) :
  forall g g',
    (forall k, Api.lookupGroup g k <> None -> inherited k = false) ->
    Api.groupItems g lineItems = Ok g' ->
    (forall k, Api.groupOf g' k
               = Api.groupOf g k ++ filter (Stated.itemOf k) lineItems)
    /\ Forall (fun item => isNullish item = false) lineItems
    /\ (forall k, Api.lookupGroup g' k <> None -> inherited k = false).
Proof.
  induction lineItems as [|item rest IH]; intros g g' Inv H;
    cbn [Api.groupItems] in H.
  - injection H as <-. split; [|split; [constructor|exact Inv]].
    intros k. simpl. now rewrite app_nil_r.
  - assert (isNullish item = false) as NN.
    { destruct (isNullish item) eqn:N; [|reflexivity].
      rewrite (orderKey_throws item N) in H. discriminate H. }
    destruct (Api.orderKey item) as [key|] eqn:K; [|discriminate H].
    cbn [bind] in H. destruct (isEmpty key) eqn:E.
    + destruct (IH _ _ Inv H) as [A [B C]].
      split; [|split; [now constructor|exact C]].
      intros k. rewrite A. cbn [filter]. unfold Stated.itemOf at 2.
      rewrite K, E. reflexivity.
    + destruct (Api.fileItem g key item) as [g1|] eqn:P; [|discriminate H].
      cbn [bind] in H.
      destruct (IH _ _ (fileItem_keeps _ _ _ _ Inv P) H) as [A [B C]].
      destruct (fileItem_inv _ _ _ _ P) as [-> _].
      split; [|split; [now constructor|exact C]].
      intros k. rewrite A, groupOf_pushItem. cbn [filter].
      unfold Stated.itemOf at 2. rewrite K, E. cbn [negb andb].
      rewrite <- app_assoc. now destruct (str_eqb key k).
Qed.

Lemma isRow_key (v : jsval) :
  Stated.isRow v = true ->
  exists k, Api.orderKey v = Ok k /\ inherited k = false.
Proof.
  unfold Stated.isRow. destruct v; try discriminate.
  destruct (Api.orderKey (JObj fields)) as [k|];
    [|rewrite andb_false_r; discriminate].
  intros N. apply andb_prop in N as [_ N]. exists k.
  split; [reflexivity|]. now destruct (inherited k).
Qed.

Lemma groupItems_total (lineItems : list jsval) (g : Api.groups) :
  Forall (fun item => Stated.isRow item = true) lineItems ->
  exists g', Api.groupItems g lineItems = Ok g'.
Proof.
  intros F. revert g. induction F as [|item rest N _ IH]; intros g.
  - now exists g.
  - cbn [Api.groupItems]. destruct (isRow_key item N) as [k [-> I]].
    cbn [bind]. destruct (isEmpty k); [apply IH|].
    rewrite (fileItem_ok g k item I). cbn [bind]. apply IH.
Qed.

(** A line item filed under an inherited name makes the loop throw. *)
Lemma groupItems_throws (lineItems : list jsval) (item : jsval)
      (key : jsstring) :
  In item lineItems -> Api.orderKey item = Ok key -> inherited key = true ->
  forall g,
    (forall k, Api.lookupGroup g k <> None -> inherited k = false) ->
    Api.groupItems g lineItems = TypeError.
Proof.
  intros I K Hk. induction lineItems as [|x rest IH]; [destruct I|].
  intros g Inv. cbn [Api.groupItems].
  assert (E : isEmpty key = false) by (now destruct key).
  destruct I as [->|I].
  - rewrite K. cbn [bind]. rewrite E.
    destruct (Api.fileItem g key item) as [g1|] eqn:P; [|reflexivity].
    exfalso. destruct (fileItem_inv _ _ _ _ P) as [_ Free].
    destruct (Api.lookupGroup g key) eqn:L.
    + assert (inherited key = false)
        by (apply Inv; rewrite L; discriminate).
      congruence.
    + rewrite (Free eq_refl) in Hk. discriminate Hk.
  - destruct (Api.orderKey x) as [kx|]; [|reflexivity]. cbn [bind].
    destruct (isEmpty kx); [exact (IH I g Inv)|].
    destruct (Api.fileItem g kx x) as [g1|] eqn:P; [|reflexivity].
    cbn [bind]. exact (IH I g1 (fileItem_keeps _ _ _ _ Inv P)).
Qed.

Lemma get_setField (o : obj) (k : jsstring) (v : jsval) :
  get (Api.setField o k v) k = v.
Proof.
  unfold get. induction o as [|[k' v'] o IH]; simpl.
  - now rewrite str_eqb_refl.
  - destruct (str_eqb k' k) eqn:E; simpl; now rewrite E.
Qed.

Lemma get_setField_other (o : obj) (k k' : jsstring) (v : jsval) :
  k' <> k -> get (Api.setField o k v) k' = get o k'.
Proof.
  intros N. unfold get. induction o as [|[k0 v0] o IH]; simpl.
  - destruct (str_eqb k k') eqn:E; [|reflexivity].
    apply str_eqb_eq in E. congruence.
  - destruct (str_eqb k0 k) eqn:E; simpl.
    + apply str_eqb_eq in E. subst k0.
      destruct (str_eqb k k') eqn:E'; [|reflexivity].
      apply str_eqb_eq in E'. congruence.
    + destruct (str_eqb k0 k'); [reflexivity|exact IH].
Qed.

Lemma keys_setField (o : obj) (k : jsstring) (v : jsval) :
  keys (Api.setField o k v)
  = if existsb (str_eqb k) (keys o) then keys o else keys o ++ [k].
Proof.
  unfold keys. induction o as [|[k' v'] o IH]; [reflexivity|]. simpl.
  destruct (str_eqb k' k) eqn:E; simpl.
  - apply str_eqb_eq in E. subst k'. now rewrite str_eqb_refl.
  - rewrite IH. destruct (str_eqb k k') eqn:E'.
    + apply str_eqb_eq in E'. subst k'. now rewrite str_eqb_refl in E.
    + simpl. now destruct (existsb (str_eqb k) (map fst o)).
Qed.

Lemma mapM_inv {A B : Type} (f : A -> result B) (l : list A) (bs : list B) :
  mapM f l = Ok bs -> Forall2 (fun a b => f a = Ok b) l bs.
Proof.
  revert bs. induction l as [|a l IH]; intros bs H; simpl in H.
  - injection H as <-. constructor.
  - destruct (f a) as [b|] eqn:E; [|discriminate H]. cbn [bind] in H.
    destruct (mapM f l) as [bs'|]; [|discriminate H]. cbn [bind] in H.
    injection H as <-. constructor; [exact E|now apply IH].
Qed.

Lemma join_spec (orders lineItems : list jsval) (joined : list obj) :
  Api.ordersWithItems orders lineItems = Ok joined ->
  Forall (fun item => isNullish item = false) lineItems
  /\ Forall2 (fun order out =>
                exists key,
                  Api.orderKey order = Ok key
                  /\ out = Api.setField (Api.spread order) (lit "Line Items")
                             (if inherited key then get [] key
                              else JArr (filter (Stated.itemOf key)
                                           lineItems)))
             orders joined.
Proof.
  unfold Api.ordersWithItems. intros H.
  destruct (Api.groupItems [] lineItems) as [g|] eqn:G; [|discriminate H].
  cbn [bind] in H.
  destruct (groupItems_spec _ [] g ltac:(intros k F; now elim F) G)
    as [S [F C]].
  split; [exact F|].
  apply mapM_inv in H. revert H. apply Forall2_impl.
  intros order out A. unfold Api.attachItems in A.
  destruct (Api.orderKey order) as [key|]; [|discriminate A].
  cbn [bind] in A. injection A as <-. exists key.
  split; [reflexivity|]. f_equal.
  specialize (S key). unfold Api.groupOf in S.
  cbn [Api.lookupGroup app] in S. unfold Api.readGroup.
  destruct (Api.lookupGroup g key) as [l|] eqn:L.
  - rewrite (C key) by (rewrite L; discriminate). now rewrite S.
  - destruct (inherited key) eqn:I.
    + unfold jsOr. now rewrite (proj1 (inherited_truthy key I)).
    + rewrite (not_inherited_undefined key I). now rewrite <- S.
Qed.

(** X24.  The join gives every order the line items of its own id, and
    nothing else changes.  When [ordersWithItems] is computed, each order
    comes back, in place, with all its properties as they were and with
    [Line Items] set to the list of the line items whose [OrderID] has
    the same, non-empty display string as the order's (so the number 5
    and the string 5 meet), in the order of the line-items table; an order
    without id, and an item without id, are joined with nothing.  The
    names that every object inherits are the exception, [itemsByOrder]
    being a plain object: an order with such an id gets the inherited
    member in the place of a list, and a line item with such an id makes
    the join throw. *)
Theorem join_attaches_own_items (orders lineItems : list jsval) :
  (forall joined : list obj,
      Api.ordersWithItems orders lineItems = Ok joined ->
      Forall2 (fun order out =>
                 exists key,
                   Api.orderKey order = Ok key
                   /\ get out (lit "Line Items")
                      = (if inherited key then get [] key
                         else JArr (filter (Stated.itemOf key) lineItems))
                   /\ (forall k, k <> lit "Line Items" ->
                         get out k = get (Api.spread order) k)
                   /\ keys out
                      = (if existsb (str_eqb (lit "Line Items"))
                              (keys (Api.spread order))
                         then keys (Api.spread order)
                         else keys (Api.spread order) ++ [lit "Line Items"]))
              orders joined)
  /\ (forall (item : jsval) (key : jsstring),
         In item lineItems -> Api.orderKey item = Ok key ->
         inherited key = true ->
         Api.ordersWithItems orders lineItems = TypeError).
Proof.
  split.
  - intros joined H. destruct (join_spec _ _ _ H) as [_ F]. revert F.
    apply Forall2_impl. intros order out [key [K ->]]. exists key.
    split; [exact K|]. split; [|split].
    + apply get_setField.
    + intros k N. now apply get_setField_other.
    + apply keys_setField.
  - intros item key I K Hk. unfold Api.ordersWithItems.
    rewrite (groupItems_throws lineItems item key I K Hk []);
      [reflexivity|].
    intros k F. now elim F.
Qed.

Lemma join_attaches_own_items_witness :
  Api.ordersWithItems
    [ JObj [(lit "OrderID", JNum 5)];
      JObj [(lit "Order Name", JStr (lit "Ann"))];
      JObj [(lit "OrderID", JStr (lit "valueOf"))] ]
    [ JObj [(lit "OrderID", JStr (lit "5")); (lit "CakeQty", JNum 1)];
      JObj [(lit "OrderID", JNum 6)];
      JObj [(lit "CakeQty", JNum 3)];
      JObj [(lit "OrderID", JNum 5); (lit "CakeQty", JNum 2)] ]
  = Ok [ [ (lit "OrderID", JNum 5);
           (lit "Line Items",
            JArr [ JObj [(lit "OrderID", JStr (lit "5"));
                         (lit "CakeQty", JNum 1)];
                   JObj [(lit "OrderID", JNum 5); (lit "CakeQty", JNum 2)] ]) ];
         [ (lit "Order Name", JStr (lit "Ann")); (lit "Line Items", JArr []) ];
         [ (lit "OrderID", JStr (lit "valueOf"));
           (lit "Line Items", nativeFunction "valueOf") ] ]
  /\ Api.ordersWithItems
       [ JObj [(lit "OrderID", JNum 5)] ]
       [ JObj [(lit "OrderID", JNum 5)];
         JObj [(lit "OrderID", JStr (lit "constructor"))] ]
     = TypeError.
Proof.
  split; [vm_compute; reflexivity|].
  apply (proj2 (join_attaches_own_items
                  [ JObj [(lit "OrderID", JNum 5)] ]
                  [ JObj [(lit "OrderID", JNum 5)];
                    JObj [(lit "OrderID", JStr (lit "constructor"))] ])
               (JObj [(lit "OrderID", JStr (lit "constructor"))])
               (lit "constructor")).
  - right. now left.
  - reflexivity.
  - reflexivity.
Defined.

Lemma ordersWithItems_total (orders lineItems : list jsval) :
  Forall (fun v => Stated.isRow v = true) orders ->
  Forall (fun v => Stated.isRow v = true) lineItems ->
  exists joined, Api.ordersWithItems orders lineItems = Ok joined.
Proof.
  intros Fo Fi. unfold Api.ordersWithItems.
  destruct (groupItems_total lineItems [] Fi) as [g ->]. cbn [bind].
  assert (Forall (fun order => exists out, Api.attachItems g order = Ok out)
                 orders) as T.
  { revert Fo. apply Forall_impl. intros order N.
    unfold Api.attachItems. destruct (isRow_key order N) as [k [-> _]].
    cbn [bind]. eexists. reflexivity. }
  destruct (mapM_Forall2 _ _ T) as [joined [E _]]. now exists joined.
Qed.

Lemma fieldsDisplayable_setField (o : obj) (k : jsstring) (v : jsval) :
  Stated.fieldsDisplayable o = true -> displayable v = true ->
  Stated.fieldsDisplayable (Api.setField o k v) = true.
Proof.
  unfold Stated.fieldsDisplayable. intros Ho Hv.
  induction o as [|[k' v'] o IH]; cbn [Api.setField forallb snd].
  - now rewrite Hv.
  - cbn [forallb snd] in Ho. apply andb_prop in Ho as [H1 H2].
    destruct (str_eqb k' k); cbn [forallb snd].
    + now rewrite Hv, H2.
    + now rewrite H1, IH.
Qed.

Lemma isRow_inv (v : jsval) :
  Stated.isRow v = true ->
  isNullish v = false /\ displayable v = true
  /\ Stated.itemDisplayable v = true
  /\ exists fields, v = JObj fields
                    /\ Stated.fieldsDisplayable fields = true.
Proof.
  unfold Stated.isRow. destruct v; try discriminate. intros H.
  apply andb_prop in H as [H _]. apply andb_prop in H as [D F].
  repeat split; try assumption. now exists fields.
Qed.

(** X25.  What the API returns can be listed and printed.  When the
    orders and the line items are rows of the sheet (objects that have,
    as their fields have, a display string, with an id that is no
    inherited name), the join succeeds, and in each order it returns
    [Line Items] is a list without [null] and every value has a display
    string: the print path renders such an order with any stored template,
    the card summary and the designer's preview table are built, and
    nothing throws. *)
Theorem joined_orders_can_be_printed (orders lineItems : list jsval) :
  forallb Stated.isRow (orders ++ lineItems) = true ->
  exists joined,
    Api.ordersWithItems orders lineItems = Ok joined
    /\ Forall (fun out =>
                 isArray (get out (lit "Line Items")) = true
                 /\ Stated.lineItemsReadable out = true
                 /\ Stated.allDisplayable out = true
                 /\ (forall stored today,
                       exists html,
                         App.renderOrderForPrint stored today out = Ok html)
                 /\ (exists summary, App.buildItemsSummary out = Ok summary)
                 /\ (exists table,
                       Designer.buildLineItemsTable out = Ok table))
              joined.
Proof.
  intros H. rewrite forallb_app in H. apply andb_true_iff in H.
  destruct H as [Ho Hi]. rewrite forallb_forall in Ho, Hi.
  destruct (ordersWithItems_total orders lineItems) as [joined J].
  { apply Forall_forall. exact Ho. }
  { apply Forall_forall. exact Hi. }
  exists joined. split; [exact J|].
  destruct (join_spec _ _ _ J) as [_ F].
  assert (G : forall out, In out joined ->
            exists fields key,
              In (JObj fields) orders /\ inherited key = false
              /\ out = Api.setField fields (lit "Line Items")
                         (JArr (filter (Stated.itemOf key) lineItems))).
  { clear J. induction F as [|order out orders' joined' [key [K ->]] _ IH];
      intros o I; [destruct I|].
    destruct I as [<-|I].
    - destruct (isRow_inv order (Ho order (or_introl eq_refl)))
        as [_ [_ [_ [fields [-> _]]]]].
      destruct (isRow_key _ (Ho _ (or_introl eq_refl))) as [k [K' N]].
      rewrite K in K'. injection K' as <-. rewrite N.
      exists fields, key. split; [now left|]. now split.
    - destruct (IH (fun v Iv => Ho v (or_intror Iv)) o I)
        as [fields [key' [A B]]].
      exists fields, key'. split; [now right|exact B]. }
  apply Forall_forall. intros out I.
  destruct (G out I) as [fields [key [Io [_ ->]]]].
  set (items := filter (Stated.itemOf key) lineItems).
  assert (E : get (Api.setField fields (lit "Line Items") (JArr items))
                  (lit "Line Items") = JArr items) by apply get_setField.
  assert (Rows : forall item, In item items -> Stated.isRow item = true).
  { intros item Ii. apply filter_In in Ii. exact (Hi item (proj1 Ii)). }
  assert (R : Stated.lineItemsReadable
                (Api.setField fields (lit "Line Items") (JArr items)) = true).
  { unfold Stated.lineItemsReadable. rewrite E. cbn [elements].
    apply forallb_forall. intros item Ii.
    now rewrite (proj1 (isRow_inv item (Rows item Ii))). }
  assert (D : Stated.allDisplayable
                (Api.setField fields (lit "Line Items") (JArr items)) = true).
  { unfold Stated.allDisplayable. rewrite E. cbn [elements].
    apply andb_true_iff. split.
    - apply fieldsDisplayable_setField.
      + destruct (isRow_inv _ (Ho _ Io)) as [_ [_ [_ [f [Ef Df]]]]].
        injection Ef as <-. exact Df.
      + cbn [displayable]. apply forallb_forall. intros item Ii.
        exact (proj1 (proj2 (isRow_inv item (Rows item Ii)))).
    - apply forallb_forall. intros item Ii.
      exact (proj1 (proj2 (proj2 (isRow_inv item (Rows item Ii))))). }
  split; [now rewrite E|]. split; [exact R|]. split; [exact D|].
  split; [|split].
  - intros stored today. now apply renderOrderForPrint_total.
  - now apply App_summary_total.
  - now apply Designer_table_total.
Qed.

Lemma joined_orders_can_be_printed_witness :
  exists joined,
    Api.ordersWithItems
      [ JObj [(lit "OrderID", JNum 5); (lit "Order Name", JStr (lit "Ann"))] ]
      [ JObj [(lit "OrderID", JStr (lit "5")); (lit "CakeQty", JNum 1)] ]
    = Ok joined
    /\ Forall (fun out =>
                 isArray (get out (lit "Line Items")) = true
                 /\ Stated.lineItemsReadable out = true
                 /\ Stated.allDisplayable out = true
                 /\ (forall stored today,
                       exists html,
                         App.renderOrderForPrint stored today out = Ok html)
                 /\ (exists summary, App.buildItemsSummary out = Ok summary)
                 /\ (exists table,
                       Designer.buildLineItemsTable out = Ok table))
              joined.
Proof.
  apply (joined_orders_can_be_printed
           [ JObj [(lit "OrderID", JNum 5);
                   (lit "Order Name", JStr (lit "Ann"))] ]
           [ JObj [(lit "OrderID", JStr (lit "5"));
                   (lit "CakeQty", JNum 1)] ]).
  vm_compute. reflexivity.
Defined.

(** ** The order dialog *)

Lemma filter_none {A : Type} (p : A -> bool) (l : list A) :
  (forall a, In a l -> p a = false) -> filter p l = [].
Proof.
  induction l as [|a l IH]; intros H; [reflexivity|]. simpl.
  rewrite (H a (or_introl eq_refl)). apply IH. intros b I. apply H. now right.
Qed.

Lemma filter_find_unique (l : list obj) (x : jsstring) :
  NoDup (map App.rowId l) ->
  filter (fun o => str_eqb (App.rowId o) x) l
  = match find (fun o => str_eqb (App.rowId o) x) l with
    | Some o => [o]
    | None => []
    end.
Proof.
  induction l as [|a l IH]; intros N; [reflexivity|].
  simpl in N. inversion N as [|? ? Ha N']; subst. simpl.
  destruct (str_eqb (App.rowId a) x) eqn:E; [|exact (IH N')].
  apply str_eqb_eq in E. f_equal. apply filter_none. intros b I.
  destruct (str_eqb (App.rowId b) x) eqn:E'; [|reflexivity].
  apply str_eqb_eq in E'. destruct Ha. rewrite E, <- E'. now apply in_map.
Qed.

(** X26.  Printing from the dialog and printing from the list agree.
    When the row numbers tell the orders apart, the Print button of the
    dialog of an order gives the print container what selecting that
    order alone and pressing Print in the action bar gives it. *)
Theorem modal_print_is_print_of_one (ls : storage) (today : jsstring)
    (allOrders : list obj) (id : jsstring) :
  NoDup (map App.rowId allOrders) -> id <> [] ->
  App.modalPrint ls today allOrders (JStr id)
  = App.printSelected ls today allOrders [id].
Proof.
  intros N Hid. unfold App.modalPrint, App.printSelected, App.findOrder.
  destruct id as [|c id]; [contradiction|].
  cbn [truthy isEmpty negb toString].
  rewrite (filter_ext (fun o => setHas [c :: id] (App.rowId o))
             (fun o => str_eqb (App.rowId o) (c :: id))).
  - rewrite (filter_find_unique _ _ N).
    destruct (find _ allOrders) as [o|]; [|reflexivity].
    cbn [List.length Nat.eqb mapM].
    destruct (App.renderOrderForPrint _ today o); reflexivity.
  - intros o. unfold setHas. cbn [existsb]. now rewrite orb_false_r.
Qed.

Lemma modal_print_is_print_of_one_witness :
  App.modalPrint [] (lit "today")
    [ [(lit "_RowNumber", JNum 1)]; [(lit "_RowNumber", JNum 2)] ]
    (JStr (lit "2"))
  = App.printSelected [] (lit "today")
      [ [(lit "_RowNumber", JNum 1)]; [(lit "_RowNumber", JNum 2)] ]
      [lit "2"].
Proof.
  apply (modal_print_is_print_of_one [] (lit "today")
           [ [(lit "_RowNumber", JNum 1)]; [(lit "_RowNumber", JNum 2)] ]
           (lit "2")).
  - vm_compute. repeat constructor; simpl; intros K;
      repeat (destruct K as [K|K]; [discriminate K|]); exact K.
  - discriminate.
Defined.

(** X27.  Closing the dialog never gives the focus back to the card that
    was tapped.  [closeOrderModal] clears [modalCurrentId] before it looks
    the card up, so the card it looks for is the one whose id is the
    string "null": when no listed order has that id, no card is found,
    whatever order the dialog showed and whether or not its card is in the
    list. *)
Theorem closing_the_dialog_loses_the_focus (modalCurrentId : jsval)
    (filteredOrders : list obj) :
  ~ In (lit "null") (map App.rowId filteredOrders) ->
  App.closeOrderModal modalCurrentId (map App.rowId filteredOrders)
  = (JNull, None).
Proof.
  intros H. unfold App.closeOrderModal. f_equal.
  destruct (find _ _) as [card|] eqn:F; [|reflexivity].
  apply find_some in F. destruct F as [I E].
  apply str_eqb_eq in E. cbn [toString] in E. subst card. contradiction.
Qed.

Lemma closing_the_dialog_loses_the_focus_witness :
  App.closeOrderModal (JStr (lit "2"))
    (map App.rowId [ [(lit "_RowNumber", JNum 1)];
                     [(lit "_RowNumber", JNum 2)] ])
  = (JNull, None).
Proof.
  apply (closing_the_dialog_loses_the_focus (JStr (lit "2"))
           [ [(lit "_RowNumber", JNum 1)]; [(lit "_RowNumber", JNum 2)] ]).
  vm_compute. intros K.
  repeat (destruct K as [K|K]; [discriminate K|]). exact K.
Defined.

(** ** The options of the status and order-type filters *)

Lemma str_ltb_asym (a b : jsstring) :
  str_ltb a b = true -> str_ltb b a = false.
Proof.
  revert b. induction a as [|x a IH]; intros [|y b] H; simpl in *;
    try reflexivity; try discriminate H.
  destruct (N.ltb_spec x y) as [L|L]; simpl in H.
  - destruct (N.ltb_spec y x); [lia|].
    destruct (N.eqb_spec y x); [lia|reflexivity].
  - destruct (N.eqb_spec x y) as [->|]; [|discriminate H].
    rewrite N.ltb_irrefl, N.eqb_refl. simpl. now apply IH.
Qed.

Lemma insertSorted_perm (x : jsval) (l : list jsval) :
  Permutation (App.insertSorted x l) (x :: l).
Proof.
  induction l as [|y l IH]; simpl; [reflexivity|].
  destruct (str_ltb (toString y) (toString x)); [|reflexivity].
  rewrite IH. apply perm_swap.
Qed.

Lemma defaultSort_perm (l : list jsval) : Permutation (App.defaultSort l) l.
Proof.
  induction l as [|x l IH]; simpl; [reflexivity|].
  rewrite insertSorted_perm. now constructor.
Qed.

Lemma insertSorted_sorted (x : jsval) (l : list jsval) :
  Sorted Stated.notAfter l -> Sorted Stated.notAfter (App.insertSorted x l).
Proof.
  induction l as [|y l IH]; intros S; simpl.
  - repeat constructor.
  - destruct (str_ltb (toString y) (toString x)) eqn:E.
    + inversion S as [|? ? S' H]; subst. constructor; [now apply IH|].
      destruct l as [|z l]; simpl.
      * constructor. now apply str_ltb_asym.
      * destruct (str_ltb (toString z) (toString x)).
        -- inversion H; subst. now constructor.
        -- constructor. now apply str_ltb_asym.
    + constructor; [exact S|]. constructor. exact E.
Qed.

Lemma defaultSort_sorted (l : list jsval) : Sorted Stated.notAfter (App.defaultSort l).
Proof.
  induction l as [|x l IH]; simpl; [constructor|].
  now apply insertSorted_sorted.
Qed.

Lemma sameValueZero_eq (a b : jsval) : App.sameValueZero a b = true -> a = b.
Proof.
  destruct a, b; simpl; try discriminate; try reflexivity.
  - intros H. apply Bool.eqb_prop in H. now subst.
  - intros H. apply str_eqb_eq in H. now subst.
  - intros H. apply str_eqb_eq in H. now subst.
  - intros H. apply str_eqb_eq in H. now subst.
Qed.

Lemma sameValueZero_refl (a : jsval) :
  Stated.isPrimitive a = true -> App.sameValueZero a a = true.
Proof.
  destruct a; simpl; try discriminate; try reflexivity; intros _.
  - now destruct b.
  - apply str_eqb_refl.
  - apply str_eqb_refl.
Qed.

Lemma valueSet_In (l s : list jsval) (v : jsval) :
  In v (fold_left App.valueSetAdd l s) <-> In v s \/ In v l.
Proof.
  revert s. induction l as [|x l IH]; intros s; simpl; [tauto|].
  rewrite IH. unfold App.valueSetAdd.
  destruct (existsb (App.sameValueZero x) s) eqn:E.
  - apply existsb_exists in E. destruct E as [y [I E]].
    apply sameValueZero_eq in E. subst y. intuition congruence.
  - rewrite in_app_iff. simpl. intuition congruence.
Qed.

Lemma valueSet_NoDup (l s : list jsval) :
  Forall (fun v => Stated.isPrimitive v = true) l ->
  NoDup s -> NoDup (fold_left App.valueSetAdd l s).
Proof.
  intros F. revert s. induction F as [|x l P _ IH]; intros s N; [exact N|].
  simpl. apply IH. unfold App.valueSetAdd.
  destruct (existsb (App.sameValueZero x) s) eqn:E; [exact N|].
  apply NoDup_app; [exact N|repeat constructor; intros []|].
  intros y I [<-|[]].
  assert (existsb (App.sameValueZero x) s = true) as K.
  { apply existsb_exists. exists x. split; [exact I|].
    now apply sameValueZero_refl. }
  congruence.
Qed.

(** X28.  The options of the status filter and of the order-type filter
    are the distinct values of the field: a value is offered exactly when
    it counts as true and is the value of the field in some order; the
    options are in ascending order of their display strings; and, the
    values being strings, numbers or booleans, none is offered twice. *)
Theorem filter_options_are_the_distinct_values (field : jsstring)
    (allOrders : list obj) :
  let options := App.distinctValues field allOrders in
  (forall v, In v options <->
             truthy v = true /\ exists o, In o allOrders /\ get o field = v)
  /\ Sorted Stated.notAfter options
  /\ (Forall (fun o => Stated.isPrimitive (get o field) = true) allOrders ->
      NoDup options)
  /\ App.populateStatusFilter allOrders
     = App.distinctValues (lit "Status") allOrders
  /\ App.populateOrderTypeFilter allOrders
     = App.distinctValues (lit "Order Type") allOrders.
Proof.
  intros options. unfold options, App.distinctValues.
  split; [|split; [|split; [|split; reflexivity]]].
  - intros v. split.
    + intros I. apply (Permutation_in _ (defaultSort_perm _)) in I.
      apply valueSet_In in I. destruct I as [[]|I].
      apply filter_In in I. destruct I as [I T].
      apply in_map_iff in I. destruct I as [o [E I]]. eauto.
    + intros [T [o [I E]]].
      apply (Permutation_in _ (Permutation_sym (defaultSort_perm _))).
      apply valueSet_In. right. apply filter_In. split; [|exact T].
      apply in_map_iff. eauto.
  - apply defaultSort_sorted.
  - intros F.
    apply (Permutation_NoDup (Permutation_sym (defaultSort_perm _))).
    apply valueSet_NoDup; [|constructor].
    apply Forall_forall. intros v I. apply filter_In in I.
    destruct I as [I _]. apply in_map_iff in I. destruct I as [o [<- I]].
    rewrite Forall_forall in F. now apply F.
Qed.

(** ** Reading [.env.local] *)

Lemma spanName_eq (s a b : jsstring) :
  Server.spanName s = (a, b) ->
  s = a ++ b
  /\ ~ In HASH a /\ ~ In Server.EQUALS a
  /\ match b with
     | [] => True
     | c :: _ => c = HASH \/ c = Server.EQUALS
     end.
Proof.
  revert a b. induction s as [|x s IH]; intros a b H; simpl in H.
  - injection H as <- <-. repeat split; intros [].
  - destruct ((x =? HASH)%N || (x =? Server.EQUALS)%N) eqn:E.
    + injection H as <- <-. repeat split; try (intros []).
      apply orb_true_iff in E. destruct E as [E|E]; apply N.eqb_eq in E; tauto.
    + destruct (Server.spanName s) as [run rest]. injection H as <- <-.
      apply orb_false_iff in E. destruct E as [E1 E2].
      apply N.eqb_neq in E1, E2.
      destruct (IH _ _ eq_refl) as [-> [A [B C]]].
      split; [reflexivity|]. split; [|split; [|exact C]].
      * intros [F|F]; [congruence|exact (A F)].
      * intros [F|F]; [congruence|exact (B F)].
Qed.

Lemma spanName_app (name rest : jsstring) :
  ~ In HASH name -> ~ In Server.EQUALS name ->
  Server.spanName (name ++ Server.EQUALS :: rest)
  = (name, Server.EQUALS :: rest).
Proof.
  intros A B. induction name as [|x name IH]; [reflexivity|].
  simpl. destruct (N.eqb_spec x HASH) as [->|_].
  { destruct A. now left. }
  destruct (N.eqb_spec x Server.EQUALS) as [->|_].
  { destruct B. now left. }
  simpl. rewrite IH; [reflexivity| |]; intros F; [apply A|apply B]; now right.
Qed.

Lemma env_line_sound (line name value : jsstring) :
  Server.matchEnvLine line = Some (name, value) ->
  line = name ++ Server.EQUALS :: value
  /\ name <> [] /\ ~ In HASH name /\ ~ In Server.EQUALS name
  /\ existsb Server.isLineTerminator value = false.
Proof.
  unfold Server.matchEnvLine.
  destruct (Server.spanName line) as [n r] eqn:S.
  apply spanName_eq in S. destruct S as [-> [A [B _]]].
  destruct n as [|c n]; [discriminate|]. cbn [isEmpty].
  destruct r as [|e v]; [discriminate|].
  destruct (N.eqb_spec e Server.EQUALS) as [->|_]; [|discriminate].
  destruct (existsb Server.isLineTerminator v) eqn:T; [discriminate|].
  cbn [andb negb]. intros H. injection H as <- <-.
  repeat split; try assumption. discriminate.
Qed.

Lemma env_line_complete (name value : jsstring) :
  name <> [] -> ~ In HASH name -> ~ In Server.EQUALS name ->
  existsb Server.isLineTerminator value = false ->
  Server.matchEnvLine (name ++ Server.EQUALS :: value) = Some (name, value).
Proof.
  intros Ne A B T. unfold Server.matchEnvLine.
  rewrite (spanName_app _ _ A B).
  destruct name; [contradiction|]. cbn [isEmpty].
  now rewrite N.eqb_refl, T.
Qed.

(** X29.  Which lines of [.env.local] define a variable.  A line is read
    as an assignment exactly when it is a name, then [=], then a value,
    where the name is not empty and holds neither [#] nor [=], and the
    value holds no line terminator; the value is everything behind the
    first [=], further [=] and [#] included (there are no comments behind
    a value), and a line that starts with [#] defines nothing. *)
Theorem env_line_is_name_equals_value (line name value : jsstring) :
  Server.matchEnvLine line = Some (name, value)
  <-> line = name ++ Server.EQUALS :: value
      /\ name <> [] /\ ~ In HASH name /\ ~ In Server.EQUALS name
      /\ existsb Server.isLineTerminator value = false.
Proof.
  split.
  - apply env_line_sound.
  - intros [-> [Ne [A [B T]]]]. now apply env_line_complete.
Qed.

Lemma line_with_cr_end (l : jsstring) : Server.matchEnvLine (l ++ [13%N]) = None.
Proof.
  destruct (Server.matchEnvLine (l ++ [13%N])) as [[name value]|] eqn:M;
    [|reflexivity].
  apply env_line_sound in M. destruct M as [E [_ [_ [_ T]]]].
  exfalso.
  assert (In 13%N value) as I.
  { destruct value as [|v0 value'] using rev_ind.
    - apply (f_equal (@rev N)) in E. rewrite !rev_app_distr in E.
      simpl in E. injection E as E _. discriminate E.
    - apply (f_equal (@rev N)) in E.
      change (name ++ Server.EQUALS :: value' ++ [v0])
        with (name ++ (Server.EQUALS :: value') ++ [v0]) in E.
      rewrite app_assoc, !rev_app_distr in E. simpl in E.
      injection E as E _. subst v0. apply in_app_iff. right. now left. }
  assert (existsb Server.isLineTerminator value = true) as K.
  { apply existsb_exists. exists 13%N. split; [exact I|reflexivity]. }
  congruence.
Qed.

Lemma splitLines_line (l rest : jsstring) :
  ~ In NEWLINE l ->
  Server.splitLines (l ++ NEWLINE :: rest) = l :: Server.splitLines rest.
Proof.
  intros H. induction l as [|c l IH]; [reflexivity|].
  simpl. destruct (N.eqb_spec c NEWLINE) as [->|_].
  { destruct H. now left. }
  rewrite IH; [reflexivity|]. intros F. apply H. now right.
Qed.

(** X30.  A file with Windows line ends defines nothing.  When every
    line of [.env.local] ends with a carriage return and a line feed, no
    assignment is made at all: the carriage return stays at the end of
    each line, where the pattern does not accept it. *)
Theorem crlf_file_defines_nothing (lines : list jsstring) :
  Forall (fun l => ~ In NEWLINE l) lines ->
  Server.envAssignments
    (concat (map (fun l => l ++ [13%N; NEWLINE]) lines))
  = [].
Proof.
  unfold Server.envAssignments. induction 1 as [|l lines H _ IH];
    [reflexivity|].
  cbn [map concat].
  replace ((l ++ [13%N; NEWLINE])
             ++ concat (map (fun l => l ++ [13%N; NEWLINE]) lines))
    with ((l ++ [13%N]) ++ NEWLINE
            :: concat (map (fun l => l ++ [13%N; NEWLINE]) lines))
    by (rewrite <- !app_assoc; reflexivity).
  rewrite splitLines_line.
  - cbn [flat_map]. rewrite line_with_cr_end. exact IH.
  - intros F. apply in_app_iff in F. destruct F as [F|[F|[]]];
      [exact (H F)|discriminate F].
Qed.

Lemma crlf_file_defines_nothing_witness :
  Server.envAssignments
    (concat (map (fun l => l ++ [13%N; NEWLINE])
               [lit "APPSHEET_APP_ID=abc"; lit "APPSHEET_API_KEY=xyz"]))
  = [].
Proof.
  apply (crlf_file_defines_nothing
           [lit "APPSHEET_APP_ID=abc"; lit "APPSHEET_API_KEY=xyz"]).
  repeat constructor; apply notIn_existsb; reflexivity.
Defined.
